(** * YouTube Command Center: market scoring and strategy engine

    A shallow embedding of the decision logic of [src/app.py],
    [src/app1.py] and [src/app2.py]:

    - [get_market_data]: per-video metrics and the virality normalisation
      (identical in the three files);
    - [ai_content_engine]: transcript fetch with metadata fallback, prompt
      construction and the completion call (one module per file, since the
      files differ in the truncation cap, the model name, the prompt text
      and in whether the completion call is guarded);
    - [Counter(all_tags).most_common(30)]: the tag frequency table.

    Python [float] and the [float64] columns of pandas are IEEE 754
    binary64 numbers; they are modelled with the executable specification
    [SpecFloat] of the standard library at precision 53 and [emax] 1024.
    Python [int] is [Z].  Python [str] is a list of code points. *)

From Stdlib Require Import ZArith List Bool Lia Ascii Sorted Permutation.
From Stdlib Require String.
From Stdlib Require Import Floats.SpecFloat.
Import ListNotations.
Import String.StringSyntax.
Delimit Scope string_scope with string.
Local Open Scope Z_scope.

(** ** Python strings *)

Definition codepoint := N.
Definition pystr := list codepoint.

(** An ASCII literal of the source, as a Python string. *)
Definition lit (s : String.string) : pystr :=
  map N_of_ascii (String.list_ascii_of_string s).
Arguments lit s%_string.

(** Equality of strings, [a == b] *)
Definition str_eq_dec : forall a b : pystr, {a = b} + {a <> b} :=
  list_eq_dec N.eq_dec.

(** [sep.join(parts)] *)
Fixpoint join (sep : pystr) (parts : list pystr) : pystr :=
  match parts with
  | [] => []
  | [p] => p
  | p :: rest => p ++ sep ++ join sep rest
  end.

(** [s[:n]]: the first [n] code points, or all but the last [-n] when [n]
    is negative. *)
Definition slice_to (n : Z) (s : pystr) : pystr :=
  if 0 <=? n then firstn (Z.to_nat n) s
  else firstn (length s - Z.to_nat (- n)) s.

(** ** Exceptions and results *)

(** A raised exception: whether its class derives from [Exception] (a bare
    [except:] catches everything, [except Exception] only these) and the
    text [str(e)]. *)
Record exn := mk_exn { exn_is_Exception : bool; exn_str : pystr }.

Inductive result (A : Type) : Type :=
| Ok (a : A)
| Raise (e : exn).
Arguments Ok {A} a.
Arguments Raise {A} e.

Definition bind {A B : Type} (r : result A) (k : A -> result B) : result B :=
  match r with
  | Ok a => k a
  | Raise e => Raise e
  end.

Notation "x <- r ;; k" := (bind r (fun x => k))
  (at level 61, r at next level, right associativity).

Definition returns {A : Type} (r : result A) : Prop :=
  exists a, r = Ok a.

Definition raises {A : Type} (r : result A) : Prop :=
  exists e, r = Raise e.

Definition OverflowError_int_to_float : exn :=
  mk_exn true (lit "int too large to convert to float").
Definition OverflowError_true_divide : exn :=
  mk_exn true (lit "integer division result too large for a float").
Definition ZeroDivisionError : exn :=
  mk_exn true (lit "division by zero").

(** ** Binary64 arithmetic as Python and numpy perform it *)

Module PyFloat.

Definition prec : Z := 53.
Definition emax : Z := 1024.

Definition float : Type := spec_float.

Definition mul : float -> float -> float := SFmul prec emax.
Definition add : float -> float -> float := SFadd prec emax.
(** numpy division: no exception, [x/0] is infinite and [0/0] is NaN *)
Definition div : float -> float -> float := SFdiv prec emax.

Definition is_nan (x : float) : bool :=
  match x with S754_nan => true | _ => false end.
Definition is_inf (x : float) : bool :=
  match x with S754_infinity _ => true | _ => false end.
Definition is_finite (x : float) : bool :=
  match x with S754_zero _ | S754_finite _ _ _ => true | _ => false end.

Definition zero : float := S754_zero false.

(** An integer with its exact value, before any rounding. *)
Definition exact (z : Z) : float :=
  match z with
  | Z0 => S754_zero false
  | Zpos p => S754_finite false p 0
  | Zneg p => S754_finite true p 0
  end.

(** The binary64 number nearest to [z] (ties to even). *)
Definition nearest (z : Z) : float := binary_normalize prec emax z 0 false.

(** [float(z)], the implicit conversion of an [int] operand *)
Definition of_int (z : Z) : result float :=
  let f := nearest z in
  if is_inf f then Raise OverflowError_int_to_float else Ok f.

(** [a / b] on two [int]s: the correctly rounded quotient *)
Definition int_true_div (a b : Z) : result float :=
  if b =? 0 then Raise ZeroDivisionError
  else
    let q := SFdiv prec emax (exact a) (exact b) in
    if is_inf q then Raise OverflowError_true_divide else Ok q.

(** Quotient of [n] by [d] rounded to the nearest integer, ties to even. *)
Definition rhe_div (n d : Z) : Z :=
  let q := n / d in
  match (2 * (n mod d)) ?= d with
  | Lt => q
  | Gt => q + 1
  | Eq => if Z.even q then q else q + 1
  end.

(** [round(x, 2)] on a float: the decimal value of [x] rounded to two
    places (ties to even on the exact binary value), converted back to
    the nearest binary64 number; infinities and NaN are returned
    unchanged. *)
Definition round2 (x : float) : float :=
  match x with
  | S754_finite s m e =>
      if 0 <=? e then x
      else
        match rhe_div (100 * Zpos m) (2 ^ (- e)) with
        | Zpos k => SFdiv prec emax (S754_finite s k 0) (exact 100)
        | _ => S754_zero s
        end
  | _ => x
  end.

(** [Series.round(0)], that is [numpy.rint]: nearest integer, ties to
    even, sign kept. *)
Definition rint (x : float) : float :=
  match x with
  | S754_finite s m e =>
      if 0 <=? e then x
      else
        match rhe_div (Zpos m) (2 ^ (- e)) with
        | Zpos k => binary_round prec emax s k 0
        | _ => S754_zero s
        end
  | _ => x
  end.

Definition leb (x y : float) : bool := SFleb x y.
Definition ltb (x y : float) : bool := SFltb x y.

(** The literals [0.5] and [100] of the source. *)
Definition half : float := S754_finite false 4503599627370496 (-53).
Definition f100 : float := S754_finite false 7036874417766400 (-46).
Definition one : float := S754_finite false 4503599627370496 (-52).

(** [Series.max()]: NaN entries are skipped; NaN when nothing is left. *)
Definition max2 (a b : float) : float :=
  if is_nan a then b
  else if is_nan b then a
  else if ltb a b then b else a.

Definition series_max (l : list float) : float :=
  fold_left max2 l S754_nan.

End PyFloat.

Import PyFloat.

(** ** Market data: [get_market_data] *)

(** One element of [stats_res['items']], the answer of the metadata
    provider.  The three counts are optional keys of [item['statistics']]
    ([stats.get(key, 0)]); [int(...)] has been applied to the ones that
    are present.  [snippet_tags] is the optional key [snippet['tags']]. *)
Record item := mk_item {
  item_id : pystr;
  viewCount : option Z;
  likeCount : option Z;
  commentCount : option Z;
  snippet_title : pystr;
  snippet_tags : option (list pystr);
  thumbnail_high_url : pystr;
  publishedAt : pystr
}.

(** [stats.get(key, 0)] *)
Definition get_count (c : option Z) : Z :=
  match c with Some z => z | None => 0 end.

(** One dictionary appended to [data]. *)
Record row := mk_row {
  Video_ID : pystr;
  Thumbnail : pystr;
  Title : pystr;
  Views : Z;
  Likes : Z;
  Comments : Z;
  Engagement : float;
  Earnings : float;
  Virality_Raw : float;
  Link : pystr;
  Published : pystr;
  Tags : list pystr
}.

(** The frame [df]: the rows of [data] in order and, once it has been
    assigned, the column ['Virality Score'] (one value per row). *)
Record DataFrame := mk_df {
  df_rows : list row;
  df_Virality_Score : option (list float)
}.

Section MarketData.

(** The slider value [rpm], a module-level global read by the function. *)
Variable rpm : float.

(** [((likes + comments) / views * 100) if views > 0 else 0]; the integer
    [0] of the [else] branch is the number [0.0] once it sits in the
    frame next to the other rows. *)
Definition engagement_of (views likes comments : Z) : result float :=
  if 0 <? views then
    q <- int_true_div (likes + comments) views ;;
    Ok (mul q f100)
  else Ok zero.

(** [(views / 1000) * rpm] *)
Definition revenue_of (views : Z) : result float :=
  q <- int_true_div views 1000 ;;
  Ok (mul q rpm).

(** [(views * 0.5) + (likes * 50) + (comments * 100)] *)
Definition raw_score_of (views likes comments : Z) : result float :=
  v <- of_int views ;;
  l <- of_int (likes * 50) ;;
  c <- of_int (comments * 100) ;;
  Ok (add (add (mul v half) l) c).

(** The body of the loop for one item: the appended dictionary. *)
Definition score_item (it : item) : result row :=
  let views := get_count (viewCount it) in
  let likes := get_count (likeCount it) in
  let comments := get_count (commentCount it) in
  let title := snippet_title it in
  let video_id := item_id it in
  let tags := match snippet_tags it with Some t => t | None => [] end in
  engagement <- engagement_of views likes comments ;;
  revenue <- revenue_of views ;;
  let video_url := lit "https://www.youtube.com/watch?v=" ++ video_id in
  raw_score <- raw_score_of views likes comments ;;
  Ok {| Video_ID := video_id;
        Thumbnail := thumbnail_high_url it;
        Title := title;
        Views := views;
        Likes := likes;
        Comments := comments;
        Engagement := round2 engagement;
        Earnings := round2 revenue;
        Virality_Raw := raw_score;
        Link := video_url;
        Published := slice_to 10 (publishedAt it);
        Tags := tags |}.

(** The loop: [data] and [all_tags] after the items have been visited. *)
Fixpoint scan (items : list item) (data : list row) (all_tags : list pystr)
  : result (list row * list pystr) :=
  match items with
  | [] => Ok (data, all_tags)
  | it :: rest =>
      r <- score_item it ;;
      scan rest (data ++ [r]) (all_tags ++ Tags r)
  end.

(** [(df['Virality Raw'] / df['Virality Raw'].max()) * 100], then
    [.round(0)] *)
Definition virality_score (raw mx : float) : float :=
  rint (mul (div raw mx) f100).

(** [pd.DataFrame(data)] followed by the guarded normalisation. *)
Definition normalise (data : list row) : DataFrame :=
  match data with
  | [] => {| df_rows := []; df_Virality_Score := None |}
  | _ :: _ =>
      let mx := series_max (map Virality_Raw data) in
      {| df_rows := data;
         df_Virality_Score :=
           Some (map (fun r => virality_score (Virality_Raw r) mx) data) |}
  end.

(** [get_market_data], from the answer of the metadata provider on. *)
Definition get_market_data (items : list item)
  : result (DataFrame * list pystr) :=
  scanned <- scan items [] [] ;;
  Ok (normalise (fst scanned), snd scanned).

(** The score stored for the row at position [i], if the column exists. *)
Definition score_at (df : DataFrame) (i : nat) : option float :=
  match df_Virality_Score df with
  | Some col => nth_error col i
  | None => None
  end.

End MarketData.

(** ** Strategy engine: [ai_content_engine] *)

(** One element of the list returned by the transcript provider. *)
Record segment := mk_segment {
  seg_text : pystr;
  seg_start : float;
  seg_duration : float
}.

(** The external collaborators of the engine.
    - [get_transcript video_id] is [YouTubeTranscriptApi.get_transcript];
    - [generate_content name prompt] is
      [genai.GenerativeModel(name).generate_content(prompt).text];
    - [repr_str] is Python's [repr] on [str], used when a tag list is
      formatted into an f-string. *)
Class Providers := {
  get_transcript : pystr -> result (list segment);
  generate_content : pystr -> pystr -> result pystr;
  repr_str : pystr -> pystr
}.

Definition nl : pystr := [10%N].
Definition dquote : pystr := [34%N].
Definition brain : pystr := [0x1f9e0%N].
Definition memo : pystr := [0x1f4dd%N].
Definition palette : pystr := [0x1f3a8%N].
Definition high_voltage : pystr := [0x26a1%N].
Definition warning_sign : pystr := [0x26a0%N; 0xfe0f%N].

(** The three values of [context_source]. *)
Definition Full_Transcript : pystr := lit "Full Transcript".
Definition Title_and_Metadata : pystr :=
  lit "Title & Metadata (No Captions Found)".
Definition Error_label : pystr := lit "Error".

(** [f"{tags}"] for a list of strings *)
Definition format_list {P : Providers} (tags : list pystr) : pystr :=
  lit "[" ++ join (lit ", ") (map repr_str tags) ++ lit "]".

(** What a run of the script puts on the page, in order: the calls to
    [st.markdown], [st.caption], [st.success] and [st.error] with their
    text, and the text of a [st.spinner] that is entered. *)
Inductive ui_event : Type :=
| st_markdown (body : pystr)
| st_caption (body : pystr)
| st_success (body : pystr)
| st_error (body : pystr)
| st_spinner (text : pystr).

(** The outcome of a piece of the script: what it has shown, and the
    exception that ended it, if one did. *)
Record run := mk_run {
  shown : list ui_event;
  raised : option exn
}.

(** *** [src/app.py] *)

Module App.

Definition prompt_head : pystr :=
  nl ++
  lit "    Act as a Viral Content Strategist (MrBeast Style)." ++ nl ++
  lit "    " ++ nl ++
  lit "    SOURCE MATERIAL (".
Definition prompt_mid : pystr :=
  lit "):" ++ nl ++
  lit "    " ++ dquote.
Definition prompt_tail : pystr :=
  lit "..." ++ dquote ++ nl ++
  lit "    " ++ nl ++
  lit "    TASK:" ++ nl ++
  lit "    Analyze this content and generate a plan to RECREATE and OUTPERFORM it." ++ nl ++
  lit "    " ++ nl ++
  lit "    OUTPUT FORMAT (Markdown):" ++ nl ++
  lit "    ### " ++ brain ++ lit " 1. The Psychology" ++ nl ++
  lit "    * **Why it went viral:** (Analyze the hook/pacing)" ++ nl ++
  lit "    * **The Gap:** (What was missing? How can we improve?)" ++ nl ++
  lit "    " ++ nl ++
  lit "    ### " ++ memo ++ lit " 2. The Golden Script Outline" ++ nl ++
  lit "    * **Hook (0:00-0:30):** [Visual + Verbal Hook]" ++ nl ++
  lit "    * **Body:** [3 Key value points]" ++ nl ++
  lit "    * **Retention Hack:** [Mid-video pattern interrupt]" ++ nl ++
  lit "    * **CTA:** [Specific Call to Action]" ++ nl ++
  lit "    " ++ nl ++
  lit "    ### " ++ palette ++ lit " 3. Thumbnail Studio" ++ nl ++
  lit "    * **Idea 1:** [Visual description]" ++ nl ++
  lit "    * **Idea 2:** [Visual description]" ++ nl ++
  lit "    " ++ nl ++
  lit "    ### " ++ high_voltage ++ lit " 4. Viral Hooks (Titles)" ++ nl ++
  lit "    * Give 3 clickbait-style alternative titles." ++ nl ++
  lit "    ".

Section Engine.
Context {P : Providers}.

(** Stage 1, the [try]/[except:] around the transcript fetch: the pair
    [(context_source, transcript_text)] it leaves behind. *)
Definition fetch_context (video_id title : pystr) (tags : list pystr)
  : pystr * pystr :=
  match get_transcript video_id with
  | Ok transcript_list =>
      (Full_Transcript,
       slice_to 5000 (join (lit " ") (map seg_text transcript_list)))
  | Raise _ =>
      (Title_and_Metadata,
       lit "Video Title: " ++ title ++ lit ". Video Tags: " ++ format_list tags)
  end.

(** The f-string assigned to [prompt]. *)
Definition prompt (context_source transcript_text : pystr) : pystr :=
  prompt_head ++ context_source ++ prompt_mid ++ transcript_text ++ prompt_tail.

Definition model_name : pystr := lit "gemini-pro".

(** The completion call is not inside any [try]: what it raises leaves
    the function. *)
Definition ai_content_engine (video_id title : pystr) (tags : list pystr)
  : result (pystr * pystr) :=
  let context := fetch_context video_id title tags in
  let context_source := fst context in
  let transcript_text := snd context in
  response_text <-
    generate_content model_name (prompt context_source transcript_text) ;;
  Ok (response_text, context_source).

(** The body of the button "Clone & Improve" together with the handler of
    the [try] block that encloses it ([except Exception as e:
    st.error(...)]); the statements of the block that follow the button
    are not part of this fragment. *)
Definition strategy_button (video_id title : pystr) (tags : list pystr) : run :=
  let spinner :=
    st_spinner (brain ++ lit " AI is analyzing transcript & generating strategy...") in
  match ai_content_engine video_id title tags with
  | Ok (analysis, source) =>
      {| shown :=
           [ spinner;
             st_success (lit "Analysis Complete! (Based on: " ++ source ++ lit ")");
             st_markdown (lit "<div class=" ++ dquote ++ lit "ai-box" ++ dquote ++ lit ">"
                          ++ analysis ++ lit "</div>") ];
         raised := None |}
  | Raise e =>
      if exn_is_Exception e then
        {| shown := [ spinner; st_error (lit "An error occurred: " ++ exn_str e) ];
           raised := None |}
      else {| shown := [ spinner ]; raised := Some e |}
  end.

End Engine.

End App.

(** *** [src/app1.py] *)

Module App1.

Definition prompt_head : pystr :=
  nl ++
  lit "    Act as a Viral Content Strategist." ++ nl ++
  lit "    SOURCE MATERIAL (".
Definition prompt_mid : pystr :=
  lit "): " ++ dquote.
Definition prompt_tail : pystr :=
  lit "..." ++ dquote ++ nl ++
  lit "    " ++ nl ++
  lit "    TASK: Analyze this content and generate a plan to RECREATE and OUTPERFORM it." ++ nl ++
  lit "    " ++ nl ++
  lit "    OUTPUT FORMAT (Markdown):" ++ nl ++
  lit "    ### " ++ brain ++ lit " 1. The Psychology" ++ nl ++
  lit "    * **Why it went viral:** (Hook/Pacing)" ++ nl ++
  lit "    * **The Gap:** (What can be improved?)" ++ nl ++
  lit "    " ++ nl ++
  lit "    ### " ++ memo ++ lit " 2. The Golden Script Outline" ++ nl ++
  lit "    * **Hook (0:00-0:30):** [Visual + Verbal Hook]" ++ nl ++
  lit "    * **Body:** [Key value points]" ++ nl ++
  lit "    * **CTA:** [Call to Action]" ++ nl ++
  lit "    " ++ nl ++
  lit "    ### " ++ palette ++ lit " 3. Thumbnail Studio" ++ nl ++
  lit "    * **Idea 1:** [Visual description]" ++ nl ++
  lit "    * **Idea 2:** [Visual description]" ++ nl ++
  lit "    " ++ nl ++
  lit "    ### " ++ high_voltage ++ lit " 4. Viral Hooks" ++ nl ++
  lit "    * Give 3 clickbait-style alternative titles." ++ nl ++
  lit "    ".

Section Engine.
Context {P : Providers}.

(** Stage 1, the [try]/[except:] around the transcript fetch: the pair
    [(context_source, transcript_text)] it leaves behind. *)
Definition fetch_context (video_id title : pystr) (tags : list pystr)
  : pystr * pystr :=
  match get_transcript video_id with
  | Ok transcript_list =>
      (Full_Transcript,
       slice_to 5000 (join (lit " ") (map seg_text transcript_list)))
  | Raise _ =>
      (Title_and_Metadata,
       lit "Video Title: " ++ title ++ lit ". Video Tags: " ++ format_list tags)
  end.

(** The f-string assigned to [prompt]. *)
Definition prompt (context_source transcript_text : pystr) : pystr :=
  prompt_head ++ context_source ++ prompt_mid ++ transcript_text ++ prompt_tail.

Definition model_name : pystr := lit "gemini-pro".

(** The completion call is not inside any [try]: what it raises leaves
    the function. *)
Definition ai_content_engine (video_id title : pystr) (tags : list pystr)
  : result (pystr * pystr) :=
  let context := fetch_context video_id title tags in
  let context_source := fst context in
  let transcript_text := snd context in
  response_text <-
    generate_content model_name (prompt context_source transcript_text) ;;
  Ok (response_text, context_source).

(** [show_ai_modal]: nothing catches what the engine raises. *)
Definition show_ai_modal (video_id title : pystr) (tags : list pystr) : run :=
  let opening :=
    [ st_caption (lit "Analyzing Strategy for: " ++ title);
      st_spinner (brain ++ lit " Reading transcript, analyzing psychology, and writing script...") ] in
  match ai_content_engine video_id title tags with
  | Ok (analysis, source) =>
      {| shown :=
           opening ++
           [ st_success (lit "Analysis Complete! (Source: " ++ source ++ lit ")");
             st_markdown analysis;
             st_caption (lit "Tip: Copy this strategy to your notes.") ];
         raised := None |}
  | Raise e => {| shown := opening; raised := Some e |}
  end.

End Engine.

End App1.

(** *** [src/app2.py] *)

Module App2.

Definition prompt_head : pystr :=
  nl ++
  lit "        Act as a Viral Content Strategist." ++ nl ++
  lit "        SOURCE MATERIAL (".
Definition prompt_mid : pystr :=
  lit "): " ++ dquote.
Definition prompt_tail : pystr :=
  lit "..." ++ dquote ++ nl ++
  lit "        " ++ nl ++
  lit "        TASK: Analyze this content and generate a plan to RECREATE and OUTPERFORM it." ++ nl ++
  lit "        " ++ nl ++
  lit "        OUTPUT FORMAT (Markdown):" ++ nl ++
  lit "        ### " ++ brain ++ lit " 1. The Psychology" ++ nl ++
  lit "        * **Why it went viral:** (Hook/Pacing)" ++ nl ++
  lit "        * **The Gap:** (What can be improved?)" ++ nl ++
  lit "        " ++ nl ++
  lit "        ### " ++ memo ++ lit " 2. The Golden Script Outline" ++ nl ++
  lit "        * **Hook (0:00-0:30):** [Visual + Verbal Hook]" ++ nl ++
  lit "        * **Body:** [Key value points]" ++ nl ++
  lit "        * **CTA:** [Call to Action]" ++ nl ++
  lit "        " ++ nl ++
  lit "        ### " ++ palette ++ lit " 3. Thumbnail Studio" ++ nl ++
  lit "        * **Idea 1:** [Visual description]" ++ nl ++
  lit "        * **Idea 2:** [Visual description]" ++ nl ++
  lit "        " ++ nl ++
  lit "        ### " ++ high_voltage ++ lit " 4. Viral Hooks" ++ nl ++
  lit "        * Give 3 clickbait-style alternative titles." ++ nl ++
  lit "        ".

Section Engine.
Context {P : Providers}.

(** Stage 1, the [try]/[except:] around the transcript fetch: the pair
    [(context_source, transcript_text)] it leaves behind. *)
Definition fetch_context (video_id title : pystr) (tags : list pystr)
  : pystr * pystr :=
  match get_transcript video_id with
  | Ok transcript_list =>
      (Full_Transcript,
       slice_to 8000 (join (lit " ") (map seg_text transcript_list)))
  | Raise _ =>
      (Title_and_Metadata,
       lit "Video Title: " ++ title ++ lit ". Video Tags: " ++ format_list tags)
  end.

(** The f-string assigned to [prompt]. *)
Definition prompt (context_source transcript_text : pystr) : pystr :=
  prompt_head ++ context_source ++ prompt_mid ++ transcript_text ++ prompt_tail.

Definition model_name : pystr := lit "gemini-1.5-flash".

(** [f"<warning sign> AI Error: {str(e)}"] *)
Definition error_payload (e : exn) : pystr :=
  warning_sign ++ lit " AI Error: " ++ exn_str e.

(** The completion call sits in [try] ... [except Exception as e]. *)
Definition ai_content_engine (video_id title : pystr) (tags : list pystr)
  : result (pystr * pystr) :=
  let context := fetch_context video_id title tags in
  let context_source := fst context in
  let transcript_text := snd context in
  match generate_content model_name (prompt context_source transcript_text) with
  | Ok response_text => Ok (response_text, context_source)
  | Raise e =>
      if exn_is_Exception e then Ok (error_payload e, Error_label)
      else Raise e
  end.

(** [show_ai_modal] *)
Definition show_ai_modal (video_id title : pystr) (tags : list pystr) : run :=
  let opening :=
    [ st_markdown (lit "### Strategy for: _" ++ title ++ lit "_");
      st_spinner (brain ++ lit " AI is watching video & writing strategy...") ] in
  match ai_content_engine video_id title tags with
  | Ok (analysis, source) =>
      if str_eq_dec source (lit "Error") then
        {| shown := opening ++ [ st_error analysis ]; raised := None |}
      else
        {| shown :=
             opening ++
             [ st_success (lit "Analysis Generated from " ++ source);
               st_markdown analysis;
               st_caption (lit "Tip: Copy this text to your Notion/Notes app.") ];
           raised := None |}
  | Raise e => {| shown := opening; raised := Some e |}
  end.

End Engine.

End App2.

(** ** Tag frequencies: [Counter(all_tags).most_common(30)] *)

(** [Counter] is a [dict]: its items are kept in the order in which the
    keys were first inserted.  Counting one more occurrence of [t]: *)
Fixpoint count_one (t : pystr) (c : list (pystr * nat)) : list (pystr * nat) :=
  match c with
  | [] => [(t, 1%nat)]
  | (k, n) :: rest =>
      if str_eq_dec k t then (k, S n) :: rest
      else (k, n) :: count_one t rest
  end.

(** [Counter(all_tags).items()] *)
Definition Counter (all_tags : list pystr) : list (pystr * nat) :=
  fold_left (fun c t => count_one t c) all_tags [].

(** [sorted(items, key=itemgetter(1), reverse=True)]: a stable sort, so an
    item stays in front of the later items that have the same count. *)
Fixpoint insert_desc (x : pystr * nat) (l : list (pystr * nat))
  : list (pystr * nat) :=
  match l with
  | [] => [x]
  | y :: rest =>
      if (snd x <? snd y)%nat then y :: insert_desc x rest
      else x :: y :: rest
  end.

Fixpoint sorted_desc (l : list (pystr * nat)) : list (pystr * nat) :=
  match l with
  | [] => []
  | x :: rest => insert_desc x (sorted_desc rest)
  end.

(** [most_common(n)] is [heapq.nlargest(n, items, key=itemgetter(1))],
    which the library documents as [sorted(...)[:n]]; [n] is a number of
    entries. *)
Definition most_common (n : nat) (c : list (pystr * nat)) : list (pystr * nat) :=
  firstn n (sorted_desc c).

(** [tag_counts] of the dashboard, with the constant [30] as [limit]. *)
Definition topTags (all_tags : list pystr) (limit : nat) : list (pystr * nat) :=
  most_common limit (Counter all_tags).

Definition tag_counts (all_tags : list pystr) : list (pystr * nat) :=
  topTags all_tags 30.

(** Position of the first occurrence of [t] in [l] ([length l] if none). *)
Fixpoint first_occurrence (t : pystr) (l : list pystr) : nat :=
  match l with
  | [] => 0%nat
  | x :: rest => if str_eq_dec x t then 0%nat else S (first_occurrence t rest)
  end.

(** ** Vocabulary of the statements *)

(** [x] is a number (not NaN) whose sign bit is [s]. *)
Definition has_sign (s : bool) (x : float) : Prop :=
  match x with
  | S754_zero s' | S754_infinity s' | S754_finite s' _ _ => s' = s
  | S754_nan => False
  end.

(** A non-negative number in canonical form (or zero, or infinite). *)
Definition canonical_nonneg (x : float) : Prop :=
  match x with
  | S754_zero s | S754_infinity s => s = false
  | S754_finite s m e => s = false /\ e = fexp prec emax (Zpos (digits2_pos m) + e)
  | S754_nan => False
  end.

(** [x <= y] on non-negative canonical numbers: zero first, then the
    finite numbers by exponent and mantissa, then infinity. *)
Definition le_canonical (x y : float) : Prop :=
  match x, y with
  | S754_nan, _ | _, S754_nan => False
  | S754_zero _, _ => True
  | S754_finite _ _ _, S754_zero _ => False
  | S754_finite _ m e, S754_finite _ m' e' => e < e' \/ (e = e' /\ Zpos m <= Zpos m')
  | S754_finite _ _ _, S754_infinity _ => True
  | S754_infinity _, S754_infinity _ => True
  | S754_infinity _, _ => False
  end.

(** A finite number other than zero. *)
Definition finite_nonzero (x : float) : bool :=
  match x with S754_finite _ _ _ => true | _ => false end.

(** [needle in hay] *)
Definition contains (needle hay : pystr) : Prop :=
  exists before after, hay = before ++ needle ++ after.

(** The counts of an item are the non-negative integers of the data model. *)
Definition counts_nonneg (it : item) : Prop :=
  0 <= get_count (viewCount it) /\
  0 <= get_count (likeCount it) /\
  0 <= get_count (commentCount it).

(** The statistics of the metadata provider are unsigned 64-bit numbers. *)
Definition counts_uint64 (it : item) : Prop :=
  0 <= get_count (viewCount it) < 2 ^ 64 /\
  0 <= get_count (likeCount it) < 2 ^ 64 /\
  0 <= get_count (commentCount it) < 2 ^ 64.

(** Position at which the tag of a counter entry is first seen. *)
Definition seen (all_tags : list pystr) (x : pystr * nat) : nat :=
  first_occurrence (fst x) all_tags.

(** [a] was inserted into the counter before [b]. *)
Definition earlier (all_tags : list pystr) (a b : pystr * nat) : Prop :=
  (seen all_tags a < seen all_tags b)%nat.

(** [a] is ranked before [b]: a larger count, or the same count and an
    earlier first occurrence. *)
Definition ranked (all_tags : list pystr) (a b : pystr * nat) : Prop :=
  (snd b < snd a)%nat \/
  (snd a = snd b /\ (seen all_tags a < seen all_tags b)%nat).

(** ** Sample inputs *)

(** The default position of the RPM slider, [3.0]. *)
Definition rpm_default : float := nearest 3.

Definition sample_item (id : String.string) (views likes comments : Z)
                       (tags : list pystr) : item := {|
  item_id := lit id;
  viewCount := Some views;
  likeCount := Some likes;
  commentCount := Some comments;
  snippet_title := lit "Weekly budget walkthrough";
  snippet_tags := Some tags;
  thumbnail_high_url := lit "https://i.ytimg.com/vi/x/hqdefault.jpg";
  publishedAt := lit "2024-05-17T09:30:00Z"
|}.
Arguments sample_item id%_string views likes comments tags.

(** A video nobody has watched yet. *)
Definition unwatched_item : item := sample_item "vid0" 0 0 0 [].

(** A video with views but no likes and no comments. *)
Definition unrated_item : item := sample_item "vid1" 1000 0 0 [].

Definition popular_item : item :=
  sample_item "vid2" 1000 50 10 [lit "money"; lit "budget"].
Definition niche_item : item :=
  sample_item "vid3" 100 5 50 [lit "budget"].
Definition thirds_item : item := sample_item "vid4" 3 1 0 [].

(** [repr] of a string that needs neither escapes nor double quotes. *)
Definition repr_plain (s : pystr) : pystr := lit "'" ++ s ++ lit "'".

Definition no_captions : exn := mk_exn true (lit "Subtitles are disabled for this video").
Definition quota_exhausted : exn := mk_exn true (lit "429 Resource has been exhausted").

(** Captions are available and the completion service answers. *)
Definition healthy_providers : Providers := {|
  get_transcript := fun _ =>
    Ok [ {| seg_text := lit "welcome back"; seg_start := zero; seg_duration := one |};
         {| seg_text := lit "to the channel"; seg_start := one; seg_duration := one |} ];
  generate_content := fun _ _ => Ok (lit "### 1. The Psychology");
  repr_str := repr_plain
|}.

(** No captions, but the completion service answers. *)
Definition captionless_providers : Providers := {|
  get_transcript := fun _ => Raise no_captions;
  generate_content := fun _ _ => Ok (lit "### 1. The Psychology");
  repr_str := repr_plain
|}.

(** Captions are available, the completion service fails. *)
Definition exhausted_providers : Providers := {|
  get_transcript := fun _ =>
    Ok [ {| seg_text := lit "welcome back"; seg_start := zero; seg_duration := one |} ];
  generate_content := fun _ _ => Raise quota_exhausted;
  repr_str := repr_plain
|}.

(** ** More of the dashboard *)

(** [snippet.get('tags', [])] *)
Definition item_tags (it : item) : list pystr :=
  match snippet_tags it with Some t => t | None => [] end.

(** An item whose three counts are zero or missing. *)
Definition no_activity (it : item) : Prop :=
  get_count (viewCount it) = 0 /\
  get_count (likeCount it) = 0 /\
  get_count (commentCount it) = 0.

(** A row with its ['Earnings'] entry replaced. *)
Definition with_Earnings (r : row) (earnings : float) : row :=
  {| Video_ID := Video_ID r;
     Thumbnail := Thumbnail r;
     Title := Title r;
     Views := Views r;
     Likes := Likes r;
     Comments := Comments r;
     Engagement := Engagement r;
     Earnings := earnings;
     Virality_Raw := Virality_Raw r;
     Link := Link r;
     Published := Published r;
     Tags := Tags r |}.

(** [KeyError(name)]; its text is the [repr] of the key. *)
Definition KeyError (name : String.string) : exn :=
  mk_exn true (lit "'" ++ lit name ++ lit "'").
Arguments KeyError name%_string.

(** [df['Virality Score'].max()], the figure of the "Top Virality Score"
    tile; the column does not exist in a frame built from no rows. *)
Definition top_virality_score (df : DataFrame) : result float :=
  match df_Virality_Score df with
  | Some col => Ok (series_max col)
  | None => Raise (KeyError "Virality Score")
  end.

(** [d[k] = v] on a [dict] kept as its items in insertion order: a key
    that is present keeps its place and takes the new value. *)
Fixpoint dict_set (k : pystr) (v : nat) (d : list (pystr * nat))
  : list (pystr * nat) :=
  match d with
  | [] => [(k, v)]
  | (k', v') :: rest =>
      if str_eq_dec k' k then (k', v) :: rest
      else (k', v') :: dict_set k v rest
  end.

(** [dict(pairs)] *)
Definition py_dict (pairs : list (pystr * nat)) : list (pystr * nat) :=
  fold_left (fun d kv => dict_set (fst kv) (snd kv) d) pairs [].

(** The frequencies handed to the word cloud, [dict(tag_counts)]. *)
Definition cloud_frequencies (all_tags : list pystr) : list (pystr * nat) :=
  py_dict (tag_counts all_tags).

(** [df['Title'].tolist()], the options of the video selector; the frame
    built from no rows has no column ['Title']. *)
Definition video_list (df : DataFrame) : result (list pystr) :=
  match df_rows df with
  | [] => Raise (KeyError "Title")
  | rows => Ok (map Title rows)
  end.

Definition IndexError_iloc : exn :=
  mk_exn true (lit "single positional indexer is out-of-bounds").

(** [df[df['Title'] == selected_video].iloc[0]] *)
Definition selected_row (df : DataFrame) (selected_video : pystr) : result row :=
  match df_rows df with
  | [] => Raise (KeyError "Title")
  | rows =>
      match filter (fun r => if str_eq_dec (Title r) selected_video then true else false)
                   rows with
      | r :: _ => Ok r
      | [] => Raise IndexError_iloc
      end
  end.

(** ** The scan button and the stored results *)

(** [get_market_data] as a whole: [answer] is what the two requests to the
    metadata service leave behind, either the list
    [stats_res.get('items', [])] or the exception that [build] or one of
    the [execute()] calls raised. *)
Definition get_market_data_request (rpm : float) (answer : result (list item))
  : result (DataFrame * list pystr) :=
  items <- answer ;;
  get_market_data rpm items.

(** [st.session_state] of [src/app1.py]: the three keys the script
    initialises when they are missing. *)
Record session := mk_session {
  search_done : bool;
  session_df : DataFrame;
  session_all_tags : list pystr
}.

(** [pd.DataFrame()] *)
Definition empty_frame : DataFrame :=
  {| df_rows := []; df_Virality_Score := None |}.

Definition initial_session : session :=
  {| search_done := false; session_df := empty_frame; session_all_tags := [] |}.

(** One click on "Scan Market" in [src/app1.py]: the new session state
    and what the click shows. *)
Definition scan_click (rpm : float) (api_key : pystr)
    (answer : result (list item)) (s : session) : session * run :=
  match api_key with
  | [] =>
      (s, {| shown := [ st_error (warning_sign ++ lit " Please enter API Key first") ];
             raised := None |})
  | _ :: _ =>
      let spinner := st_spinner (lit "Scanning YouTube Database...") in
      match get_market_data_request rpm answer with
      | Ok (df, all_tags) =>
          ({| search_done := true; session_df := df; session_all_tags := all_tags |},
           {| shown := [ spinner ]; raised := None |})
      | Raise e =>
          if exn_is_Exception e then
            (s, {| shown := [ spinner; st_error (lit "Error: " ++ exn_str e) ];
                   raised := None |})
          else (s, {| shown := [ spinner ]; raised := Some e |})
      end
  end.

(** A sequence of clicks, each with the slider value, the key and the
    answer of the service at that moment. *)
Fixpoint scan_clicks (clicks : list (float * pystr * result (list item)))
    (s : session) : session :=
  match clicks with
  | [] => s
  | (rpm, api_key, answer) :: rest =>
      scan_clicks rest (fst (scan_click rpm api_key answer s))
  end.

(** [df['Views']]; the frame built from no rows has no such column. *)
Definition column_Views (df : DataFrame) : result (list Z) :=
  match df_rows df with
  | [] => Raise (KeyError "Views")
  | rows => Ok (map Views rows)
  end.

(** The results area of [src/app1.py] is entered when [search_done]
    holds; the first thing it evaluates is [df['Views']] of the stored
    frame.  [None]: the area is not entered. *)
Definition results_area_first_read (s : session) : option (result (list Z)) :=
  if search_done s then Some (column_Views (session_df s)) else None.

(** ** Exact halves *)

(** The binary64 number whose value is [k / 2], for [0 <= k < 2^53]: the
    mantissa is [k] shifted up to 53 bits. *)
Definition half_of (k : Z) : float :=
  match k with
  | Zpos _ =>
      S754_finite false (Z.to_pos (k * 2 ^ (53 - Zdigits2 k))) (Zdigits2 k - 54)
  | _ => S754_zero false
  end.

(** Twice the exact value of the raw score formula:
    [views + 100 * likes + 200 * comments]. *)
Definition weighted_sum (it : item) : Z :=
  get_count (viewCount it) + 100 * get_count (likeCount it)
  + 200 * get_count (commentCount it).

(** ** Rounding to two decimal places, in the words of the specification *)

(** [y] is [x] rounded to 2 decimal places: [y] is the binary64 number
    nearest to [k / 100], where [k] is the integer nearest to a hundred
    times the exact value [m * 2^e] of [x], the even one of the two when
    [x] lies half way.  A number without a fractional part, an infinity
    and NaN are left as they are. *)
Definition rounded_to_two_places (x y : float) : Prop :=
  match x with
  | S754_finite s m e =>
      if 0 <=? e then y = x
      else
        exists k : Z,
          0 <= k /\
          2 * Z.abs (100 * Zpos m - 2 ^ (- e) * k) <= 2 ^ (- e) /\
          (2 * Z.abs (100 * Zpos m - 2 ^ (- e) * k) = 2 ^ (- e) -> Z.even k = true) /\
          y = match k with
              | Zpos p =>
                  SFdiv prec emax (S754_finite s p 0) (S754_finite false 100 0)
              | _ => S754_zero s
              end
  | _ => y = x
  end.

(** * Properties *)

(** ** Binary64 rounding *)

Module PyFloatFacts.

Lemma div_eucl_div_mod (a b : Z) : Z.div_eucl a b = (a / b, a mod b).
Proof. unfold Z.div, Z.modulo. destruct (Z.div_eucl a b). reflexivity. Qed.

Lemma new_location_exact (d : Z) : new_location d 0 = loc_Exact.
Proof.
  unfold new_location, new_location_even, new_location_odd.
  destruct (Z.even d); reflexivity.
Qed.

(** A finite number divided by itself is exactly [1.0]. *)
Lemma div_self (s : bool) (m : positive) (e : Z) :
  div (S754_finite s m e) (S754_finite s m e) = one.
Proof.
  unfold div, SFdiv, SFdiv_core_binary.
  rewrite !Z.sub_diag.
  change (Z.min (fexp prec emax 0) 0) with (-53).
  change (0 - -53) with 53.
  cbv iota.
  rewrite div_eucl_div_mod, Z.shiftl_mul_pow2 by lia.
  rewrite (Z.mul_comm (Z.pos m)).
  rewrite Z.div_mul, Z.mod_mul by lia.
  rewrite new_location_exact, xorb_nilpotent.
  vm_compute. reflexivity.
Qed.

(** *** Right shifts of the mantissa *)

Lemma shr_1_m (r : shr_record) :
  0 <= shr_m r -> shr_m (shr_1 r) = shr_m r / 2.
Proof.
  destruct r as [m r s]. simpl. intros Hm.
  destruct m as [| p | p]; try lia.
  - reflexivity.
  - destruct p as [p | p |]; simpl shr_m.
    + rewrite Pos2Z.inj_xI. rewrite Z.mul_comm, Z.div_add_l by lia.
      change (1 / 2) with 0. lia.
    + rewrite Pos2Z.inj_xO. rewrite Z.mul_comm, Z.div_mul by lia. reflexivity.
    + reflexivity.
Qed.

Lemma iter_shr_1_m (p : positive) :
  forall r, 0 <= shr_m r ->
    shr_m (iter_pos shr_1 p r) = shr_m r / 2 ^ Zpos p.
Proof.
  induction p as [p IH | p IH |]; intros r Hr; simpl iter_pos.
  - assert (H1 : 0 <= shr_m (shr_1 r)).
    { rewrite shr_1_m by assumption. apply Z.div_pos; lia. }
    assert (H2 : 0 <= shr_m (iter_pos shr_1 p (shr_1 r))).
    { rewrite IH by assumption. apply Z.div_pos; lia. }
    rewrite IH, IH, shr_1_m by assumption.
    rewrite !Z.div_div by lia.
    f_equal. replace (Z.pos p~1) with (1 + Z.pos p + Z.pos p) by lia.
    rewrite !Z.pow_add_r by lia. change (2 ^ 1) with 2. ring.
  - assert (H2 : 0 <= shr_m (iter_pos shr_1 p r)).
    { rewrite IH by assumption. apply Z.div_pos; lia. }
    rewrite IH, IH by assumption.
    rewrite !Z.div_div by lia.
    f_equal. replace (Z.pos p~0) with (Z.pos p + Z.pos p) by lia.
    rewrite Z.pow_add_r by lia. ring.
  - rewrite shr_1_m by assumption. reflexivity.
Qed.

Lemma shr_record_of_loc_m (m : Z) (l : location) :
  shr_m (shr_record_of_loc m l) = m.
Proof. destruct l as [| []]; reflexivity. Qed.

(** The exponent chosen by [shr_fexp] and the mantissa it leaves. *)
Lemma shr_fexp_spec (m e : Z) (l : location) :
  0 <= m ->
  let e' := Z.max e (fexp prec emax (Zdigits2 m + e)) in
  snd (shr_fexp prec emax m e l) = e' /\
  shr_m (fst (shr_fexp prec emax m e l)) = m / 2 ^ (e' - e).
Proof.
  intros Hm e'. unfold shr_fexp, shr.
  destruct (fexp prec emax (Zdigits2 m + e) - e) as [| p | p] eqn:Hd; simpl fst; simpl snd.
  - replace (e' - e) with 0 by lia.
    rewrite shr_record_of_loc_m, Z.div_1_r. split; [lia | reflexivity].
  - rewrite iter_shr_1_m by (rewrite shr_record_of_loc_m; exact Hm).
    rewrite shr_record_of_loc_m.
    replace (e' - e) with (Zpos p) by lia. split; [lia | reflexivity].
  - replace (e' - e) with 0 by lia.
    rewrite shr_record_of_loc_m, Z.div_1_r. split; [lia | reflexivity].
Qed.

Lemma round_nearest_even_bounds (m : Z) (l : location) :
  m <= round_nearest_even m l <= m + 1.
Proof.
  destruct l as [| []]; simpl; try lia.
  destruct (Z.even m); lia.
Qed.

(** *** Signs *)

Lemma binary_round_aux_sign (s : bool) (m e : Z) (l : location) :
  0 <= m -> has_sign s (binary_round_aux prec emax s m e l).
Proof.
  intros Hm. unfold binary_round_aux.
  destruct (shr_fexp_spec m e l Hm) as [_ H1].
  destruct (shr_fexp prec emax m e l) as [mrs' e'] eqn:E1. simpl fst in H1.
  pose proof (round_nearest_even_bounds (shr_m mrs') (loc_of_shr_record mrs')) as Hr.
  assert (H0 : 0 <= shr_m mrs') by (rewrite H1; apply Z.div_pos; lia).
  set (m1 := round_nearest_even (shr_m mrs') (loc_of_shr_record mrs')) in *.
  assert (Hm1 : 0 <= m1) by lia.
  destruct (shr_fexp_spec m1 e' loc_Exact Hm1) as [_ H2].
  destruct (shr_fexp prec emax m1 e' loc_Exact) as [mrs'' e''] eqn:E2. simpl fst in H2.
  assert (H3 : 0 <= shr_m mrs'') by (rewrite H2; apply Z.div_pos; lia).
  destruct (shr_m mrs'') as [| p | p].
  - exact eq_refl.
  - destruct (e'' <=? emax - prec); exact eq_refl.
  - lia.
Qed.

Lemma SFdiv_core_binary_nonneg (m1 e1 m2 e2 : Z) :
  0 <= m1 -> 0 < m2 ->
  0 <= fst (fst (SFdiv_core_binary prec emax m1 e1 m2 e2)).
Proof.
  intros H1 H2. unfold SFdiv_core_binary.
  rewrite div_eucl_div_mod. simpl fst.
  apply Z.div_pos; [| exact H2].
  destruct (e1 - e2 - _) as [| p | p]; try lia.
  rewrite Z.shiftl_mul_pow2 by lia.
  apply Z.mul_nonneg_nonneg; [exact H1 | apply Z.pow_nonneg; lia].
Qed.

Lemma div_finite_sign (sx sy : bool) (mx my : positive) (ex ey : Z) :
  has_sign (xorb sx sy)
           (SFdiv prec emax (S754_finite sx mx ex) (S754_finite sy my ey)).
Proof.
  unfold SFdiv.
  pose proof (SFdiv_core_binary_nonneg (Zpos mx) ex (Zpos my) ey) as H.
  destruct (SFdiv_core_binary prec emax (Zpos mx) ex (Zpos my) ey) as [[mz ez] lz].
  apply binary_round_aux_sign. apply H; lia.
Qed.

Lemma exact_div_sign (a b : Z) :
  0 <= a -> 0 < b -> has_sign false (SFdiv prec emax (exact a) (exact b)).
Proof.
  intros Ha Hb.
  destruct b as [| pb | pb]; try lia.
  destruct a as [| pa | pa]; try lia.
  - exact eq_refl.
  - apply (div_finite_sign false false).
Qed.

Lemma mul_finite_sign (sx sy : bool) (x : float) (my : positive) (ey : Z) :
  has_sign sx x -> has_sign (xorb sx sy) (mul x (S754_finite sy my ey)).
Proof.
  destruct x as [s | s | | s m e]; simpl; intros H; try contradiction; subst s;
    try exact eq_refl.
  apply binary_round_aux_sign. lia.
Qed.

Lemma nearest_sign (z : Z) : 0 <= z -> has_sign false (nearest z).
Proof.
  intros Hz. destruct z as [| p | p]; try lia.
  - exact eq_refl.
  - unfold nearest, binary_normalize, binary_round.
    destruct (shl_align p 0 _) as [mz ez].
    apply binary_round_aux_sign. lia.
Qed.

Lemma add_nonneg (x y : float) :
  has_sign false x -> has_sign false y -> has_sign false (add x y).
Proof.
  destruct x as [sx | sx | | sx mx ex]; simpl; intros Hx; try contradiction; subst sx;
    destruct y as [sy | sy | | sy my ey]; simpl; intros Hy; try contradiction; subst sy;
    try exact eq_refl.
  unfold add, SFadd, cond_Zopp.
  unfold binary_normalize, binary_round.
  destruct (shl_align (_ + _) _ _) as [mz ez].
  apply binary_round_aux_sign. lia.
Qed.

Lemma round2_sign (s : bool) (x : float) :
  has_sign s x -> has_sign s (round2 x).
Proof.
  destruct x as [s' | s' | | s' m e]; simpl; intros H; try contradiction; subst s';
    try exact eq_refl.
  destruct (0 <=? e); [exact eq_refl |].
  destruct (rhe_div _ _) as [| k | k]; try exact eq_refl.
  pose proof (div_finite_sign s false k 100 0 0) as Hd.
  rewrite xorb_false_r in Hd. exact Hd.
Qed.

Lemma rint_sign (s : bool) (x : float) :
  has_sign s x -> has_sign s (rint x).
Proof.
  destruct x as [s' | s' | | s' m e]; simpl; intros H; try contradiction; subst s';
    try exact eq_refl.
  destruct (0 <=? e); [exact eq_refl |].
  destruct (rhe_div _ _) as [| k | k]; try exact eq_refl.
  unfold binary_round.
  destruct (shl_align k 0 _) as [mz ez].
  apply binary_round_aux_sign. lia.
Qed.

Lemma nonneg_leb (x : float) : has_sign false x -> leb zero x = true.
Proof.
  destruct x as [s | s | | s m e]; simpl; intros H; try contradiction; subst s;
    reflexivity.
Qed.

(** *** Sizes and overflow *)

Lemma fexp_eq (x : Z) : fexp prec emax x = Z.max (x - 53) (-1074).
Proof. reflexivity. Qed.

Lemma digits2_pos_size (p : positive) : digits2_pos p = Pos.size p.
Proof. induction p as [p IH | p IH |]; simpl; rewrite ?IH; reflexivity. Qed.

Lemma Zdigits2_log2 (m : Z) : 0 < m -> Zdigits2 m = Z.log2 m + 1.
Proof.
  destruct m as [| p | p]; try lia. intros _.
  unfold Zdigits2. rewrite digits2_pos_size.
  destruct p as [p | p |]; simpl; lia.
Qed.

Lemma Zdigits2_nonneg (m : Z) : 0 <= Zdigits2 m.
Proof. destruct m; simpl; lia. Qed.

(** A non-negative number below [2^n] has at most [n] binary digits. *)
Lemma Zdigits2_le (m n : Z) : 0 <= m -> 0 <= n -> m < 2 ^ n -> Zdigits2 m <= n.
Proof.
  intros Hm Hn Hlt.
  destruct (Z.eq_dec m 0) as [-> | Hne]; [simpl; lia |].
  rewrite Zdigits2_log2 by lia.
  assert (Z.log2 m < n) by (apply Z.log2_lt_pow2; lia).
  lia.
Qed.

Lemma div_pow2_lt (m n k : Z) :
  0 <= m -> 0 <= k -> 0 <= n -> m < 2 ^ n ->
  m / 2 ^ k < 2 ^ Z.max 0 (n - k).
Proof.
  intros Hm Hk Hn Hlt.
  assert (Hp : 0 < 2 ^ k) by (apply Z.pow_pos_nonneg; lia).
  apply Z.div_lt_upper_bound; [exact Hp |].
  rewrite <- Z.pow_add_r by lia.
  eapply Z.lt_le_trans; [exact Hlt |].
  apply Z.pow_le_mono_r; lia.
Qed.

(** Rounding a number below [2^(n+e)] with [n + e <= 1023] does not
    overflow. *)
Lemma binary_round_aux_finite (s : bool) (m e n : Z) (l : location) :
  0 <= m -> 0 <= n -> m < 2 ^ n -> n + e <= 1023 -> e <= 971 ->
  is_inf (binary_round_aux prec emax s m e l) = false.
Proof.
  intros Hm Hn Hlt Hne He. unfold binary_round_aux.
  destruct (shr_fexp_spec m e l Hm) as [He' Hm'].
  destruct (shr_fexp prec emax m e l) as [mrs' e'] eqn:E1.
  simpl fst in Hm'; simpl snd in He'. rewrite <- He' in Hm'.
  pose proof (round_nearest_even_bounds (shr_m mrs') (loc_of_shr_record mrs')) as Hr.
  set (m1 := round_nearest_even (shr_m mrs') (loc_of_shr_record mrs')) in *.
  pose proof (Zdigits2_le m n Hm Hn Hlt) as Hd.
  pose proof (Zdigits2_nonneg m) as Hd0.
  rewrite fexp_eq in He'.
  assert (Hk : 0 <= e' - e) by lia.
  pose proof (div_pow2_lt m n (e' - e) Hm Hk Hn Hlt) as Hlt'.
  rewrite <- Hm' in Hlt'.
  assert (H0 : 0 <= shr_m mrs') by (rewrite Hm'; apply Z.div_pos; lia).
  assert (Hm1 : 0 <= m1) by lia.
  assert (Hlt1 : m1 < 2 ^ (Z.max 0 (n - (e' - e)) + 1)).
  { rewrite Z.pow_add_r by lia. change (2 ^ 1) with 2.
    assert (0 < 2 ^ Z.max 0 (n - (e' - e))) by (apply Z.pow_pos_nonneg; lia).
    lia. }
  assert (Hd1 : Zdigits2 m1 <= Z.max 0 (n - (e' - e)) + 1)
    by (apply Zdigits2_le; [exact Hm1 | lia | exact Hlt1]).
  destruct (shr_fexp_spec m1 e' loc_Exact Hm1) as [He'' _].
  destruct (shr_fexp prec emax m1 e' loc_Exact) as [mrs'' e''] eqn:E2.
  simpl snd in He''. rewrite fexp_eq in He''.
  destruct (shr_m mrs'') as [| p | p]; try reflexivity.
  replace (e'' <=? emax - prec) with true; [reflexivity |].
  symmetry. apply Z.leb_le. unfold emax, prec. lia.
Qed.

Lemma iter_xO_pow2 (m d : positive) :
  Zpos (Pos.iter xO m d) = Zpos m * 2 ^ Zpos d.
Proof.
  rewrite Pos2Nat.inj_iter, <- (positive_nat_Z d).
  induction (Pos.to_nat d) as [| k IH].
  - change (Z.of_nat 0) with 0. rewrite Z.pow_0_r, Z.mul_1_r. reflexivity.
  - rewrite Nat2Z.inj_succ, Z.pow_succ_r by lia.
    cbn [nat_rect].
    rewrite (Pos2Z.inj_xO (nat_rect _ _ _ k)), IH. ring.
Qed.

Lemma shl_align_spec (m : positive) (e e' : Z) :
  let '(m', e'') := shl_align m e e' in
  e'' = Z.min e e' /\ Zpos m' = Zpos m * 2 ^ (e - e'').
Proof.
  unfold shl_align.
  destruct (e' - e) as [| d | d] eqn:Hd; cbv beta iota.
  - split; [lia |]. replace (e - e) with 0 by lia. lia.
  - split; [lia |]. replace (e - e) with 0 by lia. lia.
  - split; [lia |].
    replace (e - e') with (Zpos d) by lia.
    apply iter_xO_pow2.
Qed.

Lemma nearest_finite (z : Z) :
  0 <= z < 2 ^ 1000 -> is_inf (nearest z) = false.
Proof.
  intros [Hz Hlt]. destruct z as [| p | p]; try lia; [reflexivity |].
  unfold nearest, binary_normalize, binary_round.
  pose proof (shl_align_spec p 0 (fexp prec emax (Zpos (digits2_pos p) + 0))) as Hs.
  destruct (shl_align p 0 _) as [mz ez]. destruct Hs as [Hez Hmz].
  pose proof (Zdigits2_le (Zpos p) 1000 ltac:(lia) ltac:(lia) Hlt) as Hd.
  change (Zdigits2 (Zpos p)) with (Zpos (digits2_pos p)) in Hd.
  rewrite fexp_eq in Hez.
  apply binary_round_aux_finite with (n := 1000 - ez); try lia.
  rewrite Hmz. replace (1000 - ez) with (1000 + (0 - ez)) by lia.
  rewrite Z.pow_add_r by lia.
  apply Z.mul_lt_mono_pos_r; [apply Z.pow_pos_nonneg; lia | exact Hlt].
Qed.

Lemma of_int_returns (z : Z) :
  0 <= z < 2 ^ 1000 -> of_int z = Ok (nearest z).
Proof.
  intros H. unfold of_int. rewrite (nearest_finite z H). reflexivity.
Qed.


Lemma SFdiv_core_binary_spec (m1 e1 m2 e2 : Z) :
  let e' := Z.min (fexp prec emax (Zdigits2 m1 + e1 - (Zdigits2 m2 + e2))) (e1 - e2) in
  SFdiv_core_binary prec emax m1 e1 m2 e2 =
    (m1 * 2 ^ (e1 - e2 - e') / m2, e',
     new_location m2 ((m1 * 2 ^ (e1 - e2 - e')) mod m2)).
Proof.
  intros e'. unfold SFdiv_core_binary. fold e'.
  assert (Hs : 0 <= e1 - e2 - e') by (unfold e'; lia).
  destruct (e1 - e2 - e') as [| p | p] eqn:Es; try lia.
  - rewrite Z.pow_0_r, Z.mul_1_r, div_eucl_div_mod. reflexivity.
  - rewrite Z.shiftl_mul_pow2 by lia. rewrite div_eucl_div_mod. reflexivity.
Qed.

(** On counts below [2^1000], [a / b] does not overflow. *)
Lemma exact_div_finite (a b : Z) :
  0 <= a < 2 ^ 1000 -> 0 < b ->
  is_inf (SFdiv prec emax (exact a) (exact b)) = false.
Proof.
  intros [Ha Hlt] Hb.
  destruct b as [| pb | pb]; try lia.
  destruct a as [| pa | pa]; try lia; [reflexivity |].
  unfold exact, SFdiv. rewrite SFdiv_core_binary_spec.
  set (e' := Z.min _ _).
  assert (He' : e' <= 0) by (unfold e'; lia).
  replace (0 - 0 - e') with (- e') by lia.
  apply binary_round_aux_finite with (n := 1000 - e'); try lia.
  - apply Z.div_pos; [| lia].
    apply Z.mul_nonneg_nonneg; [lia | apply Z.pow_nonneg; lia].
  - eapply Z.le_lt_trans.
    + apply Z.div_le_upper_bound with (q := Zpos pa * 2 ^ (- e')); [lia |].
      assert (0 <= Zpos pa * 2 ^ (- e'))
        by (apply Z.mul_nonneg_nonneg; [lia | apply Z.pow_nonneg; lia]).
      nia.
    + replace (1000 - e') with (1000 + - e') by lia.
      rewrite Z.pow_add_r by lia.
      apply Z.mul_lt_mono_pos_r; [apply Z.pow_pos_nonneg; lia | exact Hlt].
Qed.

Lemma int_true_div_returns (a b : Z) :
  0 <= a < 2 ^ 1000 -> 0 < b ->
  int_true_div a b = Ok (SFdiv prec emax (exact a) (exact b)).
Proof.
  intros Ha Hb. unfold int_true_div.
  replace (b =? 0) with false by (symmetry; apply Z.eqb_neq; lia).
  rewrite exact_div_finite by assumption. reflexivity.
Qed.

Lemma int_true_div_sign (a b : Z) (q : float) :
  0 <= a -> 0 < b -> int_true_div a b = Ok q -> has_sign false q.
Proof.
  intros Ha Hb. unfold int_true_div.
  destruct (b =? 0); [discriminate |].
  destruct (is_inf _); [discriminate |].
  intros H. injection H as <-. apply exact_div_sign; assumption.
Qed.

Lemma of_int_sign (z : Z) (f : float) :
  0 <= z -> of_int z = Ok f -> has_sign false f.
Proof.
  intros Hz. unfold of_int.
  destruct (is_inf _); [discriminate |].
  intros H. injection H as <-. apply nearest_sign; assumption.
Qed.

(** *** Number of binary digits *)

Lemma Zdigits2_bounds (m : Z) :
  0 < m -> 2 ^ (Zdigits2 m - 1) <= m < 2 ^ Zdigits2 m.
Proof.
  intros Hm. rewrite Zdigits2_log2 by exact Hm.
  replace (Z.log2 m + 1 - 1) with (Z.log2 m) by lia.
  pose proof (Z.log2_spec m Hm) as H. unfold Z.succ in H. exact H.
Qed.

Lemma Zdigits2_ge (m n : Z) : 0 <= n -> 2 ^ n <= m -> n + 1 <= Zdigits2 m.
Proof.
  intros Hn H.
  assert (Hm : 0 < m) by (pose proof (Z.pow_pos_nonneg 2 n); lia).
  rewrite Zdigits2_log2 by exact Hm.
  assert (n <= Z.log2 m) by (apply Z.log2_le_pow2; lia). lia.
Qed.

Lemma Zdigits2_mono (a b : Z) : 0 <= a <= b -> Zdigits2 a <= Zdigits2 b.
Proof.
  intros [Ha Hab].
  destruct (Z.eq_dec a 0) as [-> | Hne]; [apply Zdigits2_nonneg |].
  rewrite !Zdigits2_log2 by lia.
  pose proof (Z.log2_le_mono a b Hab). lia.
Qed.

Lemma Zdigits2_succ (a : Z) : 0 <= a -> Zdigits2 (a + 1) <= Zdigits2 a + 1.
Proof.
  intros Ha.
  destruct (Z.eq_dec a 0) as [-> | Hne]; [simpl; lia |].
  rewrite !Zdigits2_log2 by lia.
  pose proof (Z.log2_succ_le a). unfold Z.succ in *. lia.
Qed.

Lemma Zdigits2_div_pow2 (m k : Z) :
  0 <= m -> 0 <= k -> Zdigits2 (m / 2 ^ k) = Z.max 0 (Zdigits2 m - k).
Proof.
  intros Hm Hk.
  assert (Hp : 0 < 2 ^ k) by (apply Z.pow_pos_nonneg; lia).
  destruct (Z.eq_dec m 0) as [-> | Hne].
  - rewrite Z.div_0_l by lia. simpl. lia.
  - pose proof (Zdigits2_bounds m ltac:(lia)) as [Hlo Hhi].
    pose proof (Zdigits2_nonneg m) as Hd.
    destruct (Z_lt_le_dec m (2 ^ k)) as [Hlt | Hge].
    + rewrite Z.div_small by lia. simpl.
      assert (Zdigits2 m - 1 < k).
      { apply (Z.pow_lt_mono_r_iff 2); lia. }
      lia.
    + assert (Hq : 0 < m / 2 ^ k) by (apply Z.div_str_pos; lia).
      assert (Hkd : k < Zdigits2 m).
      { apply (Z.pow_lt_mono_r_iff 2); lia. }
      apply Z.le_antisymm.
      * apply Zdigits2_le; [lia | lia |].
        replace (Z.max 0 (Zdigits2 m - k)) with (Zdigits2 m - k) by lia.
        apply Z.div_lt_upper_bound; [exact Hp |].
        rewrite <- Z.pow_add_r by lia.
        replace (k + (Zdigits2 m - k)) with (Zdigits2 m) by lia. exact Hhi.
      * replace (Z.max 0 (Zdigits2 m - k)) with ((Zdigits2 m - 1 - k) + 1) by lia.
        apply Zdigits2_ge; [lia |].
        apply Z.div_le_lower_bound; [exact Hp |].
        rewrite <- Z.pow_add_r by lia.
        replace (k + (Zdigits2 m - 1 - k)) with (Zdigits2 m - 1) by lia. exact Hlo.
Qed.

(** *** Canonical results *)

Lemma binary_round_aux_canonical (s : bool) (m e : Z) (l : location) :
  0 <= m -> e <= fexp prec emax (Zdigits2 m + e) ->
  match binary_round_aux prec emax s m e l with
  | S754_finite _ m'' e'' => e'' = fexp prec emax (Zpos (digits2_pos m'') + e'')
  | _ => True
  end.
Proof.
  intros Hm He. unfold binary_round_aux.
  destruct (shr_fexp_spec m e l Hm) as [He' Hm'].
  destruct (shr_fexp prec emax m e l) as [mrs' e'] eqn:E1.
  simpl fst in Hm'; simpl snd in He'. rewrite <- He' in Hm'.
  pose proof (round_nearest_even_bounds (shr_m mrs') (loc_of_shr_record mrs')) as Hr.
  set (m1 := round_nearest_even (shr_m mrs') (loc_of_shr_record mrs')) in *.
  assert (Hk : 0 <= e' - e) by lia.
  assert (H0 : 0 <= shr_m mrs') by (rewrite Hm'; apply Z.div_pos; [lia | apply Z.pow_pos_nonneg; lia]).
  assert (Hm1 : 0 <= m1) by lia.
  pose proof (Zdigits2_div_pow2 m (e' - e) Hm Hk) as Hd'. rewrite <- Hm' in Hd'.
  pose proof (Zdigits2_mono (shr_m mrs') m1 ltac:(lia)) as Hd1.
  pose proof (Zdigits2_succ (shr_m mrs') H0) as Hd2.
  pose proof (Zdigits2_mono m1 (shr_m mrs' + 1) ltac:(lia)) as Hd3.
  destruct (shr_fexp_spec m1 e' loc_Exact Hm1) as [He'' Hm''].
  destruct (shr_fexp prec emax m1 e' loc_Exact) as [mrs'' e''] eqn:E2.
  simpl fst in Hm''; simpl snd in He''. rewrite <- He'' in Hm''.
  assert (Hk2 : 0 <= e'' - e') by lia.
  pose proof (Zdigits2_div_pow2 m1 (e'' - e') Hm1 Hk2) as Hd''. rewrite <- Hm'' in Hd''.
  destruct (shr_m mrs'') as [| p | p] eqn:Ep; try exact I.
  destruct (e'' <=? emax - prec); [| exact I].
  change (Zdigits2 (Zpos p)) with (Zpos (digits2_pos p)) in Hd''.
  pose proof (Zdigits2_nonneg m) as Hdm.
  rewrite fexp_eq in *.
  lia.
Qed.

(** *** Upper bounds *)

(** Rounding a value that lies strictly below [C] on the grid of
    exponent [e] gives at most [C]. *)
Lemma binary_round_aux_upper (s : bool) (m e : Z) (l : location) (C : Z) :
  0 <= m -> e <= 0 -> 1 <= C < 2 ^ 52 -> m + 1 <= C * 2 ^ (- e) ->
  match binary_round_aux prec emax s m e l with
  | S754_finite _ m'' e'' => e'' <= 0 /\ Zpos m'' <= C * 2 ^ (- e'')
  | S754_zero _ => True
  | _ => False
  end.
Proof.
  intros Hm He HC Hlt. unfold binary_round_aux.
  destruct (shr_fexp_spec m e l Hm) as [He' Hm'].
  destruct (shr_fexp prec emax m e l) as [mrs' e'] eqn:E1.
  simpl fst in Hm'; simpl snd in He'. rewrite <- He' in Hm'.
  pose proof (round_nearest_even_bounds (shr_m mrs') (loc_of_shr_record mrs')) as Hr.
  set (m1 := round_nearest_even (shr_m mrs') (loc_of_shr_record mrs')) in *.
  assert (Hpe : 0 < 2 ^ (- e)) by (apply Z.pow_pos_nonneg; lia).
  assert (Hd : Zdigits2 m <= 52 - e).
  { apply Zdigits2_le; [exact Hm | lia |].
    replace (52 - e) with (52 + - e) by lia. rewrite Z.pow_add_r by lia. nia. }
  pose proof (Zdigits2_nonneg m) as Hd0.
  rewrite fexp_eq in He'.
  assert (He'0 : e' <= 0) by lia.
  assert (Hk : 0 <= e' - e) by lia.
  assert (Hpk : 0 < 2 ^ (e' - e)) by (apply Z.pow_pos_nonneg; lia).
  assert (Hpe' : 0 < 2 ^ (- e')) by (apply Z.pow_pos_nonneg; lia).
  assert (Hsplit : 2 ^ (- e) = 2 ^ (e' - e) * 2 ^ (- e')).
  { rewrite <- Z.pow_add_r by lia. f_equal. lia. }
  assert (H0 : 0 <= shr_m mrs') by (rewrite Hm'; apply Z.div_pos; lia).
  assert (Hm'lt : shr_m mrs' < C * 2 ^ (- e')).
  { rewrite Hm'. apply Z.div_lt_upper_bound; [exact Hpk |]. nia. }
  assert (Hm1 : 0 <= m1) by lia.
  assert (Hm1le : m1 <= C * 2 ^ (- e')) by lia.
  assert (Hd1 : Zdigits2 m1 <= 52 - e').
  { apply Zdigits2_le; [exact Hm1 | lia |].
    replace (52 - e') with (52 + - e') by lia. rewrite Z.pow_add_r by lia. nia. }
  pose proof (Zdigits2_nonneg m1) as Hd10.
  destruct (shr_fexp_spec m1 e' loc_Exact Hm1) as [He'' Hm''].
  destruct (shr_fexp prec emax m1 e' loc_Exact) as [mrs'' e''] eqn:E2.
  simpl fst in Hm''; simpl snd in He''. rewrite <- He'' in Hm''.
  rewrite fexp_eq in He''.
  assert (He''0 : e'' <= 0) by lia.
  assert (Hk2 : 0 <= e'' - e') by lia.
  assert (Hpk2 : 0 < 2 ^ (e'' - e')) by (apply Z.pow_pos_nonneg; lia).
  assert (Hpe'' : 0 < 2 ^ (- e'')) by (apply Z.pow_pos_nonneg; lia).
  assert (Hsplit2 : 2 ^ (- e') = 2 ^ (e'' - e') * 2 ^ (- e'')).
  { rewrite <- Z.pow_add_r by lia. f_equal. lia. }
  assert (Hm''le : shr_m mrs'' <= C * 2 ^ (- e'')).
  { rewrite Hm''. apply Z.div_le_upper_bound; [exact Hpk2 |]. nia. }
  assert (Hm''0 : 0 <= shr_m mrs'') by (rewrite Hm''; apply Z.div_pos; lia).
  destruct (shr_m mrs'') as [| p | p]; try exact I; try lia.
  replace (e'' <=? emax - prec) with true
    by (symmetry; apply Z.leb_le; unfold emax, prec; lia).
  split; assumption.
Qed.

Lemma Zdigits2_mul_pow2 (m k : Z) :
  0 < m -> 0 <= k -> Zdigits2 (m * 2 ^ k) = Zdigits2 m + k.
Proof.
  intros Hm Hk.
  pose proof (Zdigits2_bounds m Hm) as [Hlo Hhi].
  assert (Hd : 1 <= Zdigits2 m).
  { replace 1 with (0 + 1) by lia. apply Zdigits2_ge; [lia | simpl; lia]. }
  assert (Hp : 0 < 2 ^ k) by (apply Z.pow_pos_nonneg; lia).
  apply Z.le_antisymm.
  - apply Zdigits2_le; [nia | lia |].
    rewrite Z.pow_add_r by lia. nia.
  - replace (Zdigits2 m + k) with ((Zdigits2 m - 1 + k) + 1) by lia.
    apply Zdigits2_ge; [lia |].
    rewrite Z.pow_add_r by lia. nia.
Qed.

Lemma binary_round_aux_canonical_nonneg (m e : Z) (l : location) :
  0 <= m -> e <= fexp prec emax (Zdigits2 m + e) ->
  canonical_nonneg (binary_round_aux prec emax false m e l).
Proof.
  intros Hm He.
  pose proof (binary_round_aux_sign false m e l Hm) as Hs.
  pose proof (binary_round_aux_canonical false m e l Hm He) as Hc.
  destruct (binary_round_aux prec emax false m e l); simpl in *; auto.
Qed.

Lemma binary_round_canonical_nonneg (m : positive) (e : Z) :
  canonical_nonneg (binary_round prec emax false m e).
Proof.
  unfold binary_round.
  pose proof (shl_align_spec m e (fexp prec emax (Zpos (digits2_pos m) + e))) as Hs.
  destruct (shl_align m e _) as [mz ez]. destruct Hs as [Hez Hmz].
  apply binary_round_aux_canonical_nonneg; [lia |].
  rewrite Hmz, Zdigits2_mul_pow2 by lia.
  change (Zdigits2 (Zpos m)) with (Zpos (digits2_pos m)).
  replace (Zpos (digits2_pos m) + (e - ez) + ez) with (Zpos (digits2_pos m) + e) by lia.
  lia.
Qed.

Lemma nearest_canonical_nonneg (z : Z) : 0 <= z -> canonical_nonneg (nearest z).
Proof.
  intros Hz. destruct z as [| p | p]; try lia.
  - exact eq_refl.
  - apply binary_round_canonical_nonneg.
Qed.

Lemma add_canonical_nonneg (x y : float) : canonical_nonneg x -> canonical_nonneg y -> canonical_nonneg (add x y).
Proof.
  intros Hx Hy.
  destruct x as [sx | sx | | sx mx ex]; simpl in Hx; try contradiction.
  - subst sx.
    destruct y as [sy | sy | | sy my ey]; simpl in Hy; try contradiction.
    + subst sy. exact eq_refl.
    + subst sy. exact eq_refl.
    + exact Hy.
  - subst sx.
    destruct y as [sy | sy | | sy my ey]; simpl in Hy; try contradiction.
    + exact eq_refl.
    + subst sy. exact eq_refl.
    + exact eq_refl.
  - destruct Hx as [Hsx Hx]. subst sx.
    destruct y as [sy | sy | | sy my ey]; simpl in Hy; try contradiction.
    + split; [reflexivity | exact Hx].
    + subst sy. exact eq_refl.
    + destruct Hy as [Hsy Hy]. subst sy.
      unfold add, SFadd, cond_Zopp, binary_normalize.
      apply binary_round_canonical_nonneg.
Qed.

(** Product with a factor whose mantissa has at least 53 digits. *)
Lemma mul_canonical_nonneg (x : float) (my : positive) (ey : Z) :
  canonical_nonneg x -> 2 ^ 52 <= Zpos my -> canonical_nonneg (mul x (S754_finite false my ey)).
Proof.
  intros Hx Hmy.
  destruct x as [sx | sx | | sx mx ex]; simpl in Hx; try contradiction.
  - subst sx. exact eq_refl.
  - subst sx. exact eq_refl.
  - destruct Hx as [-> Hx]. unfold mul, SFmul. simpl xorb.
    apply binary_round_aux_canonical_nonneg; [lia |].
    assert (Hd : 52 + 1 <= Zdigits2 (Zpos (mx * my))).
    { apply Zdigits2_ge; [lia |]. rewrite Pos2Z.inj_mul. nia. }
    rewrite fexp_eq. lia.
Qed.

Lemma div_finite_canonical_nonneg (mx my : positive) (ex ey : Z) :
  canonical_nonneg (div (S754_finite false mx ex) (S754_finite false my ey)).
Proof.
  unfold div, SFdiv. rewrite SFdiv_core_binary_spec. simpl xorb.
  pose proof (Zdigits2_bounds (Zpos mx) ltac:(lia)) as [Hlo1 _].
  pose proof (Zdigits2_bounds (Zpos my) ltac:(lia)) as [_ Hhi2].
  pose proof (Zdigits2_nonneg (Zpos my)) as Hd2.
  assert (Hd1 : 1 <= Zdigits2 (Zpos mx)).
  { replace 1 with (0 + 1) by lia. apply Zdigits2_ge; simpl; lia. }
  remember (Zdigits2 (Zpos mx)) as d1 eqn:Ed1.
  remember (Zdigits2 (Zpos my)) as d2 eqn:Ed2.
  remember (Z.min (fexp prec emax (d1 + ex - (d2 + ey))) (ex - ey)) as e' eqn:Ee'.
  remember (ex - ey - e') as s eqn:Es.
  assert (Hs : 0 <= s) by lia.
  assert (Hps : 0 < 2 ^ s) by (apply Z.pow_pos_nonneg; lia).
  remember (Zpos mx * 2 ^ s / Zpos my) as q eqn:Eq.
  assert (Hq : 0 <= q) by (subst q; apply Z.div_pos; nia).
  apply binary_round_aux_canonical_nonneg; [exact Hq |].
  assert (Hdq : d1 + s - d2 <= Zdigits2 q).
  { pose proof (Zdigits2_nonneg q) as Hq0.
    destruct (Z_lt_le_dec (d1 - 1 + s - d2) 0) as [Hneg | Hpos]; [lia |].
    replace (d1 + s - d2) with ((d1 - 1 + s - d2) + 1) by lia.
    apply Zdigits2_ge; [exact Hpos |].
    subst q. apply Z.div_le_lower_bound; [lia |].
    apply Z.le_trans with (2 ^ d2 * 2 ^ (d1 - 1 + s - d2)).
    - apply Z.mul_le_mono_nonneg_r; [apply Z.pow_nonneg; lia | lia].
    - rewrite <- Z.pow_add_r by lia.
      replace (d2 + (d1 - 1 + s - d2)) with ((d1 - 1) + s) by lia.
      rewrite Z.pow_add_r by lia. nia. }
  rewrite fexp_eq in *. lia.
Qed.

(** *** Order of canonical numbers *)

Lemma le_canonical_refl (x : float) : canonical_nonneg x -> le_canonical x x.
Proof. destruct x; simpl; intros H; try exact I; try contradiction. lia. Qed.

Lemma le_canonical_trans (x y z : float) : le_canonical x y -> le_canonical y z -> le_canonical x z.
Proof.
  destruct x, y, z; simpl; try tauto; try lia.
Qed.

Lemma max2_spec (a b : float) :
  canonical_nonneg a -> canonical_nonneg b ->
  (max2 a b = a /\ le_canonical b a) \/ (max2 a b = b /\ le_canonical a b).
Proof.
  intros Ha Hb. unfold max2, ltb, SFltb.
  destruct a as [sa | sa | | sa ma ea]; simpl in Ha; try contradiction.
  - subst sa.
    destruct b as [sb | sb | | sb mb eb]; simpl in Hb; try contradiction.
    + subst sb. left. split; [reflexivity | exact I].
    + subst sb. right. split; [reflexivity | exact I].
    + destruct Hb as [Hsb Hb]. subst sb. right. split; [reflexivity | exact I].
  - subst sa.
    destruct b as [sb | sb | | sb mb eb]; simpl in Hb; try contradiction.
    + subst sb. left. split; [reflexivity | exact I].
    + subst sb. left. split; [reflexivity | exact I].
    + destruct Hb as [Hsb Hb]. subst sb. left. split; [reflexivity | exact I].
  - destruct Ha as [Hsa Ha]. subst sa.
    destruct b as [sb | sb | | sb mb eb]; simpl in Hb; try contradiction.
    + subst sb. left. split; [reflexivity | exact I].
    + subst sb. right. split; [reflexivity | exact I].
    + destruct Hb as [Hsb Hb]. subst sb. simpl.
      destruct (ea ?= eb) eqn:E.
      * apply Z.compare_eq in E. subst eb.
        rewrite Pos.compare_cont_spec. simpl.
        destruct (ma ?= mb)%positive eqn:Em.
        -- apply Pos.compare_eq in Em. subst. left. split; [reflexivity | lia].
        -- rewrite Pos.compare_lt_iff in Em. right. split; [reflexivity | lia].
        -- rewrite Pos.compare_gt_iff in Em. left. split; [reflexivity | lia].
      * rewrite Z.compare_lt_iff in E. right. split; [reflexivity | lia].
      * rewrite Z.compare_gt_iff in E. left. split; [reflexivity | lia].
Qed.

Lemma fold_max2_upper (l : list float) :
  Forall canonical_nonneg l ->
  forall acc, canonical_nonneg acc ->
    canonical_nonneg (fold_left max2 l acc) /\
    le_canonical acc (fold_left max2 l acc) /\
    Forall (fun x => le_canonical x (fold_left max2 l acc)) l.
Proof.
  induction 1 as [| x l Hx Hl IH]; intros acc Hacc; simpl.
  - split; [exact Hacc |]. split; [apply le_canonical_refl; exact Hacc | constructor].
  - assert (Hm : canonical_nonneg (max2 acc x) /\ le_canonical acc (max2 acc x) /\ le_canonical x (max2 acc x)).
    { destruct (max2_spec acc x Hacc Hx) as [[-> H] | [-> H]].
      - split; [exact Hacc |]. split; [apply le_canonical_refl; exact Hacc | exact H].
      - split; [exact Hx |]. split; [exact H | apply le_canonical_refl; exact Hx]. }
    destruct Hm as (Hwf & Hacc' & Hx').
    destruct (IH _ Hwf) as (H1 & H2 & H3).
    split; [exact H1 |]. split; [exact (le_canonical_trans _ _ _ Hacc' H2) |].
    constructor; [exact (le_canonical_trans _ _ _ Hx' H2) | exact H3].
Qed.

(** The maximum of canonical numbers is one of them and dominates all. *)
Lemma series_max_upper (l : list float) :
  Forall canonical_nonneg l -> l <> [] ->
  canonical_nonneg (series_max l) /\ Forall (fun x => le_canonical x (series_max l)) l.
Proof.
  intros Hl Hne. destruct l as [| x l]; [contradiction |].
  inversion Hl as [| ? ? Hx Hl']; subst.
  unfold series_max. simpl.
  assert (E : max2 S754_nan x = x) by reflexivity. rewrite E.
  destruct (fold_max2_upper l Hl' x Hx) as (H1 & H2 & H3).
  split; [exact H1 | constructor; assumption].
Qed.

(** Of two canonical numbers the smaller one has the smaller value. *)
Lemma canonical_lt_value (m M : positive) (e E : Z) :
  e = fexp prec emax (Zpos (digits2_pos m) + e) ->
  E = fexp prec emax (Zpos (digits2_pos M) + E) ->
  e < E \/ (e = E /\ Zpos m < Zpos M) ->
  e <= E /\ Zpos m < Zpos M * 2 ^ (E - e).
Proof.
  intros Hc HC [Hlt | [-> Hlt]].
  - split; [lia |].
    pose proof (Zdigits2_bounds (Zpos m) ltac:(lia)) as [_ Hhi].
    pose proof (Zdigits2_bounds (Zpos M) ltac:(lia)) as [Hlo _].
    change (Zdigits2 (Zpos m)) with (Zpos (digits2_pos m)) in Hhi.
    change (Zdigits2 (Zpos M)) with (Zpos (digits2_pos M)) in Hlo.
    rewrite fexp_eq in Hc, HC.
    assert (Hd : Zpos (digits2_pos m) <= Zpos (digits2_pos M) - 1 + (E - e)) by lia.
    eapply Z.lt_le_trans; [exact Hhi |].
    eapply Z.le_trans; [apply Z.pow_le_mono_r; [lia | exact Hd] |].
    rewrite Z.pow_add_r by lia.
    apply Z.mul_le_mono_nonneg_r; [apply Z.pow_nonneg; lia | exact Hlo].
  - split; [lia |]. rewrite Z.sub_diag. simpl. lia.
Qed.

(** *** The quotient by a larger number, times 100, rounded *)

Lemma div_smaller_le_one (m M : positive) (e E : Z) :
  e <= E -> Zpos m < Zpos M * 2 ^ (E - e) ->
  match div (S754_finite false m e) (S754_finite false M E) with
  | S754_finite _ mq eq => eq <= 0 /\ Zpos mq <= 2 ^ (- eq)
  | S754_zero _ => True
  | _ => False
  end.
Proof.
  intros He Hlt. unfold div, SFdiv. rewrite SFdiv_core_binary_spec. simpl xorb.
  remember (Z.min (fexp prec emax (Zdigits2 (Zpos m) + e - (Zdigits2 (Zpos M) + E))) (e - E))
    as e' eqn:Ee'.
  remember (e - E - e') as s eqn:Es.
  assert (Hs : 0 <= s) by lia.
  assert (Hps : 0 < 2 ^ s) by (apply Z.pow_pos_nonneg; lia).
  assert (Hpg : 0 < 2 ^ (E - e)) by (apply Z.pow_pos_nonneg; lia).
  assert (Hsplit : 2 ^ (- e') = 2 ^ (E - e) * 2 ^ s).
  { rewrite <- Z.pow_add_r by lia. f_equal. lia. }
  pose proof (binary_round_aux_upper false (Zpos m * 2 ^ s / Zpos M) e'
                (new_location (Zpos M) ((Zpos m * 2 ^ s) mod Zpos M)) 1) as H.
  rewrite Z.mul_1_l in H.
  assert (Hq : 0 <= Zpos m * 2 ^ s / Zpos M) by (apply Z.div_pos; nia).
  assert (Hqlt : Zpos m * 2 ^ s / Zpos M < 2 ^ (- e')).
  { apply Z.div_lt_upper_bound; [lia |]. rewrite Hsplit. nia. }
  specialize (H Hq ltac:(lia) ltac:(split; [lia | reflexivity]) ltac:(lia)).
  destruct (binary_round_aux _ _ _ _ _ _); try exact H.
  destruct H as [H1 H2]. split; [exact H1 |]. lia.
Qed.

(** A canonical number of value 1 is the literal [1.0]. *)
Lemma canonical_one (mq : positive) (eq : Z) :
  eq <= 0 -> Zpos mq = 2 ^ (- eq) ->
  eq = fexp prec emax (Zpos (digits2_pos mq) + eq) ->
  S754_finite false mq eq = one.
Proof.
  intros He Hm Hc.
  assert (Hd : Zdigits2 (Zpos mq) = - eq + 1).
  { apply Z.le_antisymm.
    - apply Zdigits2_le; [lia | lia |]. rewrite Hm.
      apply Z.pow_lt_mono_r; lia.
    - apply Zdigits2_ge; [lia | lia]. }
  change (Zdigits2 (Zpos mq)) with (Zpos (digits2_pos mq)) in Hd.
  rewrite fexp_eq in Hc.
  assert (eq = -52) by lia. subst eq.
  change (2 ^ (- -52)) with (Zpos 4503599627370496) in Hm.
  injection Hm as ->. reflexivity.
Qed.

Lemma mul_100_below_one (mq : positive) (eq : Z) :
  eq <= 0 -> Zpos mq + 1 <= 2 ^ (- eq) ->
  match mul (S754_finite false mq eq) f100 with
  | S754_finite _ mp ep => ep <= 0 /\ Zpos mp <= 100 * 2 ^ (- ep)
  | S754_zero _ => True
  | _ => False
  end.
Proof.
  intros He Hlt. unfold mul, f100, SFmul. simpl xorb.
  apply binary_round_aux_upper;
    [lia | lia | first [lia | split; [lia | reflexivity]] |].
  rewrite Pos2Z.inj_mul.
  replace (- (eq + -46)) with (46 + - eq) by lia.
  rewrite Z.pow_add_r by lia.
  change (2 ^ 46) with 70368744177664.
  assert (0 < 2 ^ (- eq)) by (apply Z.pow_pos_nonneg; lia).
  nia.
Qed.

Lemma rhe_div_le (n d c : Z) :
  0 < d -> 0 <= n <= c * d -> 0 <= rhe_div n d <= c.
Proof.
  intros Hd [Hn Hle]. unfold rhe_div.
  pose proof (Z.div_mod n d ltac:(lia)) as Hdm.
  pose proof (Z.mod_pos_bound n d Hd) as Hm.
  assert (Hq : 0 <= n / d) by (apply Z.div_pos; lia).
  assert (Hqc : n / d <= c) by (apply Z.div_le_upper_bound; [lia | nia]).
  destruct (2 * (n mod d) ?= d) eqn:E.
  - apply Z.compare_eq in E. destruct (Z.even (n / d)); nia.
  - lia.
  - rewrite Z.compare_gt_iff in E. nia.
Qed.

Lemma small_integers_in_range :
  forallb (fun k => leb zero (nearest (Z.of_nat k)) && leb (nearest (Z.of_nat k)) f100)
          (seq 0 101) = true.
Proof. vm_compute. reflexivity. Qed.

Lemma nearest_in_range (k : Z) :
  0 <= k <= 100 -> leb zero (nearest k) = true /\ leb (nearest k) f100 = true.
Proof.
  intros Hk. pose proof small_integers_in_range as H.
  rewrite forallb_forall in H.
  specialize (H (Z.to_nat k)). rewrite Z2Nat.id in H by lia.
  apply andb_true_iff. apply H. apply in_seq. lia.
Qed.

Lemma rint_in_range (p : float) :
  canonical_nonneg p ->
  match p with
  | S754_finite _ mp ep => ep <= 0 /\ Zpos mp <= 100 * 2 ^ (- ep)
  | S754_zero _ => True
  | _ => False
  end ->
  leb zero (rint p) = true /\ leb (rint p) f100 = true.
Proof.
  intros Hwf Hp.
  destruct p as [s | s | | s mp ep]; simpl in Hwf; try contradiction.
  - subst s. split; reflexivity.
  - destruct Hwf as [-> Hc]. destruct Hp as [He Hle]. unfold rint.
    destruct (0 <=? ep) eqn:E.
    + apply Z.leb_le in E. assert (ep = 0) by lia. subst ep. exfalso.
      rewrite fexp_eq in Hc.
      pose proof (Zdigits2_bounds (Zpos mp) ltac:(lia)) as [Hlo _].
      change (Zdigits2 (Zpos mp)) with (Zpos (digits2_pos mp)) in Hlo.
      assert (Hd : Zpos (digits2_pos mp) = 53) by lia.
      rewrite Hd in Hlo. simpl in Hle, Hlo. lia.
    + assert (Hpd : 0 < 2 ^ (- ep)) by (apply Z.pow_pos_nonneg; lia).
      pose proof (rhe_div_le (Zpos mp) (2 ^ (- ep)) 100 Hpd ltac:(lia)) as Hk.
      destruct (rhe_div (Zpos mp) (2 ^ (- ep))) as [| k | k] eqn:Ek; try lia.
      * split; reflexivity.
      * apply (nearest_in_range (Zpos k)). exact Hk.
Qed.

End PyFloatFacts.

Import PyFloatFacts.

(** ** The scoring loop *)

Lemma bind_Ok {A B : Type} (r : result A) (k : A -> result B) (b : B) :
  bind r k = Ok b -> exists a, r = Ok a /\ k a = Ok b.
Proof.
  destruct r as [a | e]; simpl; intros H.
  - exists a; split; [reflexivity | exact H].
  - discriminate H.
Qed.

(** What the loop leaves in [data] and [all_tags]: the rows appended in
    the order of the items, each by [score_item]. *)
Lemma scan_Ok (rpm : float) (items : list item) :
  forall data all_tags data' all_tags',
    scan rpm items data all_tags = Ok (data', all_tags') ->
    exists rows,
      Forall2 (fun it r => score_item rpm it = Ok r) items rows /\
      data' = data ++ rows /\
      all_tags' = all_tags ++ concat (map Tags rows).
Proof.
  induction items as [| it rest IH]; simpl; intros data all_tags data' all_tags' H.
  - injection H as <- <-. exists []. simpl.
    rewrite !app_nil_r. repeat split; constructor.
  - apply bind_Ok in H. destruct H as (r & Hr & H).
    apply IH in H. destruct H as (rows & Hrows & -> & ->).
    exists (r :: rows). simpl.
    rewrite <- !app_assoc. simpl. repeat split; try reflexivity.
    constructor; assumption.
Qed.

Lemma scan_returns (rpm : float) (items : list item) :
  Forall (fun it => returns (score_item rpm it)) items ->
  forall data all_tags, returns (scan rpm items data all_tags).
Proof.
  induction 1 as [| it rest [r Hr] _ IH]; simpl; intros data all_tags.
  - eexists; reflexivity.
  - rewrite Hr. simpl. apply IH.
Qed.

Lemma score_item_Video_ID (rpm : float) (it : item) (r : row) :
  score_item rpm it = Ok r -> Video_ID r = item_id it.
Proof.
  unfold score_item. intros H.
  apply bind_Ok in H. destruct H as (eng & _ & H).
  apply bind_Ok in H. destruct H as (rev & _ & H).
  apply bind_Ok in H. destruct H as (raw & _ & H).
  injection H as <-. reflexivity.
Qed.

Lemma normalise_rows (data : list row) : df_rows (normalise data) = data.
Proof. destruct data; reflexivity. Qed.

Lemma get_market_data_Ok (rpm : float) (items : list item)
      (df : DataFrame) (all_tags : list pystr) :
  get_market_data rpm items = Ok (df, all_tags) ->
  exists rows,
    Forall2 (fun it r => score_item rpm it = Ok r) items rows /\
    df = normalise rows /\
    all_tags = concat (map Tags rows).
Proof.
  unfold get_market_data. intros H.
  apply bind_Ok in H. destruct H as ([data tags] & Hscan & H).
  injection H as <- <-.
  apply scan_Ok in Hscan. destruct Hscan as (rows & Hrows & -> & ->).
  exists rows. simpl. auto.
Qed.

(** The normalisation and the loop keep the rows in the order of the
    items. *)
Lemma rows_follow_items (rpm : float) (items : list item)
      (df : DataFrame) (all_tags : list pystr) :
  get_market_data rpm items = Ok (df, all_tags) ->
  map Video_ID (df_rows df) = map item_id items.
Proof.
  intros H.
  apply get_market_data_Ok in H. destruct H as (rows & Hrows & -> & _).
  rewrite normalise_rows.
  induction Hrows as [| it r items rows Hr _ IH]; simpl.
  - reflexivity.
  - rewrite (score_item_Video_ID _ _ _ Hr), IH. reflexivity.
Qed.

(** ** The metrics of one row *)

Lemma score_item_fields (rpm : float) (it : item) (r : row) :
  score_item rpm it = Ok r ->
  exists engagement revenue raw_score,
    engagement_of (get_count (viewCount it)) (get_count (likeCount it))
                  (get_count (commentCount it)) = Ok engagement /\
    revenue_of rpm (get_count (viewCount it)) = Ok revenue /\
    raw_score_of (get_count (viewCount it)) (get_count (likeCount it))
                 (get_count (commentCount it)) = Ok raw_score /\
    Views r = get_count (viewCount it) /\
    Likes r = get_count (likeCount it) /\
    Comments r = get_count (commentCount it) /\
    Engagement r = round2 engagement /\
    Earnings r = round2 revenue /\
    Virality_Raw r = raw_score.
Proof.
  unfold score_item. intros H.
  apply bind_Ok in H. destruct H as (eng & Heng & H).
  apply bind_Ok in H. destruct H as (rev & Hrev & H).
  apply bind_Ok in H. destruct H as (raw & Hraw & H).
  injection H as <-. exists eng, rev, raw. simpl. repeat split; assumption.
Qed.

Lemma pow2_64_lt_1000 (z : Z) (k : Z) :
  0 <= z < 2 ^ 64 -> 0 <= k <= 128 -> 0 <= k * z < 2 ^ 1000.
Proof.
  intros Hz Hk.
  assert (H : 2 ^ 71 <= 2 ^ 1000) by (apply Z.pow_le_mono_r; lia).
  change (2 ^ 64) with 18446744073709551616 in Hz.
  change (2 ^ 71) with 2361183241434822606848 in H.
  split; [nia |]. eapply Z.lt_le_trans; [| exact H]. nia.
Qed.

Lemma engagement_of_returns (views likes comments : Z) :
  0 <= views < 2 ^ 64 -> 0 <= likes < 2 ^ 64 -> 0 <= comments < 2 ^ 64 ->
  returns (engagement_of views likes comments).
Proof.
  intros Hv Hl Hc. unfold engagement_of.
  destruct (0 <? views) eqn:E.
  - apply Z.ltb_lt in E. rewrite int_true_div_returns; [eexists; reflexivity | | exact E].
    pose proof (pow2_64_lt_1000 likes 1 Hl ltac:(lia)).
    pose proof (pow2_64_lt_1000 comments 2 Hc ltac:(lia)).
    assert (H1 : 2 ^ 66 <= 2 ^ 1000) by (apply Z.pow_le_mono_r; lia).
    change (2 ^ 64) with 18446744073709551616 in *.
    change (2 ^ 66) with 73786976294838206464 in H1.
    lia.
  - eexists; reflexivity.
Qed.

Lemma revenue_of_returns (rpm : float) (views : Z) :
  0 <= views < 2 ^ 64 -> returns (revenue_of rpm views).
Proof.
  intros Hv. unfold revenue_of.
  rewrite int_true_div_returns; [eexists; reflexivity | | lia].
  pose proof (pow2_64_lt_1000 views 1 Hv ltac:(lia)). lia.
Qed.

Lemma raw_score_of_returns (views likes comments : Z) :
  0 <= views < 2 ^ 64 -> 0 <= likes < 2 ^ 64 -> 0 <= comments < 2 ^ 64 ->
  returns (raw_score_of views likes comments).
Proof.
  intros Hv Hl Hc. unfold raw_score_of.
  pose proof (pow2_64_lt_1000 views 1 Hv ltac:(lia)) as H1.
  pose proof (pow2_64_lt_1000 likes 50 Hl ltac:(lia)) as H2.
  pose proof (pow2_64_lt_1000 comments 100 Hc ltac:(lia)) as H3.
  rewrite !of_int_returns by lia.
  eexists; reflexivity.
Qed.

(** On the statistics the provider can deliver, the loop body raises
    nothing. *)
Lemma score_item_returns (rpm : float) (it : item) :
  counts_uint64 it -> returns (score_item rpm it).
Proof.
  intros (Hv & Hl & Hc). unfold score_item.
  destruct (engagement_of_returns _ _ _ Hv Hl Hc) as [eng ->].
  destruct (revenue_of_returns rpm _ Hv) as [rev ->].
  destruct (raw_score_of_returns _ _ _ Hv Hl Hc) as [raw ->].
  eexists; reflexivity.
Qed.

Lemma get_market_data_returns (rpm : float) (items : list item) :
  Forall counts_uint64 items -> returns (get_market_data rpm items).
Proof.
  intros H. unfold get_market_data.
  destruct (scan_returns rpm items) with (data := @nil row) (all_tags := @nil pystr)
    as [scanned ->].
  - eapply Forall_impl; [| exact H]. intros it. apply score_item_returns.
  - eexists; reflexivity.
Qed.

Lemma engagement_of_nonneg (views likes comments : Z) (engagement : float) :
  0 <= likes -> 0 <= comments ->
  engagement_of views likes comments = Ok engagement ->
  has_sign false engagement.
Proof.
  intros Hl Hc. unfold engagement_of.
  destruct (0 <? views) eqn:E.
  - apply Z.ltb_lt in E. intros H.
    apply bind_Ok in H. destruct H as (q & Hq & H). injection H as <-.
    apply int_true_div_sign in Hq; [| lia | exact E].
    apply (mul_finite_sign false false). exact Hq.
  - intros H. injection H as <-. exact eq_refl.
Qed.

Lemma revenue_of_nonneg (rpm : float) (views : Z) (revenue : float)
      (m : positive) (e : Z) :
  rpm = S754_finite false m e -> 0 <= views ->
  revenue_of rpm views = Ok revenue -> has_sign false revenue.
Proof.
  intros -> Hv. unfold revenue_of. intros H.
  apply bind_Ok in H. destruct H as (q & Hq & H). injection H as <-.
  apply int_true_div_sign in Hq; [| exact Hv | lia].
  apply (mul_finite_sign false false). exact Hq.
Qed.

Lemma raw_score_of_nonneg (views likes comments : Z) (raw : float) :
  0 <= views -> 0 <= likes -> 0 <= comments ->
  raw_score_of views likes comments = Ok raw -> has_sign false raw.
Proof.
  intros Hv Hl Hc. unfold raw_score_of. intros H.
  apply bind_Ok in H. destruct H as (v & Hv' & H).
  apply bind_Ok in H. destruct H as (l & Hl' & H).
  apply bind_Ok in H. destruct H as (c & Hc' & H). injection H as <-.
  apply of_int_sign in Hv'; [| exact Hv].
  apply of_int_sign in Hl'; [| lia].
  apply of_int_sign in Hc'; [| lia].
  apply add_nonneg; [apply add_nonneg |]; try assumption.
  apply (mul_finite_sign false false). exact Hv'.
Qed.

(** Engagement and earnings of a row are never negative and never NaN. *)
Lemma engagement_and_earnings_nonneg (rpm : float) (it : item) (r : row)
      (m : positive) (e : Z) :
  rpm = S754_finite false m e -> counts_nonneg it ->
  score_item rpm it = Ok r ->
  leb zero (Engagement r) = true /\ leb zero (Earnings r) = true.
Proof.
  intros Hrpm (Hv & Hl & Hc) H.
  apply score_item_fields in H.
  destruct H as (eng & rev & raw & Heng & Hrev & _ & _ & _ & _ & -> & -> & _).
  split; apply nonneg_leb, round2_sign.
  - exact (engagement_of_nonneg _ _ _ _ Hl Hc Heng).
  - exact (revenue_of_nonneg _ _ _ _ _ Hrpm Hv Hrev).
Qed.

(** C8. On the statistics the provider can deliver [get_market_data]
    returns, and whenever it returns, the identifiers of the returned rows
    are the identifiers of the input items in the same order: nothing in
    the loop or in the normalisation reorders or re-sorts the result. *)
Theorem result_order_is_input_order :
  forall (rpm : float) (items : list item),
    (Forall counts_uint64 items -> returns (get_market_data rpm items)) /\
    (forall (df : DataFrame) (all_tags : list pystr),
        get_market_data rpm items = Ok (df, all_tags) ->
        map Video_ID (df_rows df) = map item_id items).
Proof.
  intros rpm items. split.
  - apply get_market_data_returns.
  - intros df all_tags. apply rows_follow_items.
Qed.

Lemma result_order_is_input_order_witness :
  exists df all_tags,
    get_market_data rpm_default [popular_item; niche_item] = Ok (df, all_tags) /\
    map Video_ID (df_rows df) = [lit "vid2"; lit "vid3"].
Proof.
  destruct (get_market_data rpm_default [popular_item; niche_item])
    as [[df all_tags] | e] eqn:E.
  - exists df, all_tags. split; [reflexivity |].
    exact (proj2 (result_order_is_input_order _ _) _ _ E).
  - vm_compute in E. discriminate E.
Defined.

(** ** Normalisation of the virality score *)

Lemma score_at_normalise (data : list row) (i : nat) (r : row) :
  nth_error data i = Some r ->
  score_at (normalise data) i =
    Some (virality_score (Virality_Raw r) (series_max (map Virality_Raw data))).
Proof.
  intros H. unfold score_at, normalise.
  destruct data as [| r0 rest]; [destruct i; discriminate H |].
  cbn [df_Virality_Score].
  apply (map_nth_error (fun r' => virality_score (Virality_Raw r')
                                   (series_max (map Virality_Raw (r0 :: rest))))).
  exact H.
Qed.

Lemma fold_max2_choice (l : list float) :
  forall acc, fold_left max2 l acc = acc \/ In (fold_left max2 l acc) l.
Proof.
  induction l as [| x l IH]; intros acc; simpl.
  - left; reflexivity.
  - destruct (IH (max2 acc x)) as [H | H]; [| right; right; exact H].
    rewrite H. unfold max2.
    destruct (is_nan acc); [right; left; reflexivity |].
    destruct (is_nan x); [left; reflexivity |].
    destruct (ltb acc x); [right; left; reflexivity | left; reflexivity].
Qed.

(** A maximum that is a number is the value of one of the entries. *)
Lemma series_max_In (l : list float) :
  is_nan (series_max l) = false -> In (series_max l) l.
Proof.
  intros H. unfold series_max in *.
  destruct (fold_max2_choice l S754_nan) as [E | E]; [| exact E].
  rewrite E in H. discriminate H.
Qed.

(** The score of a finite non-zero raw value that equals the maximum. *)
Lemma virality_score_of_maximum (s : bool) (m : positive) (e : Z) :
  virality_score (S754_finite s m e) (S754_finite s m e) = f100.
Proof.
  unfold virality_score. rewrite div_self. vm_compute. reflexivity.
Qed.

(** C2. With one video whose three counts are zero, the maximum raw score
    is zero; the normalisation is carried out all the same, divides zero
    by zero, and the stored score is NaN, not 0. *)
Theorem zero_maximum_is_normalised_to_nan :
  exists df all_tags,
    get_market_data rpm_default [unwatched_item] = Ok (df, all_tags) /\
    series_max (map Virality_Raw (df_rows df)) = zero /\
    score_at df 0 = Some S754_nan /\
    score_at df 0 <> Some zero.
Proof.
  eexists. eexists. split; [vm_compute; reflexivity |].
  split; [vm_compute; reflexivity |].
  split; [vm_compute; reflexivity |].
  vm_compute. discriminate.
Qed.

(** C5. With one video whose three counts are zero and the default RPM,
    the stored virality score is NaN: it is neither at least 0 nor at
    most 100.  (Engagement and earnings are never negative, and away from
    the zero maximum the score does stay between 0 and 100: see
    [engagement_and_earnings_nonneg] and
    [scores_in_range_for_nonzero_maximum].) *)
Theorem zero_maximum_score_outside_range :
  exists df all_tags v,
    get_market_data rpm_default [unwatched_item] = Ok (df, all_tags) /\
    score_at df 0 = Some v /\
    leb zero v = false /\ leb v f100 = false.
Proof.
  eexists. eexists. eexists. split; [vm_compute; reflexivity |].
  split; [vm_compute; reflexivity |].
  split; vm_compute; reflexivity.
Qed.

(** C4, as stated, fails: the only row of a one-video result whose counts
    are zero carries the maximum raw score and does not score 100. *)
Lemma maximum_does_not_always_score_100 :
  ~ (forall (rpm : float) (items : list item) (df : DataFrame)
            (all_tags : list pystr),
        items <> [] ->
        get_market_data rpm items = Ok (df, all_tags) ->
        forall (i : nat) (r : row),
          nth_error (df_rows df) i = Some r ->
          Virality_Raw r = series_max (map Virality_Raw (df_rows df)) ->
          score_at df i = Some f100).
Proof.
  intros H.
  specialize (H rpm_default [unwatched_item] _ _ ltac:(discriminate) eq_refl
                0%nat _ eq_refl eq_refl).
  vm_compute in H. discriminate H.
Qed.

(** C4, amended. In a non-empty result whose maximum raw score is finite
    and not zero, some row carries the maximum, and every row that does
    scores exactly 100. *)
Theorem maximum_scores_100 :
  forall (rpm : float) (items : list item) (df : DataFrame)
         (all_tags : list pystr),
    items <> [] ->
    get_market_data rpm items = Ok (df, all_tags) ->
    finite_nonzero (series_max (map Virality_Raw (df_rows df))) = true ->
    (exists (i : nat) (r : row),
        nth_error (df_rows df) i = Some r /\
        Virality_Raw r = series_max (map Virality_Raw (df_rows df))) /\
    (forall (i : nat) (r : row),
        nth_error (df_rows df) i = Some r ->
        Virality_Raw r = series_max (map Virality_Raw (df_rows df)) ->
        score_at df i = Some f100).
Proof.
  intros rpm items df all_tags _ H Hfin.
  apply get_market_data_Ok in H. destruct H as (rows & _ & -> & _).
  rewrite normalise_rows in *.
  destruct (series_max (map Virality_Raw rows)) as [| | | s m e] eqn:Emax;
    try discriminate Hfin.
  split.
  - assert (Hin : In (series_max (map Virality_Raw rows)) (map Virality_Raw rows))
      by (apply series_max_In; rewrite Emax; reflexivity).
    apply in_map_iff in Hin. destruct Hin as (r & Hr & Hin).
    apply In_nth_error in Hin. destruct Hin as [i Hi].
    exists i, r. split; [exact Hi | congruence].
  - intros i r Hi Hr.
    rewrite (score_at_normalise rows i r Hi), Emax, Hr.
    rewrite virality_score_of_maximum. reflexivity.
Qed.

Lemma maximum_scores_100_witness :
  exists df all_tags,
    get_market_data rpm_default [popular_item; niche_item] = Ok (df, all_tags) /\
    score_at df 1 = Some f100.
Proof.
  destruct (get_market_data rpm_default [popular_item; niche_item])
    as [[df all_tags] | e] eqn:E; [| vm_compute in E; discriminate E].
  exists df, all_tags. split; [reflexivity |].
  assert (Hne : [popular_item; niche_item] <> []) by discriminate.
  pose proof (maximum_scores_100 rpm_default _ df all_tags Hne E) as H.
  revert H. vm_compute in E. injection E as <- <-. intros H.
  destruct (H eq_refl) as [_ H1].
  refine (H1 1%nat _ eq_refl _).
  vm_compute. reflexivity.
Defined.

(** ** Range of the virality score *)

(** The score of a raw value against a finite non-zero maximum that
    dominates it lies between 0 and 100. *)
Lemma virality_score_in_range (raw mx : float) :
  canonical_nonneg raw -> canonical_nonneg mx -> finite_nonzero mx = true -> le_canonical raw mx ->
  leb zero (virality_score raw mx) = true /\
  leb (virality_score raw mx) f100 = true.
Proof.
  intros Hraw Hmx Hfin Hle.
  destruct mx as [| | | sM M E]; try discriminate Hfin.
  destruct Hmx as [-> HcM].
  destruct raw as [s | s | | s m e]; simpl in Hraw, Hle; try contradiction.
  - subst s. split; reflexivity.
  - destruct Hraw as [-> Hcm].
    destruct (Z.eq_dec e E) as [Hee | Hee];
      [destruct (Pos.eq_dec m M) as [Hmm | Hmm] |].
    + subst. rewrite virality_score_of_maximum. split; reflexivity.
    + subst E.
      assert (Hstrict : e < e \/ (e = e /\ Zpos m < Zpos M)).
      { right. split; [reflexivity |]. destruct Hle as [H | [_ H]]; [lia |].
        assert (Zpos m <> Zpos M) by (intros H'; injection H' as ->; contradiction).
        lia. }
      destruct (canonical_lt_value m M e e Hcm HcM Hstrict) as [He Hlt].
      pose proof (div_smaller_le_one m M e e He Hlt) as Hq.
      pose proof (div_finite_canonical_nonneg m M e e) as Hwq.
      unfold virality_score.
      destruct (div (S754_finite false m e) (S754_finite false M e))
        as [sq | sq | | sq mq eq]; try contradiction.
      * simpl in Hwq. subst sq. split; reflexivity.
      * destruct Hwq as [-> Hcq]. destruct Hq as [Heq Hmq].
        destruct (Z.eq_dec (Zpos mq) (2 ^ (- eq))) as [Hone | Hnot].
        -- rewrite (canonical_one mq eq Heq Hone Hcq). split; vm_compute; reflexivity.
        -- apply rint_in_range.
           ++ apply mul_canonical_nonneg; [split; [reflexivity | exact Hcq] | simpl; lia].
           ++ apply mul_100_below_one; [exact Heq | lia].
    + assert (Hstrict : e < E \/ (e = E /\ Zpos m < Zpos M)) by lia.
      destruct (canonical_lt_value m M e E Hcm HcM Hstrict) as [He Hlt].
      pose proof (div_smaller_le_one m M e E He Hlt) as Hq.
      pose proof (div_finite_canonical_nonneg m M e E) as Hwq.
      unfold virality_score.
      destruct (div (S754_finite false m e) (S754_finite false M E))
        as [sq | sq | | sq mq eq]; try contradiction.
      * simpl in Hwq. subst sq. split; reflexivity.
      * destruct Hwq as [-> Hcq]. destruct Hq as [Heq Hmq].
        destruct (Z.eq_dec (Zpos mq) (2 ^ (- eq))) as [Hone | Hnot].
        -- rewrite (canonical_one mq eq Heq Hone Hcq). split; vm_compute; reflexivity.
        -- apply rint_in_range.
           ++ apply mul_canonical_nonneg; [split; [reflexivity | exact Hcq] | simpl; lia].
           ++ apply mul_100_below_one; [exact Heq | lia].
Qed.

Lemma of_int_canonical_nonneg (z : Z) (f : float) : 0 <= z -> of_int z = Ok f -> canonical_nonneg f.
Proof.
  intros Hz. unfold of_int.
  destruct (is_inf _); [discriminate |].
  intros H. injection H as <-. apply nearest_canonical_nonneg. exact Hz.
Qed.

Lemma raw_score_of_canonical_nonneg (views likes comments : Z) (raw : float) :
  0 <= views -> 0 <= likes -> 0 <= comments ->
  raw_score_of views likes comments = Ok raw -> canonical_nonneg raw.
Proof.
  intros Hv Hl Hc. unfold raw_score_of. intros H.
  apply bind_Ok in H. destruct H as (v & Hv' & H).
  apply bind_Ok in H. destruct H as (l & Hl' & H).
  apply bind_Ok in H. destruct H as (c & Hc' & H). injection H as <-.
  apply of_int_canonical_nonneg in Hv'; [| exact Hv].
  apply of_int_canonical_nonneg in Hl'; [| lia].
  apply of_int_canonical_nonneg in Hc'; [| lia].
  apply add_canonical_nonneg; [apply add_canonical_nonneg |]; try assumption.
  apply mul_canonical_nonneg; [exact Hv' | simpl; lia].
Qed.

(** Away from the zero maximum every stored score is between 0 and 100:
    with non-negative counts and a finite non-zero maximum raw score,
    each entry of the score column is at least 0 and at most 100. *)
Lemma scores_in_range_for_nonzero_maximum
      (rpm : float) (items : list item) (df : DataFrame) (all_tags : list pystr) :
  Forall counts_nonneg items ->
  get_market_data rpm items = Ok (df, all_tags) ->
  finite_nonzero (series_max (map Virality_Raw (df_rows df))) = true ->
  forall (i : nat) (v : float),
    score_at df i = Some v ->
    leb zero v = true /\ leb v f100 = true.
Proof.
  intros Hitems H Hfin i v Hv.
  apply get_market_data_Ok in H. destruct H as (rows & Hrows & -> & _).
  rewrite normalise_rows in Hfin.
  assert (Hwf : Forall canonical_nonneg (map Virality_Raw rows)).
  { clear Hfin Hv. induction Hrows as [| it r items rows Hr _ IH]; simpl.
    - constructor.
    - inversion Hitems as [| ? ? (Hcv & Hcl & Hcc) Hitems']; subst.
      constructor; [| exact (IH Hitems')].
      apply score_item_fields in Hr.
      destruct Hr as (eng & rev & raw & _ & _ & Hraw & _ & _ & _ & _ & _ & ->).
      exact (raw_score_of_canonical_nonneg _ _ _ _ Hcv Hcl Hcc Hraw). }
  destruct rows as [| r0 rest] eqn:Erows; [discriminate Hfin |].
  rewrite <- Erows in *. clear Erows r0 rest Hrows Hitems.
  assert (Hne : map Virality_Raw rows <> []).
  { intros E. rewrite E in Hfin. discriminate Hfin. }
  destruct (series_max_upper _ Hwf Hne) as [Hmx Hall].
  unfold score_at in Hv.
  assert (Hcol : df_Virality_Score (normalise rows) =
                 Some (map (fun r => virality_score (Virality_Raw r)
                                       (series_max (map Virality_Raw rows))) rows)).
  { destruct rows; [contradiction Hne; reflexivity | reflexivity]. }
  rewrite Hcol in Hv. rewrite nth_error_map in Hv.
  destruct (nth_error rows i) as [r |] eqn:Er; [| discriminate Hv].
  injection Hv as <-.
  apply virality_score_in_range; try assumption.
  - rewrite Forall_forall in Hwf. apply Hwf. apply in_map.
    exact (nth_error_In _ _ Er).
  - rewrite Forall_forall in Hall. apply Hall. apply in_map.
    exact (nth_error_In _ _ Er).
Qed.

(** ** Engagement *)

(** C7, as stated, fails: a video with 1000 views, no likes and no
    comments has engagement 0 although its view count is not 0. *)
Lemma zero_engagement_with_views :
  ~ (forall (rpm : float) (it : item) (r : row),
        counts_nonneg it ->
        score_item rpm it = Ok r ->
        leb zero (Engagement r) = true /\
        (SFeqb (Engagement r) zero = true <-> Views r = 0)).
Proof.
  intros H.
  assert (Hc : counts_nonneg unrated_item) by (vm_compute; intuition discriminate).
  destruct (H rpm_default unrated_item _ Hc eq_refl) as [_ [Hzero _]].
  specialize (Hzero eq_refl). vm_compute in Hzero. discriminate Hzero.
Qed.

(** C7, amended. The stored engagement of a row is at least 0, and it is 0
    whenever the view count is 0, whatever the likes and comments. *)
Theorem engagement_nonneg_and_zero_without_views :
  forall (rpm : float) (it : item) (r : row),
    counts_nonneg it ->
    score_item rpm it = Ok r ->
    leb zero (Engagement r) = true /\
    (Views r = 0 -> Engagement r = zero).
Proof.
  intros rpm it r (Hv & Hl & Hc) H.
  apply score_item_fields in H.
  destruct H as (eng & rev & raw & Heng & _ & _ & -> & _ & _ & -> & _ & _).
  split.
  - apply nonneg_leb, round2_sign.
    exact (engagement_of_nonneg _ _ _ _ Hl Hc Heng).
  - intros Hz. rewrite Hz in Heng. unfold engagement_of in Heng.
    simpl in Heng. injection Heng as <-. reflexivity.
Qed.

Lemma engagement_nonneg_and_zero_without_views_witness :
  exists r : row,
    score_item rpm_default (sample_item "vid5" 0 7 2 []) = Ok r /\
    leb zero (Engagement r) = true /\ Engagement r = zero.
Proof.
  eexists. split; [reflexivity |].
  assert (Hc : counts_nonneg (sample_item "vid5" 0 7 2 []))
    by (vm_compute; intuition discriminate).
  destruct (engagement_nonneg_and_zero_without_views
              rpm_default (sample_item "vid5" 0 7 2 []) _ Hc eq_refl) as [H1 H2].
  split; [exact H1 | exact (H2 eq_refl)].
Defined.

(** ** Rounding of the stored metrics *)

(** [rhe_div n d] is an integer nearest to [n / d]. *)
Lemma rhe_div_nearest (n d : Z) :
  0 < d -> 2 * Z.abs (n - d * rhe_div n d) <= d.
Proof.
  intros Hd. unfold rhe_div.
  pose proof (Z.div_mod n d ltac:(lia)) as Hdm.
  pose proof (Z.mod_pos_bound n d Hd) as Hm.
  destruct (2 * (n mod d) ?= d) eqn:E.
  - apply Z.compare_eq in E. destruct (Z.even (n / d)); nia.
  - rewrite Z.compare_lt_iff in E. nia.
  - rewrite Z.compare_gt_iff in E. nia.
Qed.

(** [round2] of a number [m * 2^e] with a fractional part: the binary64
    quotient of an integer [k] by 100, where [k] is an integer nearest to
    one hundred times the number. *)
Lemma round2_two_decimals (s : bool) (m : positive) (e : Z) :
  e < 0 ->
  exists k : Z,
    0 <= k /\
    2 * Z.abs (100 * Zpos m - 2 ^ (- e) * k) <= 2 ^ (- e) /\
    round2 (S754_finite s m e) =
      match k with
      | Zpos p => SFdiv prec emax (S754_finite s p 0) (exact 100)
      | _ => S754_zero s
      end.
Proof.
  intros He. exists (rhe_div (100 * Zpos m) (2 ^ (- e))).
  assert (Hp : 0 < 2 ^ (- e)) by (apply Z.pow_pos_nonneg; lia).
  split; [| split].
  - unfold rhe_div.
    assert (0 <= 100 * Zpos m / 2 ^ (- e)) by (apply Z.div_pos; lia).
    destruct (_ ?= _); [destruct (Z.even _) | |]; lia.
  - apply rhe_div_nearest. exact Hp.
  - unfold round2. replace (0 <=? e) with false by (symmetry; apply Z.leb_gt; lia).
    reflexivity.
Qed.

Lemma rhe_div_tie_even (n d : Z) :
  0 < d -> 2 * Z.abs (n - d * rhe_div n d) = d -> Z.even (rhe_div n d) = true.
Proof.
  intros Hd. unfold rhe_div.
  pose proof (Z.div_mod n d ltac:(lia)) as Hdm.
  pose proof (Z.mod_pos_bound n d Hd) as Hm.
  destruct (2 * (n mod d) ?= d) eqn:E.
  - intros _. destruct (Z.even (n / d)) eqn:Ev; [exact Ev |].
    replace (n / d + 1) with (Z.succ (n / d)) by lia.
    rewrite Z.even_succ, <- Z.negb_even, Ev. reflexivity.
  - rewrite Z.compare_lt_iff in E. intros H. exfalso. nia.
  - rewrite Z.compare_gt_iff in E. intros H. exfalso. nia.
Qed.

Lemma round2_rounds_to_two_places (x : float) :
  rounded_to_two_places x (round2 x).
Proof.
  destruct x as [s | s | | s m e]; try reflexivity.
  unfold rounded_to_two_places, round2.
  destruct (0 <=? e) eqn:He; [reflexivity |].
  apply Z.leb_gt in He.
  assert (Hp : 0 < 2 ^ (- e)) by (apply Z.pow_pos_nonneg; lia).
  exists (rhe_div (100 * Zpos m) (2 ^ (- e))).
  split; [| split; [| split]].
  - unfold rhe_div.
    assert (0 <= 100 * Zpos m / 2 ^ (- e)) by (apply Z.div_pos; lia).
    destruct (_ ?= _); [destruct (Z.even _) | |]; lia.
  - apply rhe_div_nearest. exact Hp.
  - apply rhe_div_tie_even. exact Hp.
  - reflexivity.
Qed.

(** The description leaves no choice. *)
Lemma rounded_to_two_places_unique (x y y' : float) :
  rounded_to_two_places x y -> rounded_to_two_places x y' -> y = y'.
Proof.
  destruct x as [s | s | | s m e]; unfold rounded_to_two_places; try congruence.
  destruct (0 <=? e) eqn:He; [congruence |].
  apply Z.leb_gt in He.
  assert (Hp : 0 < 2 ^ (- e)) by (apply Z.pow_pos_nonneg; lia).
  intros (k & Hk & Hn & Ht & ->) (k' & Hk' & Hn' & Ht' & ->).
  assert (E : k = k'); [| rewrite E; reflexivity].
  remember (2 ^ (- e)) as d eqn:Hd. remember (100 * Zpos m) as n eqn:Hnn.
  clear Hd Hnn He.
  destruct (Z.eq_dec k k') as [E | Hne]; [exact E | exfalso].
  assert (Hcases : k' - k <= -1 \/ 1 <= k' - k) by lia.
  assert (Hprod : d * (k' - k) <= - d \/ d <= d * (k' - k)) by nia.
  assert (Hexp : d * (k' - k) = d * k' - d * k) by ring.
  assert (Hdiff : d * (k' - k) = - d \/ d * (k' - k) = d) by lia.
  assert (T : 2 * Z.abs (n - d * k) = d) by lia.
  assert (T' : 2 * Z.abs (n - d * k') = d) by lia.
  specialize (Ht T). specialize (Ht' T').
  assert (Hadj : k' = k + 1 \/ k = k' + 1) by nia.
  destruct Hadj as [-> | ->].
  - replace (k + 1) with (Z.succ k) in Ht' by lia.
    rewrite Z.even_succ, <- Z.negb_even, Ht in Ht'. discriminate Ht'.
  - replace (k' + 1) with (Z.succ k') in Ht by lia.
    rewrite Z.even_succ, <- Z.negb_even, Ht' in Ht. discriminate Ht.
Qed.

(** C10. The engagement and the earnings stored in a row are the values of
    the two formulas rounded to 2 decimal places: each stored number is
    the binary64 number nearest to [k / 100] for the integer [k] nearest
    to a hundred times the value of its formula (ties to the even [k]),
    and it is the only number of that description.  Rounding does change
    the value: for 3 views and 1 like at an RPM of 3.0 the stored numbers
    are 33.33 and 0.01, and neither is the value of its formula. *)
Theorem stored_metrics_are_rounded :
  (forall (rpm : float) (it : item) (r : row),
      score_item rpm it = Ok r ->
      exists engagement revenue : float,
        engagement_of (Views r) (Likes r) (Comments r) = Ok engagement /\
        revenue_of rpm (Views r) = Ok revenue /\
        Engagement r = round2 engagement /\
        Earnings r = round2 revenue /\
        rounded_to_two_places engagement (Engagement r) /\
        rounded_to_two_places revenue (Earnings r) /\
        (forall y, rounded_to_two_places engagement y -> y = Engagement r) /\
        (forall y, rounded_to_two_places revenue y -> y = Earnings r)) /\
  (exists (r : row) (engagement revenue : float),
      score_item rpm_default thirds_item = Ok r /\
      engagement_of (Views r) (Likes r) (Comments r) = Ok engagement /\
      revenue_of rpm_default (Views r) = Ok revenue /\
      Engagement r <> engagement /\
      Earnings r <> revenue /\
      Engagement r = div (nearest 3333) (nearest 100) /\
      Earnings r = div (nearest 1) (nearest 100)).
Proof.
  split.
  - intros rpm it r H. apply score_item_fields in H.
    destruct H as (eng & rev & raw & Heng & Hrev & _ & -> & -> & -> & -> & -> & _).
    exists eng, rev.
    split; [exact Heng |]. split; [exact Hrev |].
    split; [reflexivity |]. split; [reflexivity |].
    split; [apply round2_rounds_to_two_places |].
    split; [apply round2_rounds_to_two_places |].
    split; intros y Hy;
      [apply (rounded_to_two_places_unique eng) | apply (rounded_to_two_places_unique rev)];
      (exact Hy || apply round2_rounds_to_two_places).
  - eexists. eexists. eexists.
    split; [vm_compute; reflexivity |].
    split; [vm_compute; reflexivity |].
    split; [vm_compute; reflexivity |].
    split; [vm_compute; discriminate |].
    split; [vm_compute; discriminate |].
    split; vm_compute; reflexivity.
Qed.

Lemma stored_metrics_are_rounded_witness :
  exists (r : row) (engagement revenue : float),
    score_item rpm_default popular_item = Ok r /\
    Engagement r = round2 engagement /\ Earnings r = round2 revenue /\
    rounded_to_two_places engagement (Engagement r) /\
    rounded_to_two_places revenue (Earnings r) /\
    engagement = nearest 6 /\ revenue = nearest 3.
Proof.
  destruct (proj1 stored_metrics_are_rounded rpm_default popular_item _ eq_refl)
    as (eng & rev & Heng & Hrev & H1 & H2 & H3 & H4 & _).
  eexists. exists eng, rev. split; [reflexivity |].
  split; [exact H1 |]. split; [exact H2 |].
  split; [exact H3 |]. split; [exact H4 |].
  vm_compute in Heng, Hrev.
  injection Heng as <-. injection Hrev as <-.
  split; vm_compute; reflexivity.
Defined.

(** ** Strategy engine *)

Lemma contains_middle (before needle after : pystr) :
  contains needle (before ++ needle ++ after).
Proof. exists before, after. reflexivity. Qed.

Lemma slice_to_length (n : Z) (s : pystr) :
  0 <= n -> Z.of_nat (length (slice_to n s)) <= n.
Proof.
  intros Hn. unfold slice_to.
  replace (0 <=? n) with true by (symmetry; apply Z.leb_le; exact Hn).
  pose proof (firstn_le_length (Z.to_nat n) s). lia.
Qed.

Lemma embedded_in_prompt (head source mid context tail : pystr) :
  contains context (head ++ source ++ mid ++ context ++ tail).
Proof.
  exists (head ++ source ++ mid), tail.
  rewrite <- !app_assoc. reflexivity.
Qed.

(** The payload built by the guarded variant is never the empty string. *)
Lemma error_payload_nonempty (e : exn) : App2.error_payload e <> [].
Proof. unfold App2.error_payload. discriminate. Qed.

(** In [src/app2.py] a completion call that raises an [Exception] is
    reported as a value: the label is ["Error"] and the payload is the
    message. *)
Lemma app2_reports_completion_failure
      (P : Providers) (video_id title : pystr) (tags : list pystr) :
  (forall model prompt, exists e,
      generate_content model prompt = Raise e /\ exn_is_Exception e = true) ->
  exists payload,
    App2.ai_content_engine video_id title tags = Ok (payload, Error_label) /\
    payload <> [].
Proof.
  intros Hfail. unfold App2.ai_content_engine.
  destruct (Hfail App2.model_name
              (App2.prompt (fst (App2.fetch_context video_id title tags))
                           (snd (App2.fetch_context video_id title tags))))
    as (e & -> & ->).
  exists (App2.error_payload e). split; [reflexivity | apply error_payload_nonempty].
Qed.

(** In [src/app.py] and [src/app1.py] whatever the completion call raises
    leaves [ai_content_engine]. *)
Lemma app_propagates_completion_failure
      (P : Providers) (video_id title : pystr) (tags : list pystr) (e : exn) :
  (forall model prompt, generate_content model prompt = Raise e) ->
  App.ai_content_engine video_id title tags = Raise e /\
  App1.ai_content_engine video_id title tags = Raise e.
Proof.
  intros Hfail. unfold App.ai_content_engine, App1.ai_content_engine.
  rewrite !Hfail. split; reflexivity.
Qed.

(** C1. With a completion provider that raises an [Exception], the engine
    of [src/app.py] and of [src/app1.py] raises that exception instead of
    returning an error document; the engine of [src/app2.py], on the same
    input, returns the label ["Error"] with a non-empty message. *)
Theorem completion_failure_escapes_unguarded_engine :
  let P := exhausted_providers in
  let video_id := lit "vid2" in
  let title := lit "Weekly budget walkthrough" in
  let tags := [lit "money"; lit "budget"] in
  exn_is_Exception quota_exhausted = true /\
  App.ai_content_engine video_id title tags = Raise quota_exhausted /\
  App1.ai_content_engine video_id title tags = Raise quota_exhausted /\
  App2.ai_content_engine video_id title tags =
    Ok (warning_sign ++ lit " AI Error: 429 Resource has been exhausted",
        lit "Error").
Proof.
  intros P video_id title tags.
  split; [reflexivity |].
  split; [apply (app_propagates_completion_failure P); reflexivity |].
  split; [apply (app_propagates_completion_failure P); reflexivity |].
  vm_compute. reflexivity.
Qed.

(** C3. When the transcript provider raises, all three engines go on with
    the source label "Title & Metadata (No Captions Found)" and a context
    string that contains the title; that string is embedded in the
    prompt, and the outcome of the engine is decided by the completion
    call alone, so the fetch error never reaches the caller. *)
Theorem transcript_failure_falls_back_to_metadata :
  forall (P : Providers) (video_id title : pystr) (tags : list pystr) (e : exn),
    get_transcript video_id = Raise e ->
    exists context : pystr,
      contains title context /\
      App.fetch_context video_id title tags = (Title_and_Metadata, context) /\
      App1.fetch_context video_id title tags = (Title_and_Metadata, context) /\
      App2.fetch_context video_id title tags = (Title_and_Metadata, context) /\
      contains context (App.prompt Title_and_Metadata context) /\
      contains context (App1.prompt Title_and_Metadata context) /\
      contains context (App2.prompt Title_and_Metadata context) /\
      App.ai_content_engine video_id title tags =
        (response_text <-
           generate_content App.model_name (App.prompt Title_and_Metadata context) ;;
         Ok (response_text, Title_and_Metadata)) /\
      App1.ai_content_engine video_id title tags =
        (response_text <-
           generate_content App1.model_name (App1.prompt Title_and_Metadata context) ;;
         Ok (response_text, Title_and_Metadata)) /\
      App2.ai_content_engine video_id title tags =
        match generate_content App2.model_name
                (App2.prompt Title_and_Metadata context) with
        | Ok response_text => Ok (response_text, Title_and_Metadata)
        | Raise e' =>
            if exn_is_Exception e' then Ok (App2.error_payload e', Error_label)
            else Raise e'
        end.
Proof.
  intros P video_id title tags e Hfail.
  exists (lit "Video Title: " ++ title ++ lit ". Video Tags: " ++ format_list tags).
  split; [apply contains_middle |].
  unfold App.ai_content_engine, App1.ai_content_engine, App2.ai_content_engine,
    App.fetch_context, App1.fetch_context, App2.fetch_context.
  rewrite Hfail. cbn [fst snd].
  repeat split; try reflexivity; apply embedded_in_prompt.
Qed.

Lemma transcript_failure_falls_back_to_metadata_witness :
  exists context : pystr,
    contains (lit "Weekly budget walkthrough") context /\
    @App2.ai_content_engine captionless_providers
       (lit "vid2") (lit "Weekly budget walkthrough") [lit "money"; lit "budget"]
    = Ok (lit "### 1. The Psychology", Title_and_Metadata).
Proof.
  destruct (transcript_failure_falls_back_to_metadata captionless_providers
              (lit "vid2") (lit "Weekly budget walkthrough")
              [lit "money"; lit "budget"] no_captions eq_refl)
    as (context & Hc & _ & _ & _ & _ & _ & _ & _ & _ & H).
  exists context. split; [exact Hc |].
  rewrite H. reflexivity.
Defined.

(** C9. When the transcript provider returns segments, all three engines
    take as context the segment texts joined by single spaces in the
    returned order and cut to the cap of the variant (5000 code points in
    [src/app.py] and [src/app1.py], 8000 in [src/app2.py]); the cut is
    made before the prompt is built, the prompt handed to the completion
    provider embeds exactly that string, and its length is at most the
    cap. *)
Theorem transcript_context_is_joined_and_capped :
  forall (P : Providers) (video_id title : pystr) (tags : list pystr)
         (transcript_list : list segment),
    get_transcript video_id = Ok transcript_list ->
    let text := join (lit " ") (map seg_text transcript_list) in
    App.fetch_context video_id title tags = (Full_Transcript, slice_to 5000 text) /\
    App1.fetch_context video_id title tags = (Full_Transcript, slice_to 5000 text) /\
    App2.fetch_context video_id title tags = (Full_Transcript, slice_to 8000 text) /\
    Z.of_nat (length (snd (App.fetch_context video_id title tags))) <= 5000 /\
    Z.of_nat (length (snd (App1.fetch_context video_id title tags))) <= 5000 /\
    Z.of_nat (length (snd (App2.fetch_context video_id title tags))) <= 8000 /\
    App.ai_content_engine video_id title tags =
      (response_text <-
         generate_content App.model_name
           (App.prompt_head ++ Full_Transcript ++ App.prompt_mid ++
            slice_to 5000 text ++ App.prompt_tail) ;;
       Ok (response_text, Full_Transcript)) /\
    App1.ai_content_engine video_id title tags =
      (response_text <-
         generate_content App1.model_name
           (App1.prompt_head ++ Full_Transcript ++ App1.prompt_mid ++
            slice_to 5000 text ++ App1.prompt_tail) ;;
       Ok (response_text, Full_Transcript)) /\
    App2.ai_content_engine video_id title tags =
      match generate_content App2.model_name
              (App2.prompt_head ++ Full_Transcript ++ App2.prompt_mid ++
               slice_to 8000 text ++ App2.prompt_tail) with
      | Ok response_text => Ok (response_text, Full_Transcript)
      | Raise e' =>
          if exn_is_Exception e' then Ok (App2.error_payload e', Error_label)
          else Raise e'
      end.
Proof.
  intros P video_id title tags transcript_list Hok text.
  unfold App.ai_content_engine, App1.ai_content_engine, App2.ai_content_engine,
    App.fetch_context, App1.fetch_context, App2.fetch_context.
  rewrite Hok. cbn [fst snd]. fold text.
  repeat split; try reflexivity; apply slice_to_length; lia.
Qed.

Lemma transcript_context_is_joined_and_capped_witness :
  @App.fetch_context healthy_providers (lit "vid2")
     (lit "Weekly budget walkthrough") [lit "money"]
  = (Full_Transcript, lit "welcome back to the channel").
Proof.
  destruct (transcript_context_is_joined_and_capped healthy_providers
              (lit "vid2") (lit "Weekly budget walkthrough") [lit "money"]
              _ eq_refl) as (H & _).
  rewrite H. reflexivity.
Defined.

(** ** Tag frequencies *)

Section TagCounts.

Local Open Scope nat_scope.
(** *** First occurrences *)

Lemma first_occurrence_lt (t : pystr) (l : list pystr) :
  In t l -> first_occurrence t l < length l.
Proof.
  induction l as [| x l IH]; simpl; [contradiction |].
  intros H. destruct (str_eq_dec x t) as [E | E]; [lia |].
  destruct H as [H | H]; [contradiction |]. apply IH in H. lia.
Qed.

Lemma first_occurrence_app_in (t : pystr) (l r : list pystr) :
  In t l -> first_occurrence t (l ++ r) = first_occurrence t l.
Proof.
  induction l as [| x l IH]; simpl; [contradiction |].
  intros H. destruct (str_eq_dec x t) as [E | E]; [reflexivity |].
  destruct H as [H | H]; [contradiction |]. rewrite IH by exact H. reflexivity.
Qed.

Lemma first_occurrence_app_new (t : pystr) (l r : list pystr) :
  ~ In t l -> first_occurrence t (l ++ t :: r) = length l.
Proof.
  induction l as [| x l IH]; simpl; intros H.
  - destruct (str_eq_dec t t); [reflexivity | contradiction].
  - destruct (str_eq_dec x t) as [E | E]; [tauto |].
    rewrite IH by tauto. reflexivity.
Qed.

(** *** The counter *)

Lemma Counter_app (l : list pystr) (t : pystr) :
  Counter (l ++ [t]) = count_one t (Counter l).
Proof. unfold Counter. rewrite fold_left_app. reflexivity. Qed.

Lemma count_one_keys (t : pystr) (c : list (pystr * nat)) :
  map fst (count_one t c) =
    if in_dec str_eq_dec t (map fst c) then map fst c else map fst c ++ [t].
Proof.
  induction c as [| [k n] c IH]; simpl; [reflexivity |].
  destruct (str_eq_dec k t) as [E | E]; simpl.
  - reflexivity.
  - rewrite IH. destruct (in_dec str_eq_dec t (map fst c)); reflexivity.
Qed.

Lemma count_one_In_keys (t k : pystr) (c : list (pystr * nat)) :
  In k (map fst (count_one t c)) <-> k = t \/ In k (map fst c).
Proof.
  rewrite count_one_keys.
  destruct (in_dec str_eq_dec t (map fst c)) as [H | H].
  - split; [tauto |]. intros [-> | H']; assumption.
  - rewrite in_app_iff. simpl. split; intros; intuition congruence.
Qed.

Lemma count_one_NoDup (t : pystr) (c : list (pystr * nat)) :
  NoDup (map fst c) -> NoDup (map fst (count_one t c)).
Proof.
  intros H. rewrite count_one_keys.
  destruct (in_dec str_eq_dec t (map fst c)) as [Hin | Hin]; [exact H |].
  apply NoDup_app; [exact H | repeat constructor; simpl; tauto |].
  intros a Ha [<- | []]. contradiction.
Qed.

(** Where an entry of the updated counter comes from. *)
Lemma count_one_In (t k : pystr) (n : nat) (c : list (pystr * nat)) :
  NoDup (map fst c) ->
  In (k, n) (count_one t c) ->
  (k = t /\ ((exists n', In (t, n') c /\ n = S n') \/
             (~ In t (map fst c) /\ n = 1)))
  \/ (k <> t /\ In (k, n) c).
Proof.
  induction c as [| [k0 n0] c IH]; simpl; intros Hnd H.
  - destruct H as [H | []]. injection H as <- <-. left. split; [reflexivity |].
    right. split; [tauto | reflexivity].
  - apply NoDup_cons_iff in Hnd. destruct Hnd as [Hk0 Hnd].
    destruct (str_eq_dec k0 t) as [E | E].
    + subst k0. destruct H as [H | H].
      * injection H as <- <-. left. split; [reflexivity |].
        left. exists n0. split; [left; reflexivity | reflexivity].
      * right. split; [| right; exact H].
        intros ->. apply Hk0. apply (in_map fst) in H. exact H.
    + destruct H as [H | H].
      * injection H as <- <-. right. split; [exact E | left; reflexivity].
      * destruct (IH Hnd H) as [[-> [(n' & Hn' & ->) | [Hnot ->]]] | [Hne Hin]].
        -- left. split; [reflexivity |]. left. exists n'. split; [right; exact Hn' | reflexivity].
        -- left. split; [reflexivity |]. right. split; [| reflexivity].
           intros [H' | H']; [exact (E H') | exact (Hnot H')].
        -- right. split; [exact Hne | right; exact Hin].
Qed.

(** The keys of the counter are the distinct tags, and each count is the
    number of occurrences of its tag. *)
Lemma Counter_counts (l : list pystr) :
  NoDup (map fst (Counter l)) /\
  (forall k, In k (map fst (Counter l)) <-> In k l) /\
  (forall k n, In (k, n) (Counter l) -> n = count_occ str_eq_dec l k).
Proof.
  induction l as [| t l (Hnd & Hkeys & Hcount)] using rev_ind.
  - repeat split; simpl; try tauto. constructor.
  - rewrite Counter_app. split; [| split].
    + apply count_one_NoDup. exact Hnd.
    + intros k. rewrite count_one_In_keys, Hkeys, in_app_iff. simpl.
      split; intros; intuition congruence.
    + intros k n H. rewrite count_occ_app. simpl.
      destruct (count_one_In t k n _ Hnd H)
        as [[-> [(n' & Hn' & ->) | [Hnot ->]]] | [Hne Hin]].
      * destruct (str_eq_dec t t); [| contradiction].
        rewrite (Hcount _ _ Hn'). lia.
      * destruct (str_eq_dec t t); [| contradiction].
        rewrite Hkeys in Hnot.
        apply (count_occ_not_In str_eq_dec) in Hnot. rewrite Hnot. reflexivity.
      * destruct (str_eq_dec t k); [congruence |].
        rewrite (Hcount _ _ Hin). lia.
Qed.

(** *** Order of the entries of the counter *)

Variable all_tags : list pystr.

Lemma count_one_Forall (Q : pystr -> Prop) (t : pystr) (c : list (pystr * nat)) :
  Forall (fun y => Q (fst y)) c -> Q t ->
  Forall (fun y => Q (fst y)) (count_one t c).
Proof.
  induction 1 as [| [k n] c Hk Hc IH]; simpl; intros Ht.
  - repeat constructor. exact Ht.
  - destruct (str_eq_dec k t) as [E | E]; constructor; auto.
Qed.

Lemma count_one_earlier (t : pystr) (c : list (pystr * nat)) :
  StronglySorted (earlier all_tags) c ->
  (In t (map fst c) \/ Forall (fun y => seen all_tags y < first_occurrence t all_tags) c) ->
  StronglySorted (earlier all_tags) (count_one t c).
Proof.
  induction 1 as [| [k n] c Hc IH Hk]; simpl; intros Ht.
  - repeat constructor.
  - destruct (str_eq_dec k t) as [E | E].
    + constructor; [exact Hc | exact Hk].
    + constructor.
      * apply IH. destruct Ht as [[Ht | Ht] | Ht].
        -- contradiction.
        -- left; exact Ht.
        -- right. inversion Ht; assumption.
      * apply (count_one_Forall (fun key => first_occurrence k all_tags
                                            < first_occurrence key all_tags));
          [exact Hk |].
        destruct Ht as [[Ht | Ht] | Ht].
        -- contradiction.
        -- apply in_map_iff in Ht. destruct Ht as (y & <- & Hy).
           rewrite Forall_forall in Hk. exact (Hk y Hy).
        -- inversion Ht; assumption.
Qed.

(** The items of the counter of a prefix, in the order of first
    occurrence in the whole list. *)
Lemma Counter_earlier (l r : list pystr) :
  all_tags = l ++ r -> StronglySorted (earlier all_tags) (Counter l).
Proof.
  revert r. induction l as [| t l IH] using rev_ind; intros r E.
  - constructor.
  - rewrite Counter_app. rewrite <- app_assoc in E. simpl in E.
    apply count_one_earlier; [exact (IH _ E) |].
    destruct (Counter_counts l) as (_ & Hkeys & _).
    destruct (in_dec str_eq_dec t l) as [Hin | Hnot].
    + left. apply Hkeys. exact Hin.
    + right. apply Forall_forall. intros [k n] Hy. unfold seen. simpl.
      assert (Hk : In k l) by (apply Hkeys; apply (in_map fst) in Hy; exact Hy).
      rewrite E, first_occurrence_app_in by exact Hk.
      rewrite first_occurrence_app_new by exact Hnot.
      apply first_occurrence_lt. exact Hk.
Qed.

(** *** The stable descending sort *)

Lemma insert_desc_In (x z : pystr * nat) (l : list (pystr * nat)) :
  In z (insert_desc x l) <-> z = x \/ In z l.
Proof.
  induction l as [| y l IH]; simpl.
  - intuition congruence.
  - destruct (snd x <? snd y); simpl; [rewrite IH |]; intuition congruence.
Qed.

Lemma sorted_desc_In (z : pystr * nat) (l : list (pystr * nat)) :
  In z (sorted_desc l) <-> In z l.
Proof.
  induction l as [| x l IH]; simpl; [tauto |].
  rewrite insert_desc_In, IH. intuition congruence.
Qed.

Lemma insert_desc_ranked (x : pystr * nat) (l : list (pystr * nat)) :
  StronglySorted (ranked all_tags) l ->
  Forall (earlier all_tags x) l ->
  StronglySorted (ranked all_tags) (insert_desc x l).
Proof.
  induction 1 as [| y l Hl IH Hy]; simpl; intros Hx.
  - repeat constructor.
  - inversion Hx as [| ? ? Hxy Hxl]; subst.
    destruct (snd x <? snd y) eqn:E.
    + apply Nat.ltb_lt in E. constructor; [exact (IH Hxl) |].
      apply Forall_forall. intros z Hz. apply insert_desc_In in Hz.
      destruct Hz as [-> | Hz]; [left; exact E |].
      rewrite Forall_forall in Hy. exact (Hy z Hz).
    + apply Nat.ltb_ge in E. constructor; [constructor; assumption |].
      constructor.
      * unfold ranked, earlier in *. lia.
      * apply Forall_forall. intros z Hz.
        rewrite Forall_forall in Hy, Hxl.
        specialize (Hy z Hz). specialize (Hxl z Hz).
        unfold ranked, earlier in *. lia.
Qed.

Lemma sorted_desc_ranked (l : list (pystr * nat)) :
  StronglySorted (earlier all_tags) l -> StronglySorted (ranked all_tags) (sorted_desc l).
Proof.
  induction 1 as [| x l Hl IH Hx]; simpl; [constructor |].
  apply insert_desc_ranked; [exact IH |].
  apply Forall_forall. intros z Hz. apply (proj1 (sorted_desc_In z l)) in Hz.
  rewrite Forall_forall in Hx. exact (Hx z Hz).
Qed.

Lemma StronglySorted_firstn {A : Type} (R : A -> A -> Prop) (n : nat) (l : list A) :
  StronglySorted R l -> StronglySorted R (firstn n l).
Proof.
  intros H. revert n. induction H as [| x l Hl IH Hx]; intros [| n]; simpl;
    try constructor.
  - apply IH.
  - apply Forall_forall. intros z Hz.
    rewrite Forall_forall in Hx. apply Hx.
    rewrite <- (firstn_skipn n l). apply in_or_app. left. exact Hz.
Qed.

Lemma StronglySorted_nth_error {A : Type} (R : A -> A -> Prop) (l : list A) :
  StronglySorted R l ->
  forall i j a b, i < j ->
    nth_error l i = Some a -> nth_error l j = Some b -> R a b.
Proof.
  induction 1 as [| x l Hl IH Hx]; intros i j a b Hij Hi Hj.
  - destruct i; discriminate Hi.
  - destruct j as [| j]; [lia |]. simpl in Hj.
    destruct i as [| i]; simpl in Hi.
    + injection Hi as <-. rewrite Forall_forall in Hx.
      apply Hx. exact (nth_error_In _ _ Hj).
    + apply (IH i j); [lia | assumption | assumption].
Qed.

(** The whole ranking is ordered by count, then by first occurrence. *)
Lemma topTags_ranked (limit : nat) :
  StronglySorted (ranked all_tags) (topTags all_tags limit).
Proof.
  unfold topTags, most_common.
  apply StronglySorted_firstn, sorted_desc_ranked.
  apply (Counter_earlier all_tags []). rewrite app_nil_r. reflexivity.
Qed.

Lemma topTags_order (limit i j : nat) (a b : pystr * nat) :
  i < j ->
  nth_error (topTags all_tags limit) i = Some a ->
  nth_error (topTags all_tags limit) j = Some b ->
  snd b <= snd a /\
  (snd a = snd b ->
   first_occurrence (fst a) all_tags < first_occurrence (fst b) all_tags).
Proof.
  intros Hij Hi Hj.
  pose proof (StronglySorted_nth_error _ _ (topTags_ranked limit) i j a b Hij Hi Hj) as H.
  unfold ranked, seen in H. lia.
Qed.

End TagCounts.

(** C6. The tag table has at most [limit] entries; every entry pairs a tag
    with its number of occurrences in the flattened tag list; counts never
    increase along the table; and of two entries with the same count the
    one whose tag occurs first in the flattened list comes first. *)
Theorem topTags_length_order_and_ties :
  forall (all_tags : list pystr) (limit : nat),
    (length (topTags all_tags limit) <= limit)%nat /\
    (forall (t : pystr) (n : nat),
        In (t, n) (topTags all_tags limit) ->
        n = count_occ str_eq_dec all_tags t /\ (0 < n)%nat) /\
    (forall (i j : nat) (a b : pystr * nat),
        (i < j)%nat ->
        nth_error (topTags all_tags limit) i = Some a ->
        nth_error (topTags all_tags limit) j = Some b ->
        (snd b <= snd a)%nat /\
        (snd a = snd b ->
         (first_occurrence (fst a) all_tags < first_occurrence (fst b) all_tags)%nat)).
Proof.
  intros all_tags limit. split; [| split].
  - apply firstn_le_length.
  - intros t n H. unfold topTags, most_common in H.
    assert (Hin : In (t, n) (Counter all_tags)).
    { apply sorted_desc_In. rewrite <- (firstn_skipn limit (sorted_desc _)).
      apply in_or_app. left. exact H. }
    destruct (Counter_counts all_tags) as (_ & Hkeys & Hcount).
    split; [exact (Hcount _ _ Hin) |].
    rewrite (Hcount _ _ Hin). apply (count_occ_In str_eq_dec).
    apply Hkeys. apply (in_map fst) in Hin. exact Hin.
  - intros i j a b. apply topTags_order.
Qed.

(** * Further properties of the market scan *)

Lemma score_item_copies (rpm : float) (it : item) (r : row) :
  score_item rpm it = Ok r ->
  Video_ID r = item_id it /\
  Title r = snippet_title it /\
  Thumbnail r = thumbnail_high_url it /\
  Tags r = item_tags it /\
  Link r = lit "https://www.youtube.com/watch?v=" ++ item_id it /\
  Published r = slice_to 10 (publishedAt it).
Proof.
  unfold score_item. intros H.
  apply bind_Ok in H. destruct H as (eng & _ & H).
  apply bind_Ok in H. destruct H as (rev & _ & H).
  apply bind_Ok in H. destruct H as (raw & _ & H).
  injection H as <-. repeat split.
Qed.

Lemma Forall2_nth_error_l {A B : Type} (R : A -> B -> Prop) (l : list A) (l' : list B) :
  Forall2 R l l' ->
  forall i a, nth_error l i = Some a -> exists b, nth_error l' i = Some b /\ R a b.
Proof.
  induction 1 as [| x y l l' Hxy _ IH]; intros i a Hi.
  - destruct i; discriminate Hi.
  - destruct i as [| i]; simpl in *.
    + injection Hi as <-. exists y. split; [reflexivity | exact Hxy].
    + exact (IH i a Hi).
Qed.

Lemma Forall2_length_eq {A B : Type} (R : A -> B -> Prop) (l : list A) (l' : list B) :
  Forall2 R l l' -> length l' = length l.
Proof. induction 1; simpl; congruence. Qed.

(** X1. The tag list returned with the frame is the concatenation, in
    item order, of the tag lists of the items (an item without the key
    ['tags'] adds nothing); so its length is the sum of their lengths. *)
Theorem all_tags_is_the_flattened_tags :
  forall (rpm : float) (items : list item) (df : DataFrame) (all_tags : list pystr),
    get_market_data rpm items = Ok (df, all_tags) ->
    all_tags = concat (map item_tags items) /\
    length all_tags = list_sum (map (fun it => length (item_tags it)) items).
Proof.
  intros rpm items df all_tags H.
  apply get_market_data_Ok in H. destruct H as (rows & Hrows & _ & ->).
  assert (E : concat (map Tags rows) = concat (map item_tags items)).
  { induction Hrows as [| it r items rows Hr _ IH]; simpl; [reflexivity |].
    apply score_item_copies in Hr. destruct Hr as (_ & _ & _ & -> & _).
    rewrite IH. reflexivity. }
  rewrite E. split; [reflexivity |].
  clear. induction items as [| it items IH]; simpl; [reflexivity |].
  rewrite length_app, IH. reflexivity.
Qed.

Lemma all_tags_is_the_flattened_tags_witness :
  exists df,
    get_market_data rpm_default [popular_item; unwatched_item; niche_item]
    = Ok (df, [lit "money"; lit "budget"; lit "budget"]).
Proof.
  destruct (get_market_data rpm_default [popular_item; unwatched_item; niche_item])
    as [[df all_tags] | e] eqn:E; [| vm_compute in E; discriminate E].
  exists df.
  destruct (all_tags_is_the_flattened_tags _ _ _ _ E) as [-> _]. reflexivity.
Defined.

(** X2. Each row is built from the item at the same position: it carries
    that item's id, title, thumbnail and tags and its three counts, a
    missing count being 0; its link is the watch URL of the id, so that
    that is the prefix [https://www.youtube.com/watch?v=] followed by the
    id, so that dropping the 32 code points of the prefix gives the id
    back; and its publication date is the first ten code points of
    [publishedAt]. *)
Theorem rows_are_built_from_their_items :
  forall (rpm : float) (items : list item) (df : DataFrame) (all_tags : list pystr)
         (i : nat) (it : item),
    get_market_data rpm items = Ok (df, all_tags) ->
    nth_error items i = Some it ->
    exists r : row,
      nth_error (df_rows df) i = Some r /\
      Video_ID r = item_id it /\
      Title r = snippet_title it /\
      Thumbnail r = thumbnail_high_url it /\
      Tags r = item_tags it /\
      Views r = get_count (viewCount it) /\
      Likes r = get_count (likeCount it) /\
      Comments r = get_count (commentCount it) /\
      Link r = lit "https://www.youtube.com/watch?v=" ++ item_id it /\
      skipn 32 (Link r) = Video_ID r /\
      Published r = firstn 10 (publishedAt it).
Proof.
  intros rpm items df all_tags i it H Hi.
  apply get_market_data_Ok in H. destruct H as (rows & Hrows & -> & _).
  rewrite normalise_rows.
  destruct (Forall2_nth_error_l _ _ _ Hrows i it Hi) as (r & Hr & Hscore).
  exists r. split; [exact Hr |].
  pose proof (score_item_copies _ _ _ Hscore) as (H1 & H2 & H3 & H4 & H5 & H6).
  pose proof (score_item_fields _ _ _ Hscore)
    as (eng & rev & raw & _ & _ & _ & H7 & H8 & H9 & _).
  repeat split; try assumption.
  rewrite H5, H1. reflexivity.
Qed.

Lemma rows_are_built_from_their_items_witness :
  exists (df : DataFrame) (all_tags : list pystr) (r : row),
    get_market_data rpm_default [popular_item; niche_item] = Ok (df, all_tags) /\
    nth_error (df_rows df) 1 = Some r /\
    Video_ID r = lit "vid3" /\ Comments r = 50 /\ Published r = lit "2024-05-17".
Proof.
  destruct (get_market_data rpm_default [popular_item; niche_item])
    as [[df all_tags] | e] eqn:E; [| vm_compute in E; discriminate E].
  destruct (rows_are_built_from_their_items _ _ _ _ 1%nat niche_item E eq_refl)
    as (r & Hr & H1 & _ & _ & _ & _ & _ & H7 & _ & _ & H9).
  exists df, all_tags, r. repeat split; assumption.
Defined.

Lemma score_at_defined (rpm : float) (items : list item) (df : DataFrame)
      (all_tags : list pystr) :
  get_market_data rpm items = Ok (df, all_tags) ->
  forall i : nat, (exists v, score_at df i = Some v) <-> (i < length items)%nat.
Proof.
  intros H i.
  apply get_market_data_Ok in H. destruct H as (rows & Hrows & -> & _).
  pose proof (Forall2_length_eq _ _ _ Hrows) as Hlen.
  unfold score_at. destruct rows as [| r rows]; simpl in *.
  - destruct items; [| discriminate Hlen].
    split; [intros [v Hv]; discriminate Hv | simpl; lia].
  - rewrite <- Hlen.
    set (col := virality_score _ _ :: map _ rows).
    assert (Hcol : length col = S (length rows))
      by (unfold col; simpl; rewrite length_map; reflexivity).
    rewrite <- Hcol. split.
    + intros [v Hv]. apply nth_error_Some. congruence.
    + intros Hi. apply nth_error_Some in Hi.
      destruct (nth_error col i) as [v |]; [exists v; reflexivity | contradiction].
Qed.

(** X3. The frame has one row per item, and the score column follows the
    rows: position [i] has a score exactly when [i] is the position of an
    item.  For no items there are no rows and no score column at all. *)
Theorem one_score_per_item :
  forall (rpm : float) (items : list item) (df : DataFrame) (all_tags : list pystr),
    get_market_data rpm items = Ok (df, all_tags) ->
    length (df_rows df) = length items /\
    (df_Virality_Score df = None <-> items = []) /\
    (forall i : nat, (exists v, score_at df i = Some v) <-> (i < length items)%nat).
Proof.
  intros rpm items df all_tags H.
  pose proof (score_at_defined rpm items df all_tags H) as Hscore.
  apply get_market_data_Ok in H. destruct H as (rows & Hrows & -> & _).
  pose proof (Forall2_length_eq _ _ _ Hrows) as Hlen.
  rewrite normalise_rows. split; [exact Hlen |]. split; [| exact Hscore].
  destruct rows as [| r rows]; simpl in *.
  - destruct items; [tauto | discriminate Hlen].
  - split; [discriminate | intros ->; discriminate Hlen].
Qed.

Lemma one_score_per_item_witness :
  exists (df : DataFrame) (all_tags : list pystr),
    get_market_data rpm_default [] = Ok (df, all_tags) /\
    length (df_rows df) = 0%nat /\ df_Virality_Score df = None.
Proof.
  exists (normalise []), []. split; [reflexivity |].
  destruct (one_score_per_item rpm_default [] _ _ eq_refl) as (H1 & H2 & _).
  split; [exact H1 | apply H2; reflexivity].
Defined.

(** *** The RPM slider *)

Lemma score_item_rpm (rpm rpm' : float) (it : item) (r : row) :
  score_item rpm it = Ok r ->
  exists earnings, score_item rpm' it = Ok (with_Earnings r earnings).
Proof.
  unfold score_item. intros H.
  apply bind_Ok in H. destruct H as (eng & Heng & H).
  apply bind_Ok in H. destruct H as (rev & Hrev & H).
  apply bind_Ok in H. destruct H as (raw & Hraw & H).
  injection H as <-.
  unfold revenue_of in Hrev.
  apply bind_Ok in Hrev. destruct Hrev as (q & Hq & _).
  exists (round2 (mul q rpm')).
  rewrite Heng. simpl. unfold revenue_of. rewrite Hq. simpl. rewrite Hraw. simpl.
  reflexivity.
Qed.

(** X4. The RPM setting reaches the earnings column and nothing else: a
    scan that returns under one setting returns under any other, with the
    same tags and the same score column, and with rows that differ from
    the old ones in their earnings entry only. *)
Theorem rpm_changes_earnings_only :
  forall (rpm rpm' : float) (items : list item) (df : DataFrame)
         (all_tags : list pystr),
    get_market_data rpm items = Ok (df, all_tags) ->
    exists df' : DataFrame,
      get_market_data rpm' items = Ok (df', all_tags) /\
      df_Virality_Score df' = df_Virality_Score df /\
      Forall2 (fun r r' => r' = with_Earnings r (Earnings r'))
              (df_rows df) (df_rows df').
Proof.
  intros rpm rpm' items df all_tags H.
  apply get_market_data_Ok in H. destruct H as (rows & Hrows & -> & ->).
  assert (Hex : exists rows',
             Forall2 (fun it r => score_item rpm' it = Ok r) items rows' /\
             Forall2 (fun r r' => r' = with_Earnings r (Earnings r')) rows rows').
  { induction Hrows as [| it r items rows Hr _ (rows' & H1 & H2)].
    - exists []. split; constructor.
    - destruct (score_item_rpm rpm rpm' it r Hr) as (e & He).
      exists (with_Earnings r e :: rows'). split; constructor; auto. }
  destruct Hex as (rows' & Hscore & Hrel).
  assert (Hraw : map Virality_Raw rows' = map Virality_Raw rows).
  { clear Hscore Hrows. induction Hrel as [| r r' rows rows' Hr _ IH]; simpl.
    - reflexivity.
    - rewrite IH, Hr. reflexivity. }
  assert (Htags : concat (map Tags rows') = concat (map Tags rows)).
  { clear Hscore Hrows Hraw. induction Hrel as [| r r' rows rows' Hr _ IH]; simpl.
    - reflexivity.
    - rewrite IH, Hr. reflexivity. }
  assert (Hscan : forall data tags,
             scan rpm' items data tags = Ok (data ++ rows', tags ++ concat (map Tags rows'))).
  { clear Hrel Hraw Htags Hrows.
    induction Hscore as [| it r items rows' Hr _ IH]; intros data tags; simpl.
    - rewrite !app_nil_r. reflexivity.
    - rewrite Hr. simpl. rewrite IH, <- !app_assoc. reflexivity. }
  exists (normalise rows'). unfold get_market_data. rewrite Hscan. simpl.
  rewrite Htags. split; [reflexivity |]. rewrite !normalise_rows.
  split; [| exact Hrel].
  unfold normalise. destruct Hrel as [| r r' rows rows' Hr Hrel]; [reflexivity |].
  cbn [df_Virality_Score]. f_equal.
  change (map Virality_Raw (r' :: rows')) with (map Virality_Raw (r' :: rows')).
  rewrite Hraw.
  set (mx := series_max (map Virality_Raw (r :: rows))).
  assert (Hmap : forall l l', Forall2 (fun a b : row => b = with_Earnings a (Earnings b)) l l' ->
                 map (fun x => virality_score (Virality_Raw x) mx) l' =
                 map (fun x => virality_score (Virality_Raw x) mx) l).
  { induction 1 as [| a b l l' Hab _ IH]; simpl; [reflexivity |].
    rewrite IH, Hab. reflexivity. }
  apply (Hmap (r :: rows) (r' :: rows')). constructor; assumption.
Qed.

Lemma rpm_changes_earnings_only_witness :
  exists (df df' : DataFrame) (all_tags : list pystr),
    get_market_data rpm_default [popular_item; niche_item] = Ok (df, all_tags) /\
    get_market_data (nearest 20) [popular_item; niche_item] = Ok (df', all_tags) /\
    df_Virality_Score df' = df_Virality_Score df /\
    map Earnings (df_rows df) <> map Earnings (df_rows df').
Proof.
  destruct (get_market_data rpm_default [popular_item; niche_item])
    as [[df all_tags] | e] eqn:E; [| vm_compute in E; discriminate E].
  destruct (rpm_changes_earnings_only rpm_default (nearest 20) _ _ _ E)
    as (df' & E' & Hs & _).
  exists df, df', all_tags. split; [reflexivity |]. split; [exact E' |].
  split; [exact Hs |].
  vm_compute in E, E'. injection E as <- <-. injection E' as <-.
  vm_compute. discriminate.
Defined.

(** *** Results without any activity *)

Lemma score_item_no_activity (rpm : float) (it : item) :
  no_activity it ->
  exists r, score_item rpm it = Ok r /\ Virality_Raw r = zero.
Proof.
  intros (Hv & Hl & Hc). unfold score_item. rewrite Hv, Hl, Hc.
  eexists. split; reflexivity.
Qed.

Lemma fold_max2_zeros (l : list float) :
  Forall (fun x => x = zero) l -> fold_left max2 l zero = zero.
Proof.
  induction 1 as [| x l -> _ IH]; simpl; [reflexivity | exact IH].
Qed.

Lemma series_max_zeros (l : list float) :
  l <> [] -> Forall (fun x => x = zero) l -> series_max l = zero.
Proof.
  intros Hne H. destruct H as [| x l -> H]; [contradiction |].
  unfold series_max. simpl. apply fold_max2_zeros. exact H.
Qed.

(** X5. When no video of a non-empty result has any view, like or
    comment, the scan still returns, the maximum raw score is zero, and
    every row is given the score NaN (zero divided by zero). *)
Theorem scores_are_nan_without_activity :
  forall (rpm : float) (items : list item),
    items <> [] ->
    Forall no_activity items ->
    exists (df : DataFrame) (all_tags : list pystr),
      get_market_data rpm items = Ok (df, all_tags) /\
      series_max (map Virality_Raw (df_rows df)) = zero /\
      forall i : nat, (i < length items)%nat -> score_at df i = Some S754_nan.
Proof.
  intros rpm items Hne Hall.
  assert (Hret : returns (get_market_data rpm items)).
  { unfold get_market_data.
    destruct (scan_returns rpm items) with (data := @nil row) (all_tags := @nil pystr)
      as [scanned ->]; [| eexists; reflexivity].
    eapply Forall_impl; [| exact Hall].
    intros it Hit. destruct (score_item_no_activity rpm it Hit) as (r & -> & _).
    eexists; reflexivity. }
  destruct Hret as [[df all_tags] E]. exists df, all_tags. split; [exact E |].
  pose proof (score_at_defined _ _ _ _ E) as Hscore.
  assert (Hlen : length (df_rows df) = length items).
  { destruct (get_market_data_Ok _ _ _ _ E) as (rows0 & Hrows0 & -> & _).
    rewrite normalise_rows. exact (Forall2_length_eq _ _ _ Hrows0). }
  apply get_market_data_Ok in E. destruct E as (rows & Hrows & -> & _).
  rewrite normalise_rows in *.
  assert (Hzero : Forall (fun x => x = zero) (map Virality_Raw rows)).
  { clear Hscore Hlen Hne. induction Hrows as [| it r items rows Hr _ IH]; simpl.
    - constructor.
    - inversion Hall as [| ? ? Hit Hall']; subst.
      constructor; [| exact (IH Hall')].
      destruct (score_item_no_activity rpm it Hit) as (r' & Hr' & Hraw).
      congruence. }
  assert (Hrne : map Virality_Raw rows <> []).
  { destruct rows; [| discriminate]. destruct items; [contradiction | discriminate Hlen]. }
  pose proof (series_max_zeros _ Hrne Hzero) as Hmax.
  split; [exact Hmax |].
  intros i Hi. rewrite <- Hlen in Hi. apply nth_error_Some in Hi.
  destruct (nth_error rows i) as [r |] eqn:Er; [| contradiction].
  rewrite (score_at_normalise rows i r Er), Hmax.
  rewrite Forall_forall in Hzero.
  rewrite (Hzero (Virality_Raw r)) by (apply in_map; exact (nth_error_In _ _ Er)).
  reflexivity.
Qed.

Lemma scores_are_nan_without_activity_witness :
  exists (df : DataFrame) (all_tags : list pystr),
    get_market_data rpm_default [unwatched_item; unwatched_item] = Ok (df, all_tags) /\
    score_at df 1 = Some S754_nan.
Proof.
  assert (Hne : [unwatched_item; unwatched_item] <> []) by discriminate.
  assert (Hall : Forall no_activity [unwatched_item; unwatched_item])
    by (repeat constructor).
  destruct (scores_are_nan_without_activity rpm_default _ Hne Hall)
    as (df & all_tags & E & _ & H).
  exists df, all_tags. split; [exact E | apply H; simpl; lia].
Defined.

(** *** Scores are whole numbers *)

Lemma rint_small_integer (p : float) :
  canonical_nonneg p ->
  match p with
  | S754_finite _ mp ep => ep <= 0 /\ Zpos mp <= 100 * 2 ^ (- ep)
  | S754_zero _ => True
  | _ => False
  end ->
  exists k : Z, 0 <= k <= 100 /\ rint p = nearest k.
Proof.
  intros Hwf Hp.
  destruct p as [s | s | | s mp ep]; simpl in Hwf; try contradiction.
  - subst s. exists 0. split; [lia | reflexivity].
  - destruct Hwf as [-> Hc]. destruct Hp as [He Hle]. unfold rint.
    destruct (0 <=? ep) eqn:E.
    + apply Z.leb_le in E. assert (ep = 0) by lia. subst ep. exfalso.
      rewrite fexp_eq in Hc.
      pose proof (Zdigits2_bounds (Zpos mp) ltac:(lia)) as [Hlo _].
      change (Zdigits2 (Zpos mp)) with (Zpos (digits2_pos mp)) in Hlo.
      assert (Hd : Zpos (digits2_pos mp) = 53) by lia.
      rewrite Hd in Hlo. simpl in Hle, Hlo. lia.
    + assert (Hpd : 0 < 2 ^ (- ep)) by (apply Z.pow_pos_nonneg; lia).
      pose proof (rhe_div_le (Zpos mp) (2 ^ (- ep)) 100 Hpd ltac:(lia)) as Hk.
      destruct (rhe_div (Zpos mp) (2 ^ (- ep))) as [| k | k] eqn:Ek; try lia.
      * exists 0. split; [lia | reflexivity].
      * exists (Zpos k). split; [exact Hk | reflexivity].
Qed.

Lemma virality_score_small_integer (raw mx : float) :
  canonical_nonneg raw -> canonical_nonneg mx ->
  finite_nonzero mx = true -> le_canonical raw mx ->
  exists k : Z, 0 <= k <= 100 /\ virality_score raw mx = nearest k.
Proof.
  intros Hraw Hmx Hfin Hle.
  destruct mx as [| | | sM M E]; try discriminate Hfin.
  destruct Hmx as [-> HcM].
  destruct raw as [s | s | | s m e]; simpl in Hraw, Hle; try contradiction.
  - subst s. exists 0. split; [lia | reflexivity].
  - destruct Hraw as [-> Hcm].
    assert (Hcases : (e = E /\ m = M) \/ (e < E \/ (e = E /\ Zpos m < Zpos M))).
    { destruct Hle as [H | [H1 H2]]; [right; left; exact H |].
      destruct (Pos.eq_dec m M) as [-> | Hne]; [left; split; [exact H1 | reflexivity] |].
      right. right. split; [exact H1 |].
      assert (Zpos m <> Zpos M) by (intros H'; injection H' as ->; contradiction).
      lia. }
    destruct Hcases as [[-> ->] | Hstrict].
    + exists 100. split; [lia |]. rewrite virality_score_of_maximum. reflexivity.
    + destruct (canonical_lt_value m M e E Hcm HcM Hstrict) as [He Hlt].
      pose proof (div_smaller_le_one m M e E He Hlt) as Hq.
      pose proof (div_finite_canonical_nonneg m M e E) as Hwq.
      unfold virality_score.
      destruct (div (S754_finite false m e) (S754_finite false M E))
        as [sq | sq | | sq mq eq]; try contradiction.
      * simpl in Hwq. subst sq. exists 0. split; [lia | reflexivity].
      * destruct Hwq as [-> Hcq]. destruct Hq as [Heq Hmq].
        destruct (Z.eq_dec (Zpos mq) (2 ^ (- eq))) as [Hone | Hnot].
        -- rewrite (canonical_one mq eq Heq Hone Hcq).
           exists 100. split; [lia | vm_compute; reflexivity].
        -- apply rint_small_integer.
           ++ apply mul_canonical_nonneg; [split; [reflexivity | exact Hcq] | simpl; lia].
           ++ apply mul_100_below_one; [exact Heq | lia].
Qed.

(** The raw scores of a returned frame are canonical non-negative numbers
    and the maximum dominates each of them. *)
Lemma raw_scores_dominated (rpm : float) (items : list item) (rows : list row) :
  Forall counts_nonneg items ->
  Forall2 (fun it r => score_item rpm it = Ok r) items rows ->
  rows <> [] ->
  canonical_nonneg (series_max (map Virality_Raw rows)) /\
  forall r, In r rows ->
    canonical_nonneg (Virality_Raw r) /\
    le_canonical (Virality_Raw r) (series_max (map Virality_Raw rows)).
Proof.
  intros Hitems Hrows Hne.
  assert (Hwf : Forall canonical_nonneg (map Virality_Raw rows)).
  { clear Hne. induction Hrows as [| it r items rows Hr _ IH]; simpl.
    - constructor.
    - inversion Hitems as [| ? ? (Hcv & Hcl & Hcc) Hitems']; subst.
      constructor; [| exact (IH Hitems')].
      apply score_item_fields in Hr.
      destruct Hr as (eng & rev & raw & _ & _ & Hraw & _ & _ & _ & _ & _ & ->).
      exact (raw_score_of_canonical_nonneg _ _ _ _ Hcv Hcl Hcc Hraw). }
  assert (Hne' : map Virality_Raw rows <> []) by (destruct rows; [contradiction | discriminate]).
  destruct (series_max_upper _ Hwf Hne') as [Hmx Hall].
  split; [exact Hmx |]. intros r Hr.
  rewrite Forall_forall in Hwf, Hall.
  split; [apply Hwf | apply Hall]; apply in_map; exact Hr.
Qed.

(** X6. With non-negative counts and a maximum raw score that is finite
    and not zero, every stored virality score is one of the whole numbers
    0, 1, ..., 100 (as a binary64 value): never a fraction, never
    negative, never above 100, never NaN. *)
Theorem scores_are_whole_numbers_up_to_100 :
  forall (rpm : float) (items : list item) (df : DataFrame) (all_tags : list pystr)
         (i : nat) (v : float),
    Forall counts_nonneg items ->
    get_market_data rpm items = Ok (df, all_tags) ->
    finite_nonzero (series_max (map Virality_Raw (df_rows df))) = true ->
    score_at df i = Some v ->
    exists k : Z, 0 <= k <= 100 /\ v = nearest k.
Proof.
  intros rpm items df all_tags i v Hitems H Hfin Hv.
  apply get_market_data_Ok in H. destruct H as (rows & Hrows & -> & _).
  rewrite normalise_rows in Hfin.
  assert (Hne : rows <> []) by (intros ->; discriminate Hfin).
  destruct (raw_scores_dominated rpm items rows Hitems Hrows Hne) as [Hmx Hall].
  unfold score_at in Hv.
  assert (Hcol : df_Virality_Score (normalise rows) =
                 Some (map (fun r => virality_score (Virality_Raw r)
                                       (series_max (map Virality_Raw rows))) rows)).
  { destruct rows; [contradiction | reflexivity]. }
  rewrite Hcol, nth_error_map in Hv.
  destruct (nth_error rows i) as [r |] eqn:Er; [| discriminate Hv].
  injection Hv as <-.
  destruct (Hall r (nth_error_In _ _ Er)) as [Hr Hle].
  exact (virality_score_small_integer _ _ Hr Hmx Hfin Hle).
Qed.

Lemma scores_are_whole_numbers_up_to_100_witness :
  exists (df : DataFrame) (all_tags : list pystr) (k : Z),
    get_market_data rpm_default [popular_item; niche_item] = Ok (df, all_tags) /\
    0 <= k <= 100 /\ score_at df 0 = Some (nearest k).
Proof.
  destruct (get_market_data rpm_default [popular_item; niche_item])
    as [[df all_tags] | e] eqn:E; [| vm_compute in E; discriminate E].
  pose proof E as E'. vm_compute in E'. injection E' as Hdf _.
  assert (Hc : Forall counts_nonneg [popular_item; niche_item])
    by (repeat constructor; vm_compute; discriminate).
  assert (Hfin : finite_nonzero (series_max (map Virality_Raw (df_rows df))) = true)
    by (rewrite <- Hdf; vm_compute; reflexivity).
  assert (Hs : exists v, score_at df 0 = Some v)
    by (rewrite <- Hdf; eexists; reflexivity).
  destruct Hs as [v Hs].
  destruct (scores_are_whole_numbers_up_to_100 rpm_default _ df all_tags 0%nat v
              Hc E Hfin Hs) as (k & Hk & ->).
  exists df, all_tags, k. split; [reflexivity |]. split; [exact Hk | exact Hs].
Defined.

(** *** The lowest and the highest score *)

Lemma score_item_no_activity_raw (rpm : float) (it : item) (r : row) :
  no_activity it -> score_item rpm it = Ok r -> Virality_Raw r = zero.
Proof.
  intros Hit Hr. destruct (score_item_no_activity rpm it Hit) as (r' & Hr' & Hraw).
  congruence.
Qed.

(** X7. In a result with non-negative counts whose maximum raw score is
    finite and not zero, a video without any view, like or comment is
    given the score 0. *)
Theorem idle_video_scores_zero :
  forall (rpm : float) (items : list item) (df : DataFrame) (all_tags : list pystr)
         (i : nat) (it : item),
    Forall counts_nonneg items ->
    get_market_data rpm items = Ok (df, all_tags) ->
    finite_nonzero (series_max (map Virality_Raw (df_rows df))) = true ->
    nth_error items i = Some it ->
    no_activity it ->
    score_at df i = Some zero.
Proof.
  intros rpm items df all_tags i it Hitems H Hfin Hi Hit.
  apply get_market_data_Ok in H. destruct H as (rows & Hrows & -> & _).
  rewrite normalise_rows in Hfin.
  assert (Hne : rows <> []) by (intros ->; discriminate Hfin).
  destruct (raw_scores_dominated rpm items rows Hitems Hrows Hne) as [Hmx _].
  destruct (Forall2_nth_error_l _ _ _ Hrows i it Hi) as (r & Hr & Hscore).
  rewrite (score_at_normalise rows i r Hr).
  rewrite (score_item_no_activity_raw rpm it r Hit Hscore).
  destruct (series_max (map Virality_Raw rows)) as [| | | s m e]; try discriminate Hfin.
  destruct Hmx as [-> _]. reflexivity.
Qed.

Lemma idle_video_scores_zero_witness :
  exists (df : DataFrame) (all_tags : list pystr),
    get_market_data rpm_default [popular_item; unwatched_item] = Ok (df, all_tags) /\
    score_at df 1 = Some zero.
Proof.
  destruct (get_market_data rpm_default [popular_item; unwatched_item])
    as [[df all_tags] | e] eqn:E; [| vm_compute in E; discriminate E].
  pose proof E as E'. vm_compute in E'. injection E' as Hdf _.
  assert (Hc : Forall counts_nonneg [popular_item; unwatched_item])
    by (repeat constructor; vm_compute; discriminate).
  assert (Hfin : finite_nonzero (series_max (map Virality_Raw (df_rows df))) = true)
    by (rewrite <- Hdf; vm_compute; reflexivity).
  assert (Hidle : no_activity unwatched_item) by (repeat split).
  exists df, all_tags. split; [reflexivity |].
  exact (idle_video_scores_zero rpm_default _ df all_tags 1%nat unwatched_item
           Hc E Hfin eq_refl Hidle).
Defined.

Lemma le_canonical_leb (x y : float) :
  canonical_nonneg x -> canonical_nonneg y -> le_canonical x y -> leb x y = true.
Proof.
  intros Hx Hy Hle. unfold leb, SFleb.
  destruct x as [sx | sx | | sx mx ex]; simpl in Hx; try contradiction.
  - subst sx.
    destruct y as [sy | sy | | sy my ey]; simpl in Hy; try contradiction.
    + reflexivity.
    + subst sy. reflexivity.
    + destruct Hy as [Hsy _]. subst sy. reflexivity.
  - subst sx.
    destruct y as [sy | sy | | sy my ey]; simpl in Hy, Hle; try contradiction.
    subst sy. reflexivity.
  - destruct Hx as [Hsx _]. subst sx.
    destruct y as [sy | sy | | sy my ey]; simpl in Hy, Hle; try contradiction.
    + subst sy. reflexivity.
    + destruct Hy as [Hsy _]. subst sy. simpl.
      destruct Hle as [Hlt | [-> Hm]].
      * apply Z.compare_lt_iff in Hlt. rewrite Hlt. reflexivity.
      * rewrite Z.compare_refl, Pos.compare_cont_spec. simpl.
        destruct (mx ?= my)%positive eqn:E; try reflexivity.
        rewrite Pos.compare_gt_iff in E. lia.
Qed.

Lemma only_100_reaches_100 :
  forallb (fun k => negb (leb f100 (nearest (Z.of_nat k))) || (k =? 100)%nat)
          (seq 0 101) = true.
Proof. vm_compute. reflexivity. Qed.

Lemma series_max_of_scores (col : list float) :
  Forall (fun v => exists k, 0 <= k <= 100 /\ v = nearest k) col ->
  In f100 col ->
  series_max col = f100.
Proof.
  intros Hall Hin.
  assert (Hwf : Forall canonical_nonneg col).
  { eapply Forall_impl; [| exact Hall]. intros v (k & Hk & ->).
    apply nearest_canonical_nonneg. lia. }
  assert (Hne : col <> []) by (intros ->; contradiction).
  destruct (series_max_upper col Hwf Hne) as [Hmx Hdom].
  assert (Hmem : In (series_max col) col).
  { apply series_max_In. destruct (series_max col); simpl in Hmx; tauto || reflexivity. }
  rewrite Forall_forall in Hall, Hdom, Hwf.
  destruct (Hall _ Hmem) as (k & Hk & Ek).
  pose proof (le_canonical_leb f100 (series_max col) (Hwf _ Hin) Hmx (Hdom _ Hin)) as Hle.
  rewrite Ek in *.
  pose proof only_100_reaches_100 as H. rewrite forallb_forall in H.
  assert (Hk' : In (Z.to_nat k) (seq 0 101)) by (apply in_seq; lia).
  pose proof (H _ Hk') as Hk100. rewrite Z2Nat.id in Hk100 by lia.
  rewrite Hle in Hk100. cbn [negb orb] in Hk100.
  apply Nat.eqb_eq in Hk100. assert (k = 100) by lia. subst k. reflexivity.
Qed.

(** X8. In a result with non-negative counts whose maximum raw score is
    finite and not zero, the figure of the "Top Virality Score" tile,
    [df['Virality Score'].max()], is exactly 100. *)
Theorem top_virality_score_is_100 :
  forall (rpm : float) (items : list item) (df : DataFrame) (all_tags : list pystr),
    Forall counts_nonneg items ->
    get_market_data rpm items = Ok (df, all_tags) ->
    finite_nonzero (series_max (map Virality_Raw (df_rows df))) = true ->
    top_virality_score df = Ok (nearest 100).
Proof.
  intros rpm items df all_tags Hitems H Hfin.
  apply get_market_data_Ok in H. destruct H as (rows & Hrows & -> & _).
  rewrite normalise_rows in Hfin.
  assert (Hne : rows <> []) by (intros ->; discriminate Hfin).
  destruct (raw_scores_dominated rpm items rows Hitems Hrows Hne) as [Hmx Hall].
  unfold top_virality_score.
  assert (Hcol : df_Virality_Score (normalise rows) =
                 Some (map (fun r => virality_score (Virality_Raw r)
                                       (series_max (map Virality_Raw rows))) rows)).
  { destruct rows; [contradiction | reflexivity]. }
  rewrite Hcol. f_equal. change (nearest 100) with f100.
  apply series_max_of_scores.
  - apply Forall_forall. intros v Hv. apply in_map_iff in Hv.
    destruct Hv as (r & <- & Hr). destruct (Hall r Hr) as [Hwf Hle].
    exact (virality_score_small_integer _ _ Hwf Hmx Hfin Hle).
  - assert (Hin : In (series_max (map Virality_Raw rows)) (map Virality_Raw rows)).
    { apply series_max_In. destruct (series_max (map Virality_Raw rows));
        try discriminate Hfin; reflexivity. }
    apply in_map_iff in Hin. destruct Hin as (r & Hr & Hin).
    apply in_map_iff. exists r. split; [| exact Hin].
    rewrite Hr. destruct (series_max (map Virality_Raw rows)); try discriminate Hfin.
    apply virality_score_of_maximum.
Qed.

Lemma top_virality_score_is_100_witness :
  exists (df : DataFrame) (all_tags : list pystr),
    get_market_data rpm_default [popular_item; niche_item; unwatched_item]
    = Ok (df, all_tags) /\
    top_virality_score df = Ok (nearest 100).
Proof.
  destruct (get_market_data rpm_default [popular_item; niche_item; unwatched_item])
    as [[df all_tags] | e] eqn:E; [| vm_compute in E; discriminate E].
  pose proof E as E'. vm_compute in E'. injection E' as Hdf _.
  assert (Hc : Forall counts_nonneg [popular_item; niche_item; unwatched_item])
    by (repeat constructor; vm_compute; discriminate).
  assert (Hfin : finite_nonzero (series_max (map Virality_Raw (df_rows df))) = true)
    by (rewrite <- Hdf; vm_compute; reflexivity).
  exists df, all_tags. split; [reflexivity |].
  exact (top_virality_score_is_100 rpm_default _ df all_tags Hc E Hfin).
Defined.

(** * Further properties of the tag table *)

Lemma insert_desc_perm (x : pystr * nat) (l : list (pystr * nat)) :
  Permutation (insert_desc x l) (x :: l).
Proof.
  induction l as [| y l IH]; simpl; [reflexivity |].
  destruct (snd x <? snd y)%nat; [| reflexivity].
  rewrite IH. apply perm_swap.
Qed.

Lemma sorted_desc_perm (l : list (pystr * nat)) : Permutation (sorted_desc l) l.
Proof.
  induction l as [| x l IH]; simpl; [reflexivity |].
  rewrite insert_desc_perm, IH. reflexivity.
Qed.

Lemma firstn_NoDup {A : Type} (n : nat) (l : list A) : NoDup l -> NoDup (firstn n l).
Proof.
  intros H. rewrite <- (firstn_skipn n l) in H.
  exact (NoDup_app_remove_r _ _ H).
Qed.

Lemma ranking_names_NoDup (all_tags : list pystr) :
  NoDup (map fst (sorted_desc (Counter all_tags))).
Proof.
  destruct (Counter_counts all_tags) as (Hnd & _ & _).
  eapply Permutation_NoDup; [| exact Hnd].
  apply Permutation_map. symmetry. apply sorted_desc_perm.
Qed.

Lemma Counter_length (all_tags : list pystr) :
  length (Counter all_tags) = length (nodup str_eq_dec all_tags).
Proof.
  destruct (Counter_counts all_tags) as (Hnd & Hkeys & _).
  rewrite <- (length_map fst).
  apply Permutation_length, NoDup_Permutation.
  - exact Hnd.
  - apply NoDup_nodup.
  - intros k. rewrite Hkeys, nodup_In. reflexivity.
Qed.

Lemma topTags_names_NoDup (all_tags : list pystr) (limit : nat) :
  NoDup (map fst (topTags all_tags limit)).
Proof.
  unfold topTags, most_common.
  rewrite <- firstn_map. apply firstn_NoDup, ranking_names_NoDup.
Qed.

(** X9. No tag is listed twice in the tag table, and the table has
    [limit] entries unless there are fewer distinct tags, in which case
    every distinct tag is listed once. *)
Theorem topTags_lists_distinct_tags :
  forall (all_tags : list pystr) (limit : nat),
    NoDup (map fst (topTags all_tags limit)) /\
    length (topTags all_tags limit)
    = Nat.min limit (length (nodup str_eq_dec all_tags)).
Proof.
  intros all_tags limit. split; [apply topTags_names_NoDup |].
  unfold topTags, most_common.
  - rewrite length_firstn, (Permutation_length (sorted_desc_perm _)), Counter_length.
    reflexivity.
Qed.

Lemma StronglySorted_app_inv {A : Type} (R : A -> A -> Prop) (l1 l2 : list A) :
  StronglySorted R (l1 ++ l2) ->
  forall a b, In a l1 -> In b l2 -> R a b.
Proof.
  induction l1 as [| x l1 IH]; simpl; intros H a b Ha Hb; [contradiction |].
  apply StronglySorted_inv in H. destruct H as [Hs Hx].
  destruct Ha as [<- | Ha].
  - rewrite Forall_forall in Hx. apply Hx. apply in_or_app. right. exact Hb.
  - exact (IH Hs a b Ha Hb).
Qed.

(** X10. The table keeps the most frequent tags: a tag of the list that
    is not in the table occurs at most as often as every tag that is. *)
Theorem topTags_keeps_the_most_frequent :
  forall (all_tags : list pystr) (limit : nat) (t t' : pystr) (n' : nat),
    In t all_tags ->
    ~ In t (map fst (topTags all_tags limit)) ->
    In (t', n') (topTags all_tags limit) ->
    (count_occ str_eq_dec all_tags t <= n')%nat.
Proof.
  intros all_tags limit t t' n' Ht Hnot Hin.
  unfold topTags, most_common in *.
  destruct (Counter_counts all_tags) as (_ & Hkeys & Hcount).
  apply Hkeys in Ht. apply in_map_iff in Ht. destruct Ht as ([t0 n] & Ht0 & Hc).
  simpl in Ht0. subst t0.
  rewrite <- (Hcount _ _ Hc).
  assert (Hfull : In (t, n) (sorted_desc (Counter all_tags)))
    by (apply sorted_desc_In; exact Hc).
  rewrite <- (firstn_skipn limit (sorted_desc _)) in Hfull.
  apply in_app_or in Hfull. destruct Hfull as [Hl | Hr].
  - exfalso. apply Hnot. apply (in_map fst) in Hl. exact Hl.
  - assert (Hs : StronglySorted (ranked all_tags) (sorted_desc (Counter all_tags))).
    { apply sorted_desc_ranked.
      apply (Counter_earlier all_tags all_tags []). rewrite app_nil_r. reflexivity. }
    rewrite <- (firstn_skipn limit (sorted_desc _)) in Hs.
    pose proof (StronglySorted_app_inv _ _ _ Hs _ _ Hin Hr) as H.
    unfold ranked in H. simpl in H. lia.
Qed.

Lemma topTags_keeps_the_most_frequent_witness :
  (count_occ str_eq_dec [lit "a"; lit "b"; lit "b"; lit "c"] (lit "c") <= 2)%nat.
Proof.
  apply (topTags_keeps_the_most_frequent
           [lit "a"; lit "b"; lit "b"; lit "c"] 2 (lit "c") (lit "b") 2).
  - simpl. tauto.
  - vm_compute. intros [H | [H | []]]; discriminate H.
  - vm_compute. left. reflexivity.
Defined.

Lemma dict_set_new (k : pystr) (v : nat) (d : list (pystr * nat)) :
  ~ In k (map fst d) -> dict_set k v d = d ++ [(k, v)].
Proof.
  induction d as [| [k' v'] d IH]; simpl; intros H; [reflexivity |].
  destruct (str_eq_dec k' k) as [E | E]; [tauto |].
  rewrite IH by tauto. reflexivity.
Qed.

Lemma py_dict_distinct (pairs : list (pystr * nat)) :
  NoDup (map fst pairs) -> py_dict pairs = pairs.
Proof.
  unfold py_dict.
  assert (H : forall acc,
             NoDup (map fst (acc ++ pairs)) ->
             fold_left (fun d kv => dict_set (fst kv) (snd kv) d) pairs acc = acc ++ pairs).
  { induction pairs as [| [k v] pairs IH]; intros acc Hnd; simpl.
    - rewrite app_nil_r. reflexivity.
    - rewrite dict_set_new.
      + rewrite IH; rewrite <- app_assoc; [reflexivity | exact Hnd].
      + rewrite map_app in Hnd. simpl in Hnd.
        apply NoDup_remove_2 in Hnd. intros Hin. apply Hnd.
        apply in_or_app. left. exact Hin. }
  intros Hnd. exact (H [] Hnd).
Qed.

Lemma Counter_nonempty (all_tags : list pystr) :
  all_tags <> [] -> Counter all_tags <> [].
Proof.
  intros Hne E. destruct all_tags as [| t l]; [contradiction |].
  destruct (Counter_counts (t :: l)) as (_ & Hkeys & _).
  rewrite E in Hkeys. apply (Hkeys t). left. reflexivity.
Qed.

(** X11. The frequencies handed to the word cloud are the tag table
    itself: [dict()] merges nothing, because the names are distinct.  They
    are empty exactly when there is no tag at all, so behind the guard
    [if all_tags:] the word cloud always gets at least one word, and
    every frequency is positive. *)
Theorem cloud_frequencies_are_the_tag_table :
  forall all_tags : list pystr,
    cloud_frequencies all_tags = tag_counts all_tags /\
    (cloud_frequencies all_tags = [] <-> all_tags = []) /\
    (forall (t : pystr) (n : nat),
        In (t, n) (cloud_frequencies all_tags) -> (0 < n)%nat).
Proof.
  intros all_tags.
  assert (E : cloud_frequencies all_tags = tag_counts all_tags).
  { unfold cloud_frequencies, tag_counts. apply py_dict_distinct.
    apply topTags_names_NoDup. }
  rewrite E. split; [reflexivity |]. split.
  - split.
    + intros H. destruct all_tags as [| t l]; [reflexivity |]. exfalso.
      assert (Hlen : length (tag_counts (t :: l)) = 0%nat) by (rewrite H; reflexivity).
      unfold tag_counts, topTags, most_common in Hlen.
      rewrite length_firstn, (Permutation_length (sorted_desc_perm _)) in Hlen.
      pose proof (Counter_nonempty (t :: l) ltac:(discriminate)) as Hne.
      destruct (Counter (t :: l)); [contradiction | simpl in Hlen; lia].
    + intros ->. reflexivity.
  - intros t n H. unfold tag_counts, topTags, most_common in H.
    assert (Hin : In (t, n) (Counter all_tags)).
    { apply sorted_desc_In. rewrite <- (firstn_skipn 30 (sorted_desc _)).
      apply in_or_app. left. exact H. }
    destruct (Counter_counts all_tags) as (_ & Hkeys & Hcount).
    rewrite (Hcount _ _ Hin). apply (count_occ_In str_eq_dec).
    apply Hkeys. apply (in_map fst) in Hin. exact Hin.
Qed.


(** * The video selector *)

Lemma filter_first {A : Type} (f : A -> bool) (l : list A) (k : nat) (a : A) :
  nth_error l k = Some a -> f a = true ->
  exists (j : nat) (b : A) (rest : list A),
    (j <= k)%nat /\
    filter f l = b :: rest /\
    nth_error l j = Some b /\
    f b = true /\
    (forall i c, (i < j)%nat -> nth_error l i = Some c -> f c = false).
Proof.
  revert k. induction l as [| x l IH]; intros k Hk Ha.
  - destruct k; discriminate Hk.
  - simpl. destruct (f x) eqn:Ex.
    + exists 0%nat, x, (filter f l). repeat split; try lia. exact Ex.
    + destruct k as [| k]; simpl in Hk.
      * injection Hk as ->. congruence.
      * destruct (IH k Hk Ha) as (j & b & rest & Hjk & Hf & Hj & Hb & Hbefore).
        exists (S j), b, rest. repeat split; try assumption; try lia.
        intros i c Hi Hc. destruct i as [| i]; simpl in Hc.
        -- injection Hc as <-. exact Ex.
        -- apply (Hbefore i c); [lia | exact Hc].
Qed.

Lemma NoDup_nth_error_eq {A : Type} (l : list A) (i j : nat) (a : A) :
  NoDup l -> nth_error l i = Some a -> nth_error l j = Some a -> i = j.
Proof.
  intros Hnd Hi Hj. apply (proj1 (NoDup_nth_error l) Hnd).
  - apply nth_error_Some. congruence.
  - congruence.
Qed.

(** X12. Choosing the [k]-th entry of the video selector never fails, and
    the row that is then shown has the chosen title and is the first row
    of the frame with that title: it is the row at position [k] when the
    titles are distinct, and an earlier row when the same title occurs
    before position [k]. *)
Theorem selected_row_is_first_with_title :
  forall (df : DataFrame) (options : list pystr) (k : nat) (title : pystr),
    video_list df = Ok options ->
    nth_error options k = Some title ->
    exists (j : nat) (r : row),
      selected_row df title = Ok r /\
      nth_error (df_rows df) j = Some r /\
      Title r = title /\
      (j <= k)%nat /\
      (forall (i : nat) (r' : row),
          (i < j)%nat -> nth_error (df_rows df) i = Some r' -> Title r' <> title) /\
      (NoDup options -> j = k).
Proof.
  intros df options k title Hlist Hk.
  unfold video_list, selected_row in *.
  destruct (df_rows df) as [| r0 rows0] eqn:Erows; [discriminate Hlist |].
  injection Hlist as <-.
  set (rows := r0 :: rows0) in *.
  change (nth_error (map Title rows) k = Some title) in Hk.
  rewrite nth_error_map in Hk.
  destruct (nth_error rows k) as [rk |] eqn:Erk; [| discriminate Hk].
  injection Hk as Hk.
  set (f := fun r => if str_eq_dec (Title r) title then true else false).
  assert (Hfk : f rk = true) by (unfold f; destruct (str_eq_dec (Title rk) title); tauto).
  destruct (filter_first f rows k rk Erk Hfk) as (j & b & rest & Hjk & Hf & Hj & Hb & Hbefore).
  exists j, b. fold f. rewrite Hf.
  assert (Hbt : Title b = title)
    by (unfold f in Hb; destruct (str_eq_dec (Title b) title); [assumption | discriminate]).
  repeat split; try assumption.
  - intros i r' Hi Hr' Ht. specialize (Hbefore i r' Hi Hr').
    unfold f in Hbefore. destruct (str_eq_dec (Title r') title); [discriminate | contradiction].
  - intros Hnd. apply (NoDup_nth_error_eq (map Title rows) j k title Hnd).
    + rewrite nth_error_map, Hj. simpl. congruence.
    + rewrite nth_error_map, Erk. simpl. congruence.
Qed.

Lemma selected_row_is_first_with_title_witness :
  exists (df : DataFrame) (all_tags : list pystr) (r : row),
    get_market_data rpm_default [popular_item; niche_item] = Ok (df, all_tags) /\
    selected_row df (lit "Weekly budget walkthrough") = Ok r /\
    Video_ID r = lit "vid2".
Proof.
  destruct (get_market_data rpm_default [popular_item; niche_item])
    as [[df all_tags] | e] eqn:E; [| vm_compute in E; discriminate E].
  pose proof E as E'. vm_compute in E'. injection E' as Hdf _.
  assert (Hlist : video_list df = Ok [lit "Weekly budget walkthrough";
                                      lit "Weekly budget walkthrough"])
    by (rewrite <- Hdf; reflexivity).
  destruct (selected_row_is_first_with_title df _ 1%nat _ Hlist eq_refl)
    as (j & r & Hsel & Hj & _ & Hjk & Hbefore & _).
  exists df, all_tags, r. split; [reflexivity |]. split; [exact Hsel |].
  rewrite <- Hdf in Hj, Hbefore.
  destruct j as [| [| j]]; [| | lia].
  - simpl in Hj. injection Hj as <-. reflexivity.
  - exfalso. eapply (Hbefore 0%nat); [lia | reflexivity | reflexivity].
Defined.

(** * The strategy dialogs *)

Lemma success_labels_are_not_Error :
  Full_Transcript <> lit "Error" /\ Title_and_Metadata <> lit "Error".
Proof. split; intros H; vm_compute in H; discriminate H. Qed.

Lemma fetch_context_label_app2
      (P : Providers) (video_id title : pystr) (tags : list pystr) :
  fst (App2.fetch_context video_id title tags) <> lit "Error".
Proof.
  unfold App2.fetch_context.
  destruct (get_transcript video_id); cbn [fst]; apply success_labels_are_not_Error.
Qed.

(** X13. The dialog of [src/app2.py] shows an error box exactly when the
    completion call raised an [Exception], and then the box holds the
    text "AI Error: ..." with the message of the exception and the dialog
    ends normally; it shows a success box exactly when the call returned,
    and then the returned text is shown as markdown.  The dialog is left
    by an exception only when the completion call raised something that
    is not an [Exception]. *)
Theorem app2_dialog_shows_error_or_analysis :
  forall (P : Providers) (video_id title : pystr) (tags : list pystr),
    let context := App2.fetch_context video_id title tags in
    let completion :=
      generate_content App2.model_name (App2.prompt (fst context) (snd context)) in
    let r := App2.show_ai_modal video_id title tags in
    ((exists m, In (st_error m) (shown r)) <->
     (exists e, completion = Raise e /\ exn_is_Exception e = true)) /\
    ((exists m, In (st_success m) (shown r)) <->
     (exists text, completion = Ok text)) /\
    (forall text, completion = Ok text ->
       In (st_success (lit "Analysis Generated from " ++ fst context)) (shown r) /\
       In (st_markdown text) (shown r) /\ raised r = None) /\
    (forall e, completion = Raise e -> exn_is_Exception e = true ->
       In (st_error (warning_sign ++ lit " AI Error: " ++ exn_str e)) (shown r) /\
       raised r = None) /\
    (forall e, raised r = Some e <->
       completion = Raise e /\ exn_is_Exception e = false).
Proof.
  intros P video_id title tags context completion r.
  pose proof (fetch_context_label_app2 P video_id title tags) as Hlabel.
  fold context in Hlabel.
  unfold r, App2.show_ai_modal, App2.ai_content_engine.
  fold context. fold completion.
  destruct completion as [text | e].
  - destruct (str_eq_dec (fst context) (lit "Error")) as [Heq | _];
      [contradiction |].
    cbn [shown raised].
    split; [| split; [| split; [| split]]].
    + split.
      * intros (m & Hm). simpl in Hm.
        repeat (destruct Hm as [Hm | Hm]; [discriminate Hm |]). contradiction.
      * intros (e & He & _). discriminate He.
    + split.
      * intros _. exists text. reflexivity.
      * intros _. eexists. simpl. right. right. left. reflexivity.
    + intros text' Ht. injection Ht as <-. repeat split; simpl; auto 10.
    + intros e He. discriminate He.
    + intros e. split; [intros He; discriminate He | intros (He & _); discriminate He].
  - destruct (exn_is_Exception e) eqn:Hexc.
    + destruct (str_eq_dec Error_label (lit "Error")) as [_ | Hne];
        [| exfalso; apply Hne; reflexivity].
      cbn [shown raised].
      split; [| split; [| split; [| split]]].
      * split.
        -- intros _. exists e. split; [reflexivity | exact Hexc].
        -- intros _. eexists. simpl. right. right. left. reflexivity.
      * split.
        -- intros (m & Hm). simpl in Hm.
           repeat (destruct Hm as [Hm | Hm]; [discriminate Hm |]). contradiction.
        -- intros (text & Ht). discriminate Ht.
      * intros text Ht. discriminate Ht.
      * intros e' He' _. injection He' as <-. split; [| reflexivity].
        simpl. right. right. left. reflexivity.
      * intros e'. split; [intros He'; discriminate He' |].
        intros (He' & Hno). injection He' as <-. congruence.
    + cbn [shown raised].
      split; [| split; [| split; [| split]]].
      * split.
        -- intros (m & Hm). simpl in Hm.
           repeat (destruct Hm as [Hm | Hm]; [discriminate Hm |]). contradiction.
        -- intros (e' & He' & Hyes). injection He' as <-. congruence.
      * split.
        -- intros (m & Hm). simpl in Hm.
           repeat (destruct Hm as [Hm | Hm]; [discriminate Hm |]). contradiction.
        -- intros (text & Ht). discriminate Ht.
      * intros text Ht. discriminate Ht.
      * intros e' He' Hyes. injection He' as <-. congruence.
      * intros e'. split.
        -- intros He'. injection He' as <-. split; [reflexivity | exact Hexc].
        -- intros (He' & _). injection He' as <-. reflexivity.
Qed.

(** X14. The dialog of [src/app1.py] never shows an error box.  It is
    left by an exception exactly when the completion call raised one (of
    any class), and then only the caption and the spinner have been
    shown; when the call returned, the success box names the source of
    the context and the returned text is shown as markdown. *)
Theorem app1_dialog_stops_at_completion_failure :
  forall (P : Providers) (video_id title : pystr) (tags : list pystr),
    let context := App1.fetch_context video_id title tags in
    let completion :=
      generate_content App1.model_name (App1.prompt (fst context) (snd context)) in
    let r := App1.show_ai_modal video_id title tags in
    (forall m, ~ In (st_error m) (shown r)) /\
    (forall e, raised r = Some e <-> completion = Raise e) /\
    (forall e, completion = Raise e ->
       shown r =
         [ st_caption (lit "Analyzing Strategy for: " ++ title);
           st_spinner (brain ++
             lit " Reading transcript, analyzing psychology, and writing script...") ]) /\
    (forall text, completion = Ok text ->
       In (st_success (lit "Analysis Complete! (Source: " ++ fst context ++ lit ")"))
          (shown r) /\
       In (st_markdown text) (shown r) /\ raised r = None).
Proof.
  intros P video_id title tags context completion r.
  unfold r, App1.show_ai_modal, App1.ai_content_engine.
  fold context. fold completion.
  destruct completion as [text | e]; cbn [bind shown raised].
  - split; [| split; [| split]].
    + intros m Hm. simpl in Hm.
      repeat (destruct Hm as [Hm | Hm]; [discriminate Hm |]). contradiction.
    + intros e. split; intros He; discriminate He.
    + intros e He. discriminate He.
    + intros text' Ht. injection Ht as <-. repeat split; simpl; auto 10.
  - split; [| split; [| split]].
    + intros m Hm. simpl in Hm.
      repeat (destruct Hm as [Hm | Hm]; [discriminate Hm |]). contradiction.
    + intros e'. split; intros He'; injection He' as <-; reflexivity.
    + intros e' _. reflexivity.
    + intros text Ht. discriminate Ht.
Qed.

(** X15. The strategy button of [src/app.py]: when the completion call
    raises an [Exception], the handler of the enclosing [try] shows
    "An error occurred: " followed by the message, nothing of an analysis
    is shown and the run goes on; when the call returns, the returned
    text is put, unescaped, between the tags of the [ai-box] division.
    Only an exception that is not an [Exception] leaves the block. *)
Theorem strategy_button_reports_completion_failure :
  forall (P : Providers) (video_id title : pystr) (tags : list pystr),
    let context := App.fetch_context video_id title tags in
    let completion :=
      generate_content App.model_name (App.prompt (fst context) (snd context)) in
    let r := App.strategy_button video_id title tags in
    (forall e, completion = Raise e -> exn_is_Exception e = true ->
       In (st_error (lit "An error occurred: " ++ exn_str e)) (shown r) /\
       (forall m, ~ In (st_success m) (shown r)) /\
       (forall m, ~ In (st_markdown m) (shown r)) /\
       raised r = None) /\
    (forall text, completion = Ok text ->
       In (st_success (lit "Analysis Complete! (Based on: " ++ fst context ++ lit ")"))
          (shown r) /\
       (exists body, In (st_markdown body) (shown r) /\ contains text body) /\
       (forall m, ~ In (st_error m) (shown r)) /\
       raised r = None) /\
    (forall e, raised r = Some e <->
       completion = Raise e /\ exn_is_Exception e = false).
Proof.
  intros P video_id title tags context completion r.
  unfold r, App.strategy_button, App.ai_content_engine.
  fold context. fold completion.
  destruct completion as [text | e]; cbn [bind].
  - cbn [shown raised]. split; [| split].
    + intros e He. discriminate He.
    + intros text' Ht. injection Ht as <-. split; [| split; [| split]].
      * simpl. auto.
      * eexists. split; [simpl; right; right; left; reflexivity |].
        exists (lit "<div class=" ++ dquote ++ lit "ai-box" ++ dquote ++ lit ">"),
               (lit "</div>").
        rewrite <- !app_assoc. reflexivity.
      * intros m Hm. simpl in Hm.
        repeat (destruct Hm as [Hm | Hm]; [discriminate Hm |]). contradiction.
      * reflexivity.
    + intros e. split; [intros He; discriminate He | intros (He & _); discriminate He].
  - destruct (exn_is_Exception e) eqn:Hexc; cbn [shown raised].
    + split; [| split].
      * intros e' He' _. injection He' as <-. split; [| split; [| split]].
        -- simpl. auto.
        -- intros m Hm. simpl in Hm.
           repeat (destruct Hm as [Hm | Hm]; [discriminate Hm |]). contradiction.
        -- intros m Hm. simpl in Hm.
           repeat (destruct Hm as [Hm | Hm]; [discriminate Hm |]). contradiction.
        -- reflexivity.
      * intros text Ht. discriminate Ht.
      * intros e'. split; [intros He'; discriminate He' |].
        intros (He' & Hno). injection He' as <-. congruence.
    + split; [| split].
      * intros e' He' Hyes. injection He' as <-. congruence.
      * intros text Ht. discriminate Ht.
      * intros e'. split.
        -- intros He'. injection He' as <-. split; [reflexivity | exact Hexc].
        -- intros (He' & _). injection He' as <-. reflexivity.
Qed.

(** * The size of the prompt *)

Lemma slice_to_length_min (n : Z) (s : pystr) :
  0 <= n -> Z.of_nat (length (slice_to n s)) = Z.min n (Z.of_nat (length s)).
Proof.
  intros Hn. unfold slice_to.
  replace (0 <=? n) with true by (symmetry; apply Z.leb_le; exact Hn).
  rewrite length_firstn. lia.
Qed.

(** X16. When the transcript is available, the prompt sent to the
    completion call has a length (in code points, as [len] counts) that
    is the length of the fixed text around it plus the length [n] of the
    joined transcript, capped: 812 + min(5000, n) in [src/app.py],
    679 + min(5000, n) in [src/app1.py] and 767 + min(8000, n) in
    [src/app2.py]. *)
Theorem transcript_prompt_length :
  forall (P : Providers) (video_id title : pystr) (tags : list pystr)
         (transcript_list : list segment),
    get_transcript video_id = Ok transcript_list ->
    let n := Z.of_nat (length (join (lit " ") (map seg_text transcript_list))) in
    let c := App.fetch_context video_id title tags in
    let c1 := App1.fetch_context video_id title tags in
    let c2 := App2.fetch_context video_id title tags in
    Z.of_nat (length (App.prompt (fst c) (snd c))) = 812 + Z.min 5000 n /\
    Z.of_nat (length (App1.prompt (fst c1) (snd c1))) = 679 + Z.min 5000 n /\
    Z.of_nat (length (App2.prompt (fst c2) (snd c2))) = 767 + Z.min 8000 n.
Proof.
  intros P video_id title tags transcript_list Hok n c c1 c2.
  unfold c, c1, c2, App.fetch_context, App1.fetch_context, App2.fetch_context.
  rewrite Hok. cbn [fst snd].
  unfold App.prompt, App1.prompt, App2.prompt.
  rewrite !length_app, !Nat2Z.inj_add, !slice_to_length_min by lia.
  fold n.
  repeat split.
  - replace (length App.prompt_head) with 82%nat by (vm_compute; reflexivity).
    replace (length Full_Transcript) with 15%nat by (vm_compute; reflexivity).
    replace (length App.prompt_mid) with 8%nat by (vm_compute; reflexivity).
    replace (length App.prompt_tail) with 707%nat by (vm_compute; reflexivity).
    lia.
  - replace (length App1.prompt_head) with 61%nat by (vm_compute; reflexivity).
    replace (length Full_Transcript) with 15%nat by (vm_compute; reflexivity).
    replace (length App1.prompt_mid) with 4%nat by (vm_compute; reflexivity).
    replace (length App1.prompt_tail) with 599%nat by (vm_compute; reflexivity).
    lia.
  - replace (length App2.prompt_head) with 69%nat by (vm_compute; reflexivity).
    replace (length Full_Transcript) with 15%nat by (vm_compute; reflexivity).
    replace (length App2.prompt_mid) with 4%nat by (vm_compute; reflexivity).
    replace (length App2.prompt_tail) with 679%nat by (vm_compute; reflexivity).
    lia.
Qed.

Lemma transcript_prompt_length_witness :
  Z.of_nat (length (@App.prompt Full_Transcript (lit "welcome back to the channel")))
  = 839.
Proof.
  destruct (transcript_prompt_length healthy_providers
              (lit "vid2") (lit "Weekly budget walkthrough") [lit "money"]
              _ eq_refl) as (H & _).
  exact H.
Defined.

(** * The scan button and the stored results *)

Lemma scan_click_session (rpm : float) (api_key : pystr)
      (answer : result (list item)) (s : session) :
  (fst (scan_click rpm api_key answer s) = s /\
   (api_key = [] \/ exists e, get_market_data_request rpm answer = Raise e)) \/
  (exists items df all_tags,
      api_key <> [] /\ answer = Ok items /\
      get_market_data rpm items = Ok (df, all_tags) /\
      fst (scan_click rpm api_key answer s) =
        {| search_done := true; session_df := df; session_all_tags := all_tags |}).
Proof.
  unfold scan_click. destruct api_key as [| c api_key].
  - left. split; [reflexivity | left; reflexivity].
  - destruct (get_market_data_request rpm answer) as [[df all_tags] | e] eqn:E.
    + right. unfold get_market_data_request in E.
      destruct answer as [items | e]; [| discriminate E]. cbn [bind] in E.
      exists items, df, all_tags. repeat split; [discriminate | exact E].
    + left. split; [| right; exists e; reflexivity].
      destruct (exn_is_Exception e); reflexivity.
Qed.

Lemma scan_clicks_app (l l' : list (float * pystr * result (list item)))
      (s : session) :
  scan_clicks (l ++ l') s = scan_clicks l' (scan_clicks l s).
Proof.
  revert s. induction l as [| [[rpm api_key] answer] l IH]; intros s.
  - reflexivity.
  - cbn [app scan_clicks]. apply IH.
Qed.

(** X17. Whatever sequence of clicks on "Scan Market" the session of
    [src/app1.py] has seen since it was created: if [search_done] is not
    set, the session is still the initial one; if it is set, the stored
    frame and tag list are exactly what [get_market_data] returned for
    the answer of one of the clicks, with the slider value of that click,
    and that click had a key.  So every property of a returned frame
    holds for the frame the results area works on. *)
Theorem stored_results_come_from_a_scan :
  forall (clicks : list (float * pystr * result (list item))),
    let s := scan_clicks clicks initial_session in
    if search_done s then
      exists rpm api_key items,
        In (rpm, api_key, Ok items) clicks /\ api_key <> [] /\
        get_market_data rpm items = Ok (session_df s, session_all_tags s)
    else s = initial_session.
Proof.
  intros clicks.
  induction clicks as [| [[rpm api_key] answer] clicks IH] using rev_ind.
  - reflexivity.
  - rewrite scan_clicks_app. cbn [scan_clicks]. cbv zeta in IH.
    destruct (scan_click_session rpm api_key answer
                (scan_clicks clicks initial_session))
      as [(Hsame & _) | (items & df & all_tags & Hkey & -> & Hgmd & Hnew)].
    + cbv zeta. rewrite Hsame.
      destruct (search_done (scan_clicks clicks initial_session)); [| exact IH].
      destruct IH as (r & k & its & Hin & Hk & Hg).
      exists r, k, its. split; [| split; assumption].
      apply in_or_app. left. exact Hin.
    + cbv zeta. rewrite Hnew. cbn [search_done session_df session_all_tags].
      exists rpm, api_key, items. split; [| split; assumption].
      apply in_or_app. right. left. reflexivity.
Qed.

(** X18. One click on "Scan Market" in [src/app1.py] never clears
    [search_done].  It changes the session only when the scan returned,
    and then to the returned frame and tags.  Without a key the session
    is kept and the click only asks for the key; when the scan raises,
    the session is kept as well, an [Exception] is shown as
    "Error: ..." and anything else leaves the script. *)
Theorem failed_scan_keeps_previous_results :
  forall (rpm : float) (api_key : pystr) (answer : result (list item))
         (s : session),
    let s' := fst (scan_click rpm api_key answer s) in
    let r := snd (scan_click rpm api_key answer s) in
    (search_done s = true -> search_done s' = true) /\
    (s' <> s ->
       exists items,
         api_key <> [] /\ answer = Ok items /\
         get_market_data rpm items = Ok (session_df s', session_all_tags s') /\
         search_done s' = true) /\
    (api_key = [] ->
       s' = s /\ raised r = None /\
       shown r = [ st_error (warning_sign ++ lit " Please enter API Key first") ]) /\
    (forall e, api_key <> [] -> get_market_data_request rpm answer = Raise e ->
       s' = s /\
       if exn_is_Exception e
       then In (st_error (lit "Error: " ++ exn_str e)) (shown r) /\ raised r = None
       else raised r = Some e).
Proof.
  intros rpm api_key answer s s' r.
  split; [| split; [| split]].
  - intros Hdone.
    destruct (scan_click_session rpm api_key answer s)
      as [(Hsame & _) | (items & df & all_tags & _ & _ & _ & Hnew)];
      unfold s'; [rewrite Hsame; exact Hdone | rewrite Hnew; reflexivity].
  - intros Hchanged.
    destruct (scan_click_session rpm api_key answer s)
      as [(Hsame & _) | (items & df & all_tags & Hkey & Hans & Hgmd & Hnew)].
    + exfalso. apply Hchanged. exact Hsame.
    + exists items. unfold s'. rewrite Hnew.
      cbn [search_done session_df session_all_tags]. repeat split; assumption.
  - intros ->. unfold s', r. cbn [scan_click fst snd raised shown].
    repeat split.
  - intros e Hkey Hraise. unfold s', r, scan_click.
    destruct api_key as [| c api_key]; [contradiction |].
    rewrite Hraise.
    destruct (exn_is_Exception e); cbn [fst snd shown raised];
      (split; [reflexivity |]); [split; [simpl; auto | reflexivity] | reflexivity].
Qed.

Lemma rows_views (rpm : float) (items : list item) (rows : list row) :
  Forall2 (fun it r => score_item rpm it = Ok r) items rows ->
  map Views rows = map (fun it => get_count (viewCount it)) items.
Proof.
  induction 1 as [| it r items rows Hit _ IH]; [reflexivity |].
  cbn [map]. f_equal; [| exact IH].
  apply score_item_fields in Hit.
  destruct Hit as (? & ? & ? & _ & _ & _ & Hv & _). exact Hv.
Qed.

(** X19. A scan that returns sets [search_done], so the results area of
    [src/app1.py] is entered and reads [df['Views']]: for an answer with
    items this is the list of their view counts, in item order; for an
    answer without items the frame has no columns and the read raises
    [KeyError: 'Views']. *)
Theorem empty_answer_breaks_results_area :
  forall (rpm : float) (api_key : pystr) (items : list item) (s : session),
    api_key <> [] ->
    returns (get_market_data rpm items) ->
    results_area_first_read (fst (scan_click rpm api_key (Ok items) s)) =
      Some (match items with
            | [] => Raise (KeyError "Views")
            | _ :: _ => Ok (map (fun it => get_count (viewCount it)) items)
            end).
Proof.
  intros rpm api_key items s Hkey [[df all_tags] Hret].
  unfold scan_click. destruct api_key as [| c api_key]; [contradiction |].
  cbn [get_market_data_request bind]. rewrite Hret.
  cbn [fst results_area_first_read search_done session_df].
  f_equal. unfold column_Views.
  destruct (get_market_data_Ok rpm items df all_tags Hret) as (rows & Hrows & -> & _).
  rewrite normalise_rows.
  pose proof (rows_views rpm items rows Hrows) as Hviews.
  destruct Hrows as [| it r items rows Hit Hrows]; [reflexivity |].
  rewrite Hviews. reflexivity.
Qed.

Lemma empty_answer_breaks_results_area_witness :
  results_area_first_read
    (fst (scan_click rpm_default (lit "key") (Ok []) initial_session)) =
  Some (Raise (KeyError "Views")).
Proof.
  apply (empty_answer_breaks_results_area rpm_default (lit "key") [] initial_session).
  - discriminate.
  - eexists. reflexivity.
Defined.

(** * Exact raw scores *)

Lemma shr_1_even (x : Z) :
  0 <= x ->
  shr_1 {| shr_m := x * 2; shr_r := false; shr_s := false |} =
  {| shr_m := x; shr_r := false; shr_s := false |}.
Proof.
  intros Hx. destruct x as [| p | p]; [reflexivity | | lia].
  replace (Zpos p * 2) with (Zpos p~0) by lia. reflexivity.
Qed.

Lemma iter_shr_1_even (p : positive) :
  forall x, 0 <= x ->
    iter_pos shr_1 p {| shr_m := x * 2 ^ Zpos p; shr_r := false; shr_s := false |} =
    {| shr_m := x; shr_r := false; shr_s := false |}.
Proof.
  induction p as [p IH | p IH |]; intros x Hx; cbn [iter_pos].
  - replace (x * 2 ^ Zpos p~1) with (((x * 2 ^ Zpos p) * 2 ^ Zpos p) * 2).
    + assert (0 <= x * 2 ^ Zpos p) by (apply Z.mul_nonneg_nonneg; [lia | apply Z.pow_nonneg; lia]).
      rewrite shr_1_even, IH, IH; try assumption; [reflexivity |].
      apply Z.mul_nonneg_nonneg; [assumption | apply Z.pow_nonneg; lia].
    + replace (Zpos p~1) with (Zpos p + Zpos p + 1) by lia.
      rewrite !Z.pow_add_r by lia. change (2 ^ 1) with 2. ring.
  - replace (x * 2 ^ Zpos p~0) with ((x * 2 ^ Zpos p) * 2 ^ Zpos p).
    + assert (0 <= x * 2 ^ Zpos p) by (apply Z.mul_nonneg_nonneg; [lia | apply Z.pow_nonneg; lia]).
      rewrite IH, IH; try assumption. reflexivity.
    + replace (Zpos p~0) with (Zpos p + Zpos p) by lia.
      rewrite !Z.pow_add_r by lia. ring.
  - change (2 ^ 1) with 2. apply shr_1_even. exact Hx.
Qed.

(** Rounding a number that is given with [j] trailing zero bits below a
    mantissa that already fits returns that mantissa. *)
Lemma binary_round_aux_exact (s : bool) (M : positive) (E j : Z) :
  0 <= j ->
  E = fexp prec emax (Zpos (digits2_pos M) + E) ->
  E <= 971 ->
  binary_round_aux prec emax s (Zpos M * 2 ^ j) (E - j) loc_Exact =
  S754_finite s M E.
Proof.
  intros Hj Hcan Hmax.
  assert (Hd : Zdigits2 (Zpos M * 2 ^ j) = Zpos (digits2_pos M) + j).
  { rewrite Zdigits2_mul_pow2 by lia. reflexivity. }
  assert (H1 : shr_fexp prec emax (Zpos M * 2 ^ j) (E - j) loc_Exact =
               ({| shr_m := Zpos M; shr_r := false; shr_s := false |}, E)).
  { unfold shr_fexp. rewrite Hd.
    replace (Zpos (digits2_pos M) + j + (E - j)) with (Zpos (digits2_pos M) + E) by lia.
    rewrite <- Hcan. replace (E - (E - j)) with j by lia.
    unfold shr. destruct j as [| p | p]; [| | lia].
    - rewrite Z.pow_0_r, Z.mul_1_r, Z.sub_0_r. reflexivity.
    - cbn [shr_record_of_loc]. rewrite iter_shr_1_even by lia.
      f_equal. lia. }
  assert (H2 : shr_fexp prec emax (Zpos M) E loc_Exact =
               ({| shr_m := Zpos M; shr_r := false; shr_s := false |}, E)).
  { unfold shr_fexp. change (Zdigits2 (Zpos M)) with (Zpos (digits2_pos M)).
    rewrite <- Hcan, Z.sub_diag. reflexivity. }
  unfold binary_round_aux. rewrite H1.
  cbn [shr_m shr_r shr_s loc_of_shr_record round_nearest_even].
  rewrite H2. cbn [shr_m].
  replace (E <=? emax - prec) with true; [reflexivity |].
  symmetry. apply Z.leb_le. exact Hmax.
Qed.

(** [binary_round] does not depend on how the number is written: any
    pair with the value of the canonical pair [(M, E)] gives [(M, E)]. *)
Lemma binary_round_exact (s : bool) (S M : positive) (e E : Z) :
  E = fexp prec emax (Zpos (digits2_pos M) + E) ->
  E <= 971 ->
  Zpos S * 2 ^ (e - Z.min e E) = Zpos M * 2 ^ (E - Z.min e E) ->
  binary_round prec emax s S e = S754_finite s M E.
Proof.
  intros Hcan Hmax Hval.
  assert (Hdig : Zpos (digits2_pos S) + e = Zpos (digits2_pos M) + E).
  { assert (H : Zdigits2 (Zpos S * 2 ^ (e - Z.min e E)) =
                Zdigits2 (Zpos M * 2 ^ (E - Z.min e E))) by (rewrite Hval; reflexivity).
    rewrite !Zdigits2_mul_pow2 in H by lia.
    change (Zdigits2 (Zpos S)) with (Zpos (digits2_pos S)) in H.
    change (Zdigits2 (Zpos M)) with (Zpos (digits2_pos M)) in H. lia. }
  unfold binary_round. rewrite Hdig, <- Hcan.
  pose proof (shl_align_spec S e E) as Hs.
  destruct (shl_align S e E) as [mz ez]. destruct Hs as [Hez Hmz].
  destruct (Z_le_gt_dec e E) as [Hle | Hgt].
  - replace ez with (E - (E - e)) by lia.
    rewrite Hmz.
    replace (e - ez) with 0 by lia. rewrite Z.pow_0_r, Z.mul_1_r.
    replace (Zpos S) with (Zpos M * 2 ^ (E - e)).
    + apply binary_round_aux_exact; [lia | exact Hcan | exact Hmax].
    + replace (Z.min e E) with e in Hval by lia.
      rewrite Z.sub_diag, Z.pow_0_r, Z.mul_1_r in Hval. symmetry. exact Hval.
  - replace ez with (E - 0) by lia.
    replace (Zpos mz) with (Zpos M * 2 ^ 0).
    + apply binary_round_aux_exact; [lia | exact Hcan | exact Hmax].
    + rewrite Hmz. replace (Z.min e E) with E in Hval by lia.
      rewrite Z.sub_diag in Hval. replace (e - ez) with (e - E) by lia.
      symmetry. exact Hval.
Qed.

Lemma binary_round_exact_at (s : bool) (S M : positive) (e E z : Z) :
  E = fexp prec emax (Zpos (digits2_pos M) + E) ->
  E <= 971 ->
  z <= e -> z <= E ->
  Zpos S * 2 ^ (e - z) = Zpos M * 2 ^ (E - z) ->
  binary_round prec emax s S e = S754_finite s M E.
Proof.
  intros Hcan Hmax Hze HzE Hval.
  apply binary_round_exact; [exact Hcan | exact Hmax |].
  set (z0 := Z.min e E).
  assert (Hp : 0 < 2 ^ (z0 - z)) by (apply Z.pow_pos_nonneg; lia).
  apply (Z.mul_reg_r _ _ (2 ^ (z0 - z))); [lia |].
  rewrite <- !Z.mul_assoc, <- !Z.pow_add_r by lia.
  replace (e - z0 + (z0 - z)) with (e - z) by lia.
  replace (E - z0 + (z0 - z)) with (E - z) by lia.
  exact Hval.
Qed.

(** The pair of [half_of k] is canonical. *)
Lemma half_of_pair (k : Z) :
  0 < k < 2 ^ 53 ->
  let d := Zdigits2 k in
  let M := Z.to_pos (k * 2 ^ (53 - d)) in
  1 <= d <= 53 /\
  Zpos M = k * 2 ^ (53 - d) /\
  Zpos (digits2_pos M) = 53 /\
  half_of k = S754_finite false M (d - 54).
Proof.
  intros [Hlo Hhi] d M.
  assert (Hd : 1 <= d <= 53).
  { split.
    - replace 1 with (0 + 1) by lia. apply Zdigits2_ge; [lia | simpl; lia].
    - apply Zdigits2_le; lia. }
  assert (Hpos : 0 < k * 2 ^ (53 - d)).
  { apply Z.mul_pos_pos; [lia | apply Z.pow_pos_nonneg; lia]. }
  assert (HM : Zpos M = k * 2 ^ (53 - d)) by (unfold M; apply Z2Pos.id; exact Hpos).
  repeat split; try lia.
  - change (Zpos (digits2_pos M)) with (Zdigits2 (Zpos M)).
    rewrite HM, Zdigits2_mul_pow2 by lia. fold d. lia.
  - unfold half_of. destruct k; try lia. reflexivity.
Qed.

(** Any way of writing [k / 2] is rounded to [half_of k]. *)
Lemma binary_round_half_of (S : positive) (e z k : Z) :
  0 < k < 2 ^ 53 ->
  z <= e -> z <= Zdigits2 k - 54 ->
  Zpos S * 2 ^ (e - z) = k * 2 ^ (- 1 - z) ->
  binary_round prec emax false S e = half_of k.
Proof.
  intros Hk Hze Hz Hval.
  destruct (half_of_pair k Hk) as (Hd & HM & HdM & ->).
  set (d := Zdigits2 k) in *.
  set (M := Z.to_pos (k * 2 ^ (53 - d))) in *.
  apply (binary_round_exact_at false S M e (d - 54) z); try lia.
  - rewrite HdM, fexp_eq. lia.
  - rewrite Hval, HM, <- Z.mul_assoc, <- Z.pow_add_r by lia.
    f_equal. f_equal. lia.
Qed.

Lemma nearest_half_of (n : Z) :
  0 <= n -> 2 * n < 2 ^ 53 -> nearest n = half_of (2 * n).
Proof.
  intros Hn Hlt. destruct n as [| p | p]; [reflexivity | | lia].
  unfold nearest, binary_normalize.
  pose proof (Zdigits2_nonneg (2 * Zpos p)).
  apply (binary_round_half_of p 0 (-54) (2 * Zpos p)); lia.
Qed.

Lemma mul_half_exact (n : Z) :
  0 <= n < 2 ^ 53 -> mul (nearest n) half = half_of n.
Proof.
  intros [Hn Hlt]. destruct n as [| p | p]; [reflexivity | | lia].
  destruct (half_of_pair (Zpos p) ltac:(lia)) as (Hd & HM & HdM & ->).
  set (d := Zdigits2 (Zpos p)) in *.
  set (M := Z.to_pos (Zpos p * 2 ^ (53 - d))) in *.
  assert (Hnear : nearest (Zpos p) = S754_finite false M (d - 53)).
  { unfold nearest, binary_normalize.
    apply (binary_round_exact_at false p M 0 (d - 53) (d - 53)); try lia.
    - rewrite HdM, fexp_eq. lia.
    - rewrite Z.sub_diag, Z.pow_0_r, Z.mul_1_r.
      replace (0 - (d - 53)) with (53 - d) by lia. symmetry. exact HM. }
  rewrite Hnear. unfold mul, half, SFmul. cbn [xorb].
  replace (Zpos (M * 4503599627370496)) with (Zpos M * 2 ^ 52)
    by (rewrite Pos2Z.inj_mul; reflexivity).
  replace (d - 53 + -53) with (d - 54 - 52) by lia.
  apply binary_round_aux_exact; try lia.
  rewrite HdM, fexp_eq. lia.
Qed.

Lemma add_half_of (a b : Z) :
  0 <= a -> 0 <= b -> a + b < 2 ^ 53 ->
  add (half_of a) (half_of b) = half_of (a + b).
Proof.
  intros Ha Hb Hlt.
  destruct (Z.eq_dec a 0) as [-> | Ha0].
  { destruct b as [| q | q]; [reflexivity | reflexivity | lia]. }
  destruct (Z.eq_dec b 0) as [-> | Hb0].
  { rewrite Z.add_0_r. destruct a as [| p | p]; [lia | reflexivity | lia]. }
  destruct (half_of_pair a ltac:(lia)) as (Hda & HMa & _ & ->).
  destruct (half_of_pair b ltac:(lia)) as (Hdb & HMb & _ & ->).
  set (da := Zdigits2 a) in *. set (db := Zdigits2 b) in *.
  set (Ma := Z.to_pos (a * 2 ^ (53 - da))) in *.
  set (Mb := Z.to_pos (b * 2 ^ (53 - db))) in *.
  unfold add, SFadd.
  pose proof (shl_align_spec Ma (da - 54) (Z.min (da - 54) (db - 54))) as Hsa.
  destruct (shl_align Ma (da - 54) (Z.min (da - 54) (db - 54))) as [ma ea].
  destruct Hsa as [Hea Hma].
  pose proof (shl_align_spec Mb (db - 54) (Z.min (da - 54) (db - 54))) as Hsb.
  destruct (shl_align Mb (db - 54) (Z.min (da - 54) (db - 54))) as [mb eb].
  destruct Hsb as [Heb Hmb].
  cbn [fst cond_Zopp]. unfold binary_normalize.
  change (Zpos ma + Zpos mb) with (Zpos (ma + mb)).
  remember (Z.min (da - 54) (db - 54)) as ez eqn:Hez.
  pose proof (Zdigits2_mono a (a + b) ltac:(lia)) as Hmono. fold da in Hmono.
  apply (binary_round_half_of (ma + mb) ez ez (a + b)); try lia.
  rewrite Z.sub_diag, Z.pow_0_r, Z.mul_1_r, Pos2Z.inj_add, Hma, Hmb, HMa, HMb.
  rewrite <- !Z.mul_assoc, <- !Z.pow_add_r by lia.
  replace (53 - da + (da - 54 - ea)) with (-1 - ez) by lia.
  replace (53 - db + (db - 54 - eb)) with (-1 - ez) by lia.
  ring.
Qed.

(** The raw score of counts whose weighted sum is below [2^53]. *)
Lemma raw_score_of_exact (views likes comments : Z) :
  0 <= views -> 0 <= likes -> 0 <= comments ->
  views + 100 * likes + 200 * comments < 2 ^ 53 ->
  raw_score_of views likes comments
  = Ok (half_of (views + 100 * likes + 200 * comments)).
Proof.
  intros Hv Hl Hc Hlt.
  assert (Hbig : 2 ^ 53 < 2 ^ 1000) by (apply Z.pow_lt_mono_r; lia).
  unfold raw_score_of.
  rewrite !of_int_returns by lia. cbn [bind].
  rewrite mul_half_exact by lia.
  replace (nearest (likes * 50)) with (half_of (100 * likes)).
  2:{ replace (100 * likes) with (2 * (likes * 50)) by ring.
      symmetry. apply nearest_half_of; lia. }
  replace (nearest (comments * 100)) with (half_of (200 * comments)).
  2:{ replace (200 * comments) with (2 * (comments * 100)) by ring.
      symmetry. apply nearest_half_of; lia. }
  rewrite !add_half_of by lia.
  reflexivity.
Qed.

Lemma row_raw_score_exact (rpm : float) (it : item) (r : row) :
  score_item rpm it = Ok r ->
  counts_nonneg it -> weighted_sum it < 2 ^ 53 ->
  Virality_Raw r = half_of (weighted_sum it).
Proof.
  intros Hr (Hv & Hl & Hc) Hlt. unfold weighted_sum in *.
  apply score_item_fields in Hr.
  destruct Hr as (eng & rev & raw & _ & _ & Hraw & _ & _ & _ & _ & _ & ->).
  rewrite raw_score_of_exact in Hraw by assumption.
  injection Hraw as <-. reflexivity.
Qed.

(** Halves of integers below [2^53] compare as the integers do. *)
Lemma half_of_ltb (a b : Z) :
  0 <= a < 2 ^ 53 -> 0 <= b < 2 ^ 53 ->
  ltb (half_of a) (half_of b) = (a <? b).
Proof.
  intros Ha Hb.
  destruct (Z.eq_dec a 0) as [-> | Ha0].
  { destruct b as [| q | q]; [reflexivity | reflexivity | lia]. }
  destruct (Z.eq_dec b 0) as [-> | Hb0].
  { destruct a as [| p | p]; [lia | reflexivity | lia]. }
  destruct (half_of_pair a ltac:(lia)) as (Hda & HMa & _ & ->).
  destruct (half_of_pair b ltac:(lia)) as (Hdb & HMb & _ & ->).
  pose proof (Zdigits2_bounds a ltac:(lia)) as Hba.
  pose proof (Zdigits2_bounds b ltac:(lia)) as Hbb.
  set (da := Zdigits2 a) in *. set (db := Zdigits2 b) in *.
  set (Ma := Z.to_pos (a * 2 ^ (53 - da))) in *.
  set (Mb := Z.to_pos (b * 2 ^ (53 - db))) in *.
  unfold ltb, SFltb, SFcompare.
  destruct (Z.compare_spec (da - 54) (db - 54)) as [Heq | Hlt | Hgt].
  - assert (Hd : da = db) by lia.
    change (Pos.compare_cont Eq Ma Mb) with (Pos.compare Ma Mb).
    rewrite Pos2Z.inj_compare, HMa, HMb, <- Hd.
    assert (Hp : 0 < 2 ^ (53 - da)) by (apply Z.pow_pos_nonneg; lia).
    destruct (Z.compare_spec (a * 2 ^ (53 - da)) (b * 2 ^ (53 - da)))
      as [H | H | H]; symmetry.
    + apply Z.ltb_ge. nia.
    + apply Z.ltb_lt. nia.
    + apply Z.ltb_ge. nia.
  - symmetry. apply Z.ltb_lt.
    assert (2 ^ da <= 2 ^ (db - 1)) by (apply Z.pow_le_mono_r; lia). lia.
  - symmetry. apply Z.ltb_ge.
    assert (2 ^ db <= 2 ^ (da - 1)) by (apply Z.pow_le_mono_r; lia). lia.
Qed.

(** X21. In a returned frame, the raw score of a video with non-negative
    counts whose weighted sum [views + 100 * likes + 200 * comments] is
    below [2^53] carries no rounding error: it is the binary64 number
    whose value is exactly half of that sum. *)
Theorem raw_scores_are_exact :
  forall (rpm : float) (items : list item) (df : DataFrame) (all_tags : list pystr)
         (i : nat) (it : item),
    get_market_data rpm items = Ok (df, all_tags) ->
    nth_error items i = Some it ->
    counts_nonneg it ->
    weighted_sum it < 2 ^ 53 ->
    exists r : row,
      nth_error (df_rows df) i = Some r /\
      Virality_Raw r = half_of (weighted_sum it).
Proof.
  intros rpm items df all_tags i it H Hi Hnn Hlt.
  apply get_market_data_Ok in H. destruct H as (rows & Hrows & -> & _).
  rewrite normalise_rows.
  destruct (Forall2_nth_error_l _ _ _ Hrows i it Hi) as (r & Hr & Hsc).
  exists r. split; [exact Hr |].
  exact (row_raw_score_exact rpm it r Hsc Hnn Hlt).
Qed.

Lemma raw_scores_are_exact_witness :
  exists (df : DataFrame) (all_tags : list pystr) (r : row),
    get_market_data rpm_default [sample_item "vid1" 1000 10 1 [lit "money"]]
    = Ok (df, all_tags) /\
    nth_error (df_rows df) 0 = Some r /\
    Virality_Raw r = half_of 2200.
Proof.
  destruct (get_market_data rpm_default [sample_item "vid1" 1000 10 1 [lit "money"]])
    as [[df all_tags] | e] eqn:E; [| vm_compute in E; discriminate E].
  destruct (raw_scores_are_exact rpm_default _ df all_tags 0%nat _ E eq_refl)
    as (r & Hr & Hraw).
  - vm_compute. repeat split; discriminate.
  - vm_compute. reflexivity.
  - exists df, all_tags, r. split; [reflexivity |]. split; [exact Hr | exact Hraw].
Defined.

(** X22. In a returned frame, the raw scores of two videos with
    non-negative counts and weighted sums below [2^53] compare exactly as
    the weighted sums do: one is smaller exactly when its sum is smaller,
    and the two are the same number exactly when the sums are equal. *)
Theorem raw_scores_order_by_weighted_sum :
  forall (rpm : float) (items : list item) (df : DataFrame) (all_tags : list pystr)
         (i j : nat) (it it' : item) (r r' : row),
    get_market_data rpm items = Ok (df, all_tags) ->
    nth_error items i = Some it -> nth_error items j = Some it' ->
    nth_error (df_rows df) i = Some r -> nth_error (df_rows df) j = Some r' ->
    counts_nonneg it -> counts_nonneg it' ->
    weighted_sum it < 2 ^ 53 -> weighted_sum it' < 2 ^ 53 ->
    ltb (Virality_Raw r) (Virality_Raw r') = (weighted_sum it <? weighted_sum it') /\
    (Virality_Raw r = Virality_Raw r' <-> weighted_sum it = weighted_sum it').
Proof.
  intros rpm items df all_tags i j it it' r r' H Hi Hj Hr Hr' Hnn Hnn' Hlt Hlt'.
  apply get_market_data_Ok in H. destruct H as (rows & Hrows & -> & _).
  rewrite normalise_rows in Hr, Hr'.
  destruct (Forall2_nth_error_l _ _ _ Hrows i it Hi) as (r0 & Hr0 & Hsc).
  destruct (Forall2_nth_error_l _ _ _ Hrows j it' Hj) as (r0' & Hr0' & Hsc').
  assert (r0 = r) by congruence. assert (r0' = r') by congruence. subst r0 r0'.
  rewrite (row_raw_score_exact rpm it r Hsc Hnn Hlt).
  rewrite (row_raw_score_exact rpm it' r' Hsc' Hnn' Hlt').
  assert (Ha : 0 <= weighted_sum it)
    by (destruct Hnn as (? & ? & ?); unfold weighted_sum; lia).
  assert (Hb : 0 <= weighted_sum it')
    by (destruct Hnn' as (? & ? & ?); unfold weighted_sum; lia).
  split; [apply half_of_ltb; lia |].
  split; [| intros ->; reflexivity].
  intros Heq.
  pose proof (half_of_ltb (weighted_sum it) (weighted_sum it') ltac:(lia) ltac:(lia)) as H1.
  pose proof (half_of_ltb (weighted_sum it') (weighted_sum it) ltac:(lia) ltac:(lia)) as H2.
  rewrite Heq in H1. rewrite Heq in H2.
  assert (Hirr : forall x, ltb (half_of x) (half_of x) = false).
  { intros x. destruct x as [| p | p]; try reflexivity.
    unfold half_of, ltb, SFltb, SFcompare. rewrite Z.compare_refl.
    change (Pos.compare_cont Eq ?a ?b) with (Pos.compare a b).
    rewrite Pos.compare_refl. reflexivity. }
  rewrite Hirr in H1, H2.
  symmetry in H1, H2. apply Z.ltb_ge in H1, H2. lia.
Qed.

Lemma raw_scores_order_by_weighted_sum_witness :
  exists (df : DataFrame) (all_tags : list pystr) (r r' : row),
    get_market_data rpm_default
      [sample_item "vid1" 1000 10 1 [lit "money"];
       sample_item "vid2" 5000 2 0 [lit "budget"]]
    = Ok (df, all_tags) /\
    nth_error (df_rows df) 0 = Some r /\
    nth_error (df_rows df) 1 = Some r' /\
    ltb (Virality_Raw r) (Virality_Raw r') = true.
Proof.
  destruct (get_market_data rpm_default
              [sample_item "vid1" 1000 10 1 [lit "money"];
               sample_item "vid2" 5000 2 0 [lit "budget"]])
    as [[df all_tags] | e] eqn:E; [| vm_compute in E; discriminate E].
  pose proof E as E'. vm_compute in E'. injection E' as Hdf _.
  destruct (nth_error (df_rows df) 0) as [r |] eqn:Hr;
    [| rewrite <- Hdf in Hr; vm_compute in Hr; discriminate Hr].
  destruct (nth_error (df_rows df) 1) as [r' |] eqn:Hr';
    [| rewrite <- Hdf in Hr'; vm_compute in Hr'; discriminate Hr'].
  exists df, all_tags, r, r'.
  split; [reflexivity |]. split; [exact Hr |]. split; [exact Hr' |].
  destruct (raw_scores_order_by_weighted_sum rpm_default _ df all_tags 0%nat 1%nat
              _ _ r r' E eq_refl eq_refl Hr Hr') as (Hlt & _).
  - vm_compute. repeat split; discriminate.
  - vm_compute. repeat split; discriminate.
  - vm_compute. reflexivity.
  - vm_compute. reflexivity.
  - rewrite Hlt. vm_compute. reflexivity.
Defined.
